(* ===== verification/_CoqProject ===== *)
-Q . S2P
Prelude.v
Text.v
JsValue.v
Forms.v
Json.v
Validate.v
Mail.v
Runtime.v
Handlers.v
Recipients.v
Resume.v
Interleave.v
Replies.v
Budget.v
App.v
Wire.v
Startup.v
Cors.v
Server.v
Scenarios.v
