(* ===== verification/Prelude.v ===== *)
(** * ICSET back end: a verification development of [src/index.js]

    The repository is a small Express server with one source file,
    [src/index.js].  It has two POST endpoints, [/api/contact] and
    [/api/submit-paper].  Each one reads [req.body] (and, for papers,
    [req.file]), checks it, builds two HTML e-mails, and awaits
    [transporter.sendMail] on each in turn: a notification to a fixed
    administrator address, then a confirmation to the submitter.  It
    answers 200, 400 or 500.  The parts interact only through calls: the
    router calls a handler, the handler calls the composer and then the
    relay.  Requests in flight share only the transporter: each handler
    suspends at its [await]s, and the event loop may resume the requests
    in any order.

    ** Files, in dependency order

    - [Prelude] (this file): the state-and-exception monad that models an
      async handler ([st_ret], [st_bind], [st_throw], [st_catch] for
      [try]/[catch]).  Its laws, an equivalence [≈] with [Proper]
      instances for setoid rewriting, option and string helpers, the
      tactics [st_unfold], [inv_option], [solve_infix], [rewrite_hyps],
      and the hint databases [icset] (resolve) and [icset_rw] (rewrite).
      Also the reflexive-transitive closure [star] of a step relation, its
      counted form [starn], and [star_invariant] for rule induction.
    - [Text]: the [String.prototype] operations the libraries use on
      header values and address lists: [split_on], [join], [trim], and
      [vary_parse].  Also the round trip of splitting over joining.
    - [JsValue]: the JavaScript values a body can hold ([jsval]).
      [truthy] is [ToBoolean] (the [!x] guards, lines 42 and 100).
      [get_prop] is the read done by [const {..} = req.body] (lines 35-40,
      90-97).  [to_str] is the [ToString] of a template-literal
      substitution (lines 53-73, 111-139), including the TypeError thrown
      for an object with an own [toString] key.
    - [Forms]: multer's assembly of [req.body] from the text fields of a
      form (line 89, the append-field package).  A repeated field becomes
      an array.  Reading the built object back gives the values sent, and
      no name appears twice.
    - [Json]: JSON text.  [stringify] is [JSON.stringify], which
      [res.json] applies to every reply.  [json_parse] is the
      [JSON.parse] that [express.json()] applies to a request body: three
      mutually recursive functions over fuel ([parse_value],
      [parse_elems], [parse_members]) that return a value, a syntax error,
      or [PBeyond] for valid text whose value [jsval] cannot hold.
      [json_wire] says which values [JSON.parse] can produce.
    - [Validate]: the two guards ([contact_missing], line 42;
      [paper_missing_file], line 100) and their 400 reasons.  Also the
      multer file record [upload] and [process.env].
    - [Mail]: the [mail] record and the four composers
      [contact_admin_mail] (lines 50-61), [contact_confirm_mail] (64-74),
      [paper_admin_mail] (108-126) and [paper_confirm_mail] (129-140).  The
      HTML templates are copied character by character.  Also a parser
      that inverts the two notification templates.
    - [Runtime]: the [MailRelay] class, the interface of the external
      relay (the transporter, lines 26-32).  The [world] records the
      relay's state, the messages handed to [sendMail] in order, the
      [console.error] log and the response.  Effects: [send_mail] (an
      [await transporter.sendMail]), [console_error], [respond]
      ([res.status(c).json(b)]; a second response throws) and [read_prop].
      [sends_within] is a small program logic that counts sends.  A
      scripted, recording relay is the concrete instance.
    - [Handlers]: [contact_handler] (lines 34-85) and
      [submit_paper_handler] (lines 89-151), statement by statement.  Each
      is split at the destructuring into [contact_after_read] and
      [paper_after_read].  Also the spec's abstract endpoint: [pipeline]
      with the dispatcher [dispatch] (the notification, then the
      confirmation).
    - [Recipients]: the addresses nodemailer sends a message to, read
      from its [to] (a comma-separated string or an array of strings, for
      plain addresses).  Also what the unchecked [email] field makes the
      handlers do with it.
    - [Resume]: each handler as a finite tree of events ([proc]): a send
      at each [await transporter.sendMail] ([PSend], resumed with the
      relay's answer), [console.error] ([PLog]), [res.json] ([PRespond]),
      and the end ([PRet], [PThrow]).  [contact_proc] and [paper_proc] are
      the handlers written again over [proc], statement by statement.
      [interp] runs a tree in the state monad.
    - [Interleave]: requests in flight ([thread]) over a shared relay
      ([config]).  [step] resumes any one request by one event, which
      allows every schedule the event loop can produce, and more.
      [advance], [step_at] and [run_schedule] are an executable scheduler
      that is sound for [step].  [incoming] is a request as it reaches a
      handler, [initial] the configuration of requests accepted together,
      and [lone] the configuration of a single request in a given world.
    - [Replies]: the three fixed replies of each endpoint
      ([contact_replies], [paper_replies]), and the program logic
      [responds_only] over trees, which [interp] respects.
    - [Budget]: [events_within], the number of events a tree may still
      take, and its sum over the requests in flight.
    - [App]: [corsOptions], [transporter_options], [listen_port] (lines
      16-20, 26-32, 153) and [app_handle], the request path: CORS
      preflight, [express.json()], Express's case-insensitive routing with
      an optional trailing slash, [upload.single('file')], the handlers,
      and the 404 and error fall-backs.
    - [Wire]: [express_json], line 23 on the text of a body (the strict
      first-character test, then [json_parse]), and [reply_text], the
      text [res.json] sends.  It composes [Json] with [App] and
      [Replies].
    - [Startup]: [dotenv.config()] (line 7): the [.env] file parsed into
      an object, where a name given twice keeps its last value.  Then
      every variable the process lacks is copied in.  Also the port and
      the log line of [app.listen] (lines 153-156).
    - [Cors]: the cors package as line 22 installs it with [corsOptions].
      It gives the headers set on every reply (with the vary package for
      [Vary]) and the 204 preflight.  [http_handle] is the server on one
      HTTP request: the CORS headers, then [app_handle].
    - [Server]: the routing of [app_handle] taken out as [app_route],
      and [serve], routing followed by the request's event tree.  Also
      [accept]: requests taken together by [app.listen], some answered
      by the framework and the others started as requests in flight.
    - [Scenarios]: concrete requests run by the kernel against the
      scripted relay.  It holds the witnesses of the theorems with
      hypotheses.

    ** What the theorems show

    Every numbered claim is about the code of [src/index.js]; the
    lemmas about the library models (the JSON round trip, the fuel of
    the parser, the event trees equal to the handlers) support them
    without being claims of their own.

    - Validation (C1, C2, C22, C24-C26): a falsy contact field means 400
      and no send.  A missing file means 400 whatever the fields.  The
      guard answers 400 exactly when a field is [undefined], [null],
      [false], [0] or [""] (C22).  So an empty array is accepted as a
      name and both e-mails carry the empty name (C24), the phone number
      [0] is rejected (C25), and a paper form without a title or an
      e-mail is mailed with ["undefined"] in the subjects and the
      confirmation addressed to [undefined] (C26).
    - Dispatch (C3-C6, C10, C32, C33): on success exactly two messages
      are handed over, administrator first.  A rejected notification
      means no confirmation and a 500.  A rejected confirmation still
      gives 500.  No request sends more than two messages.
    - Content (C4, C7, C8, C19-C21): the fields appear verbatim.  The
      paper attachment is the uploaded buffer labelled [application/pdf].
      A notification decodes back to its fields when none contains a
      ['<'].  Without that condition two submissions can render the same
      HTML, because nothing is escaped.
    - Errors and liveness (C9, C11, C14): a [ToString] that throws means
      500 and no send.  Each handler answers exactly once on an object
      body.  Under Express 4 every request gets a reply.
    - Refinement (C12, C13): each handler is equivalent ([≈], on every
      world and for every relay) to the spec's pipeline, which composes
      both messages before it dispatches them.  The code builds the
      confirmation only after the first send.  The two agree because the
      confirmation reads a subset of the notification's fields.
    - Application (C15, C16, C34): routing ignores letter case and a
      trailing slash, and any other path is a 404 (C15).  multer's error
      for a second file gives 500 (C16).  A body that is not JSON text is
      answered 400 by Express before any route, not 500 by the endpoint
      as the spec says (C34).
    - CORS (C17, C18): every reply carries [Access-Control-Allow-Origin:
      http://localhost:5173] with credentials allowed, and a preflight on
      any path is answered 204.  The configured origin restricts only
      what a browser shows: a form post from any other site is processed,
      and both e-mails are sent.
    - Recipients (C23): the unchecked [email] field reaches nodemailer as
      the confirmation's [to].  So a JSON array, a comma-separated
      string, or a repeated form field makes one submission mail every
      address it lists.
    - JSON on the wire (C27): an object a client posts as JSON text
      reaches the contact handler unchanged, and the reply comes back as
      text that [JSON.parse] reads to one of the three fixed bodies.
    - Concurrency (C28, C30, C31): requests are interleaved in any way
      at their awaits, whatever the relay answers.
      - Each request hands the relay a prefix of its own
        [[notification; confirmation]] (C28, an invariant by rule
        induction).
      - [k] requests take at most [4k] events, and the bound is reached
        (C30).
      - Each recorded reply is one of the endpoint's fixed replies, and a
        handler that returned has answered (C31).
    - Replies (C29): whatever the body and the relay, a handler records
      only its endpoint's static replies, so no error text reaches the
      caller (spec section 7).
    - Start-up (C35): the port is the process's own [PORT] when set,
      otherwise the last [PORT] of [.env], and 5000 when that is empty or
      missing.

    ** Modelling choices and bounds

    - Fuel appears only in the JSON parser, which is not structural over
      the text.  [json_fuel] gives [S (2 * length text)]: a nested array
      costs a unit in [parse_value] and one in [parse_elems] before its
      first character is read, and every other step reads one.  This is
      enough on every text ([json_parse_fuel], from [parse_consumes], which shows
      that every successful step consumes text).  For a printed value,
      [parse_fuel v] (one unit per value, element or member) is at most
      [length (stringify v)] ([parse_fuel_le]).
    - Elsewhere no fuel is needed.  The handlers are straight-line code, and
      [to_str] recurses structurally over the value, through arrays.  The
      event trees are inductive because the handlers never loop, so the
      interleavings terminate by well-founded induction, not by a bound
      chosen in advance.  [run_schedule] follows a finite list of choices.
    - The relay is an interface, so every handler theorem holds for every
      [MailRelay] instance.  Relay answers appear as hypotheses on
      [relay_send].
    - Numbers are integers ([Z]).  [number_to_string] is JavaScript's
      printing for magnitudes below [10^21], which covers the integers
      JSON parsing keeps exactly.  Fractional numbers are not modelled.
    - [App] follows Express 4 with body-parser 1.x, where [req.body] is
      [{}] when no parser applies.  The handlers themselves are modelled on
      any body, [undefined] included.
    - Library behaviour (body-parser, multer, the router, the default
      error handler) is written only as far as these routes observe it.

    ** Not modelled

    - the I/O of start-up: reading [.env], splitting its text into
      lines, and opening the socket.  They are calls into Node and dotenv
      with no logic of the repository;
    - nodemailer's SMTP transport: the relay stays an interface.  Only
      the recipient list is modelled, and only for plain addresses;
      display names, quotes and groups are not;
    - non-integral JSON numbers: printing them is JavaScript's shortest
      round-trip algorithm for doubles.  [json_parse] reports a
      fraction, an exponent, an integer beyond [2^53] and [-0] as
      [PBeyond] instead of approximating them;
    - in JSON text, [\u] escapes above [0xFF] and keys that are array
      indices, which JavaScript reorders (also [PBeyond]), and the UTF-8
      decoding of the body: strings are sequences of code units below
      256;
    - multer's bracket syntax for field names ([a[b]]): [multer_fields]
      is [None] there.  append-field builds such values with
      [Object.create(null)], objects without a prototype whose [ToString]
      throws, and [jsval] has no such value.  The multipart encoding
      itself (busboy) is not modelled either;
    - repeated request headers.
    - The event loop runs synchronous code without switching.  [step]
      also switches between a log line and a response, so its theorems
      hold a fortiori for the real schedules.  The stricter semantics is
      not modelled separately. *)

From Stdlib Require Import String Ascii List ZArith Lia Bool.
From Stdlib Require Import Morphisms RelationClasses Setoid.
Import ListNotations.

Declare Scope icset_scope.
Delimit Scope icset_scope with icset.

Create HintDb icset.
Create Rewrite HintDb icset_rw.

(** ** The state-and-exception monad of the async handlers *)

(** A computation either completes normally or throws; in both cases the
    state it leaves behind is kept (an [await] that rejects has already
    changed the world). *)
Inductive outcome (E A : Type) : Type :=
| Normal (a : A)
| Thrown (e : E).
Arguments Normal {E A} a.
Arguments Thrown {E A} e.

Definition st (S E A : Type) : Type := S -> outcome E A * S.

Section Monad.
Context {S E : Type}.

Definition st_ret {A} (a : A) : st S E A := fun s => (Normal a, s).

Definition st_bind {A B} (m : st S E A) (k : A -> st S E B) : st S E B :=
  fun s =>
    match m s with
    | (Normal a, s') => k a s'
    | (Thrown e, s') => (Thrown e, s')
    end.

Definition st_throw {A} (e : E) : st S E A := fun s => (Thrown e, s).

(** [try { m } catch (e) { h(e) }] *)
Definition st_catch {A} (m : st S E A) (h : E -> st S E A) : st S E A :=
  fun s =>
    match m s with
    | (Normal a, s') => (Normal a, s')
    | (Thrown e, s') => h e s'
    end.

Definition st_get : st S E S := fun s => (Normal s, s).
Definition st_put (s : S) : st S E unit := fun _ => (Normal tt, s).

(** Lift a computation that may fail without touching the state. *)
Definition st_of_option {A} (e : E) (o : option A) : st S E A :=
  match o with Some a => st_ret a | None => st_throw e end.

(** Two computations are equivalent when they agree on every state. *)
Definition st_equiv {A} (m1 m2 : st S E A) : Prop := forall s, m1 s = m2 s.
End Monad.

Notation "x <- m ;; k" := (st_bind m (fun x => k))
  (at level 61, m at next level, right associativity) : icset_scope.
Notation "m ;; k" := (st_bind m (fun _ => k))
  (at level 61, right associativity) : icset_scope.
Infix "≈" := st_equiv (at level 70) : icset_scope.

Open Scope icset_scope.

Section MonadLaws.
Context {S E : Type}.

Lemma st_bind_ret_l {A B} (a : A) (k : A -> st S E B) s :
  st_bind (st_ret a) k s = k a s.
Proof. reflexivity. Qed.

Lemma st_bind_throw {A B} (e : E) (k : A -> st S E B) s :
  st_bind (st_throw e) k s = (Thrown e, s).
Proof. reflexivity. Qed.

Lemma st_bind_assoc {A B C} (m : st S E A) (f : A -> st S E B)
      (g : B -> st S E C) s :
  st_bind (st_bind m f) g s = st_bind m (fun x => st_bind (f x) g) s.
Proof. unfold st_bind. destruct (m s) as [[a|e] s']; reflexivity. Qed.

Lemma st_catch_ret {A} (a : A) (h : E -> st S E A) s :
  st_catch (st_ret a) h s = (Normal a, s).
Proof. reflexivity. Qed.

Lemma st_catch_throw {A} (e : E) (h : E -> st S E A) s :
  st_catch (st_throw e) h s = h e s.
Proof. reflexivity. Qed.

#[export] Instance st_equiv_equivalence {A} : Equivalence (@st_equiv S E A).
Proof.
  split.
  - intros m s. reflexivity.
  - intros m1 m2 H s. symmetry. apply H.
  - intros m1 m2 m3 H1 H2 s. rewrite H1. apply H2.
Qed.

#[export] Instance st_bind_proper {A B} :
  Proper (st_equiv ==> pointwise_relation A st_equiv ==> st_equiv)
         (@st_bind S E A B).
Proof.
  intros m1 m2 Hm k1 k2 Hk s. unfold st_bind. rewrite Hm.
  destruct (m2 s) as [[a|e] s']; [apply Hk | reflexivity].
Qed.

#[export] Instance st_catch_proper {A} :
  Proper (st_equiv ==> pointwise_relation E st_equiv ==> st_equiv)
         (@st_catch S E A).
Proof.
  intros m1 m2 Hm h1 h2 Hh s. unfold st_catch. rewrite Hm.
  destruct (m2 s) as [[a|e] s']; [reflexivity | apply Hh].
Qed.
Lemma st_bind_equiv_r {A B} (m : st S E A) (f g : A -> st S E B) :
  (forall a, f a ≈ g a) -> st_bind m f ≈ st_bind m g.
Proof. intros Hfg. apply st_bind_proper; [reflexivity | exact Hfg]. Qed.
End MonadLaws.

#[export] Hint Rewrite @st_bind_ret_l @st_bind_throw @st_bind_assoc
  @st_catch_ret @st_catch_throw : icset_rw.

(** Unfold the monad's combinators and compute. *)
Ltac st_unfold :=
  unfold st_bind, st_ret, st_throw, st_catch, st_get, st_put, st_of_option
    in *; simpl in *.

(** ** Options *)

Definition obind {A B} (o : option A) (k : A -> option B) : option B :=
  match o with Some a => k a | None => None end.

Notation "'let?' x := o 'in' k" := (obind o (fun x => k))
  (at level 10, x name, o at level 100, k at level 200) : icset_scope.

Lemma obind_Some {A B} (o : option A) (k : A -> option B) b :
  obind o k = Some b <-> exists a, o = Some a /\ k a = Some b.
Proof.
  destruct o as [a|]; simpl; split.
  - intros H. eauto.
  - intros (a' & Ha & Hk). congruence.
  - discriminate.
  - intros (a' & Ha & _). discriminate.
Qed.

Ltac inv_option :=
  repeat match goal with
  | H : Some _ = Some _ |- _ => injection H as H; subst
  | H : None = Some _ |- _ => discriminate H
  | H : Some _ = None |- _ => discriminate H
  | H : obind ?o _ = Some _ |- _ =>
      let a := fresh "a" in let Ha := fresh "Ha" in
      apply obind_Some in H as (a & Ha & H)
  | H1 : ?x = Some ?a, H2 : ?x = Some ?b |- _ =>
      rewrite H1 in H2; injection H2 as H2; subst b
  end.

(** ** Strings *)

Local Open Scope string_scope.

(** [s] occurs in [t]. *)
Definition infix (s t : string) : Prop := exists p q, t = p ++ s ++ q.

Lemma string_app_assoc (a b c : string) : (a ++ b) ++ c = a ++ (b ++ c).
Proof. induction a as [|x a IH]; simpl; [reflexivity | now rewrite IH]. Qed.

Lemma string_app_nil_r (a : string) : a ++ "" = a.
Proof. induction a as [|x a IH]; simpl; [reflexivity | now rewrite IH]. Qed.

Lemma infix_refl s : infix s s.
Proof. exists "", "". simpl. now rewrite string_app_nil_r. Qed.

Lemma infix_app_l s t u : infix s t -> infix s (u ++ t).
Proof.
  intros (p & q & ->). exists (u ++ p), q. now rewrite string_app_assoc.
Qed.

Lemma infix_app_r s t u : infix s t -> infix s (t ++ u).
Proof.
  intros (p & q & ->). exists p, (q ++ u).
  now rewrite !string_app_assoc.
Qed.

Lemma infix_here s u : infix s (s ++ u).
Proof. exists "", u. reflexivity. Qed.

Lemma infix_cons s c t : infix s t -> infix s (String c t).
Proof. intros (p & q & ->). exists (String c p), q. reflexivity. Qed.

#[export] Hint Resolve infix_refl infix_here infix_app_l infix_app_r infix_cons : icset.

(** A string made of one character. *)
Definition chr (n : nat) : string := String (ascii_of_nat n) "".

(** ["\n"], the double quote, and ["<"]. *)
Definition nl : string := chr 10.
Definition dq : string := chr 34.
Definition lt_char : ascii := ascii_of_nat 60.

(** [s] does not contain the character [c]. *)
Fixpoint char_free (c : ascii) (s : string) : bool :=
  match s with
  | "" => true
  | String x s' => if Ascii.eqb x c then false else char_free c s'
  end.

(** Split [s] before the first occurrence of [c]. *)
Fixpoint take_until (c : ascii) (s : string) : string * string :=
  match s with
  | "" => ("", "")
  | String x s' =>
      if Ascii.eqb x c then ("", s)
      else let (a, b) := take_until c s' in (String x a, b)
  end.

(** Remove the prefix [p] from [s], when [s] starts with it. *)
Fixpoint strip_prefix (p s : string) : option string :=
  match p, s with
  | "", _ => Some s
  | String x p', String y s' =>
      if Ascii.eqb x y then strip_prefix p' s' else None
  | String _ _, "" => None
  end.

Lemma strip_prefix_app p s : strip_prefix p (p ++ s) = Some s.
Proof.
  induction p as [|x p IH]; simpl; [reflexivity|].
  now rewrite Ascii.eqb_refl.
Qed.

Lemma take_until_app c s r :
  char_free c s = true -> take_until c (s ++ String c r) = (s, String c r).
Proof.
  induction s as [|x s IH]; simpl; intros H.
  - now rewrite Ascii.eqb_refl.
  - destruct (Ascii.eqb x c); [discriminate|]. now rewrite IH.
Qed.

Lemma char_free_app c s t :
  char_free c (s ++ t) = char_free c s && char_free c t.
Proof.
  induction s as [|x s IH]; simpl; [reflexivity|].
  destruct (Ascii.eqb x c); [reflexivity | exact IH].
Qed.

#[export] Hint Rewrite strip_prefix_app char_free_app : icset_rw.

(** ** Mapping a fallible function over a list *)

(** The first failure aborts the whole map, as a JavaScript loop that
    throws does. *)
Fixpoint omap {A B} (f : A -> option B) (l : list A) : option (list B) :=
  match l with
  | [] => Some []
  | x :: l' => let? y := f x in let? ys := omap f l' in Some (y :: ys)
  end.

Lemma omap_None {A B} (f : A -> option B) l :
  omap f l = None <-> Exists (fun x => f x = None) l.
Proof.
  induction l as [|x l IH]; simpl.
  - split; [discriminate | intros H; inversion H].
  - rewrite Exists_cons, <- IH.
    destruct (f x) as [y|]; simpl; [|tauto].
    destruct (omap f l); simpl; split; try discriminate; intuition congruence.
Qed.

(** Close [infix s (... ++ s ++ ...)] by walking along the appends. *)
Ltac solve_infix :=
  repeat first [apply infix_refl | apply infix_here | apply infix_app_l
               | apply infix_cons].

(** Rewrite the goal with every equation [f args = v] of the context. *)
Ltac rewrite_hyps :=
  repeat match goal with
  | H : ?x = _ |- context [?x] => progress rewrite H
  end.

(** ** Reflexive-transitive closure of a step relation *)

Section Star.
Context {A : Type} (step : A -> A -> Prop).

Inductive star : A -> A -> Prop :=
| star_refl a : star a a
| star_step a b c : step a b -> star b c -> star a c.

Lemma star_one a b : step a b -> star a b.
Proof. intros H. eapply star_step; [exact H | apply star_refl]. Qed.

Lemma star_trans a b c : star a b -> star b c -> star a c.
Proof. induction 1; intros; [assumption | eapply star_step; eauto]. Qed.

(** A property preserved by every step holds along every run. *)
Lemma star_invariant (P : A -> Prop) :
  (forall a b, step a b -> P a -> P b) -> forall a b, star a b -> P a -> P b.
Proof. intros Hpres a b Hs. induction Hs; eauto. Qed.

(** Runs of exactly [n] steps. *)
Inductive starn : nat -> A -> A -> Prop :=
| starn_refl a : starn 0 a a
| starn_step n a b c : step a b -> starn n b c -> starn (S n) a c.

Lemma starn_star n a b : starn n a b -> star a b.
Proof. induction 1; [apply star_refl | eapply star_step; eauto]. Qed.

Lemma star_starn a b : star a b -> exists n, starn n a b.
Proof.
  induction 1 as [a|a b c Hab _ [n Hn]]; [exists 0; constructor | exists (S n); econstructor; eauto].
Qed.
End Star.
