(* ===== verification/Text.v ===== *)
(** * String operations of the JavaScript runtime

    The libraries the server loads (cors, vary, nodemailer) work on header
    values and address lists with a few [String.prototype] methods:
    - [s.split(',')]: [split_on];
    - [l.join(sep)]: [join];
    - [s.trim()]: [trim];
    - a split on commas with the spaces around each item dropped: the
      [parse] of the vary package, written [vary_parse].
    The lemmas give the round trip of [split_on] over [join], and the
    effect of [trim] on text without white space. *)

From Stdlib Require Import String Ascii List Bool.
From S2P Require Import Prelude.
Import ListNotations.
Local Open Scope string_scope.

(** [s.split(c)] for a one-character separator: always at least one
    item, and empty items are kept. *)
Fixpoint split_on (c : ascii) (s : string) : list string :=
  match s with
  | EmptyString => [EmptyString]
  | String a s' =>
      let parts := split_on c s' in
      if Ascii.eqb a c then EmptyString :: parts
      else match parts with
           | p :: ps => String a p :: ps
           | [] => [String a EmptyString]
           end
  end.

(** [l.join(sep)]. *)
Fixpoint join (sep : string) (l : list string) : string :=
  match l with
  | [] => ""
  | [s] => s
  | s :: l' => s ++ sep ++ join sep l'
  end.

(** The white space [trim] removes, restricted to ASCII: tab, line feed,
    vertical tab, form feed, carriage return and space. *)
Definition is_ws (c : ascii) : bool :=
  let n := nat_of_ascii c in
  (Nat.leb 9 n && Nat.leb n 13) || Nat.eqb n 32.

Fixpoint drop_ws (s : string) : string :=
  match s with
  | String a s' => if is_ws a then drop_ws s' else s
  | EmptyString => EmptyString
  end.

Definition srev (s : string) : string := string_of_list_ascii (rev (list_ascii_of_string s)).

(** [s.trim()]. *)
Definition trim (s : string) : string := srev (drop_ws (srev (drop_ws s))).

(** No character of [s] is white space. *)
Definition ws_free (s : string) : bool := forallb (fun c => negb (is_ws c)) (list_ascii_of_string s).

Fixpoint drop_sp (s : string) : string :=
  match s with
  | String a s' => if Ascii.eqb a " " then drop_sp s' else s
  | EmptyString => EmptyString
  end.

(** The [parse] of the vary package: split on commas, and drop the
    spaces (only [0x20]) at both ends of each item. *)
Definition vary_parse (header : string) : list string :=
  map (fun p => srev (drop_sp (srev (drop_sp p)))) (split_on "," header).

(** ** Lemmas *)

Lemma split_on_free c s : char_free c s = true -> split_on c s = [s].
Proof.
  induction s as [|a s IH]; simpl; [reflexivity|].
  destruct (Ascii.eqb a c); [discriminate|]. intros Hs. now rewrite IH.
Qed.

Lemma split_on_app c p q :
  char_free c p = true -> split_on c (p ++ String c q) = p :: split_on c q.
Proof.
  induction p as [|a p IH]; simpl.
  - now rewrite Ascii.eqb_refl.
  - destruct (Ascii.eqb a c); [discriminate|]. intros Hp. now rewrite IH.
Qed.

Lemma split_on_not_nil c s : split_on c s <> [].
Proof.
  induction s as [|a s IH]; simpl; [discriminate|].
  destruct (Ascii.eqb a c); [discriminate|]. now destruct (split_on c s).
Qed.

Lemma split_on_prefix c sep x :
  char_free c sep = true ->
  split_on c (sep ++ x) =
  match split_on c x with p :: ps => (sep ++ p) :: ps | [] => [sep] end.
Proof.
  pose proof (split_on_not_nil c x) as Hx.
  induction sep as [|a sep IH]; simpl.
  - now destruct (split_on c x).
  - destruct (Ascii.eqb a c); [discriminate|]. intros Hs. rewrite IH by exact Hs.
    now destruct (split_on c x).
Qed.

(** Splitting undoes joining, when no item holds the separator: the
    items come back, each after the first prefixed by the rest of the
    separator. *)
Lemma split_on_join c sep p ps :
  char_free c sep = true -> Forall (fun q => char_free c q = true) (p :: ps) ->
  split_on c (join (String c sep) (p :: ps)) = p :: map (fun q => sep ++ q) ps.
Proof.
  intros Hsep Hl. revert p Hl. induction ps as [|q qs IH]; intros p Hl; inversion Hl; subst.
  - now apply split_on_free.
  - change (join (String c sep) (p :: q :: qs))
      with (p ++ String c (sep ++ join (String c sep) (q :: qs))).
    rewrite split_on_app, split_on_prefix, IH by assumption. reflexivity.
Qed.

Lemma drop_ws_free s : ws_free s = true -> drop_ws s = s.
Proof.
  destruct s as [|a s]; simpl; [reflexivity|].
  unfold ws_free; simpl. destruct (is_ws a); simpl; [discriminate | reflexivity].
Qed.

Lemma forallb_rev {A} (f : A -> bool) l : forallb f (rev l) = forallb f l.
Proof.
  induction l as [|x l IH]; simpl; [reflexivity|].
  rewrite forallb_app, IH. simpl. now rewrite andb_true_r, andb_comm.
Qed.

Lemma ws_free_rev s : ws_free (srev s) = ws_free s.
Proof.
  unfold ws_free, srev. rewrite list_ascii_of_string_of_list_ascii.
  apply forallb_rev.
Qed.

Lemma srev_involutive s : srev (srev s) = s.
Proof.
  unfold srev. rewrite list_ascii_of_string_of_list_ascii, rev_involutive.
  apply string_of_list_ascii_of_string.
Qed.

(** [trim] leaves text without white space alone. *)
Lemma trim_free s : ws_free s = true -> trim s = s.
Proof.
  intros Hs. unfold trim. rewrite (drop_ws_free s Hs).
  rewrite drop_ws_free by (now rewrite ws_free_rev). apply srev_involutive.
Qed.

(** [trim] drops the spaces a separator [", "] leaves before an item. *)
Lemma trim_space s : ws_free s = true -> trim (String " " s) = s.
Proof. intros Hs. unfold trim. simpl. now apply trim_free. Qed.

#[export] Hint Rewrite trim_free trim_space using assumption : icset_rw.
