(* ===== verification/JsValue.v ===== *)
(** * JavaScript values as the handlers of [src/index.js] see them

    [req.body] is the object built by [express.json()] (parsed JSON) or by
    multer (multipart fields; a repeated field becomes an array, and a
    bracketed name like [title[x]] becomes a nested object).  This file
    models:
    - the values themselves ([jsval]);
    - [ToBoolean], used by the guards [!firstName || ...] (line 42);
    - the property reads of the destructuring [const {..} = req.body]
      (lines 35-40 and 90-97), which throw a TypeError on [undefined] and
      [null];
    - the [ToString] of a template-literal substitution [${x}]
      (lines 53-73, 111-139).  Arrays are joined with [","], with
      [undefined]/[null] elements printed as the empty string.  A plain
      object prints as ["[object Object]"].  An object that has its own
      [toString] key (possible in JSON, never callable there) makes
      [ToString] throw a TypeError, because [OrdinaryToPrimitive] finds no
      callable method that returns a primitive. *)

From Stdlib Require Import String Ascii List ZArith Bool Lia DecimalString DecimalZ.
From S2P Require Import Prelude.
Import ListNotations.
Open Scope icset_scope.
Local Open Scope string_scope.

Inductive jsval : Type :=
| JUndefined
| JNull
| JBool (b : bool)
| JNum (n : Z)
| JStr (s : string)
| JArr (elems : list jsval)
| JObj (props : list (string * jsval)).

(** Induction over JSON values, with the elements of arrays. *)
Section JsvalInd.
Variable P : jsval -> Prop.
Hypothesis HUndef : P JUndefined.
Hypothesis HNull : P JNull.
Hypothesis HBool : forall b, P (JBool b).
Hypothesis HNum : forall n, P (JNum n).
Hypothesis HStr : forall s, P (JStr s).
Hypothesis HArr : forall xs, Forall P xs -> P (JArr xs).
Hypothesis HObj : forall ps, P (JObj ps).

Fixpoint jsval_ind' (v : jsval) : P v :=
  match v with
  | JUndefined => HUndef
  | JNull => HNull
  | JBool b => HBool b
  | JNum n => HNum n
  | JStr s => HStr s
  | JArr xs =>
      HArr xs ((fix go (l : list jsval) : Forall P l :=
                  match l with
                  | [] => Forall_nil P
                  | x :: l' => Forall_cons x (jsval_ind' x) (go l')
                  end) xs)
  | JObj ps => HObj ps
  end.
End JsvalInd.

(** ** ToBoolean: the value of [!!x] *)
Definition truthy (v : jsval) : bool :=
  match v with
  | JUndefined | JNull => false
  | JBool b => b
  | JNum n => negb (Z.eqb n 0)
  | JStr s => negb (String.eqb s "")
  | JArr _ | JObj _ => true
  end.

(** ** Property reads *)

(** Own data property of a parsed object (keys are unique after
    [JSON.parse] or multer). *)
Fixpoint assoc (k : string) (ps : list (string * jsval)) : option jsval :=
  match ps with
  | [] => None
  | (k', v) :: ps' => if String.eqb k k' then Some v else assoc k ps'
  end.

(** An own property, [undefined] when absent. *)
Definition field (ps : list (string * jsval)) (k : string) : jsval :=
  match assoc k ps with Some x => x | None => JUndefined end.

(** [v[k]] inside [const {k} = v].  [None] is the TypeError thrown when [v]
    is [undefined] or [null].  A missing property reads as [undefined].
    This is exact for keys that are not names of members of
    [Object.prototype], [Array.prototype] or [String.prototype].  The nine
    field names the handlers read are none of those. *)
Definition get_prop (v : jsval) (k : string) : option jsval :=
  match v with
  | JUndefined | JNull => None
  | JObj ps => Some (field ps k)
  | JArr xs =>
      Some (if String.eqb k "length" then JNum (Z.of_nat (length xs)) else JUndefined)
  | JStr s =>
      Some (if String.eqb k "length" then JNum (Z.of_nat (String.length s)) else JUndefined)
  | JBool _ | JNum _ => Some JUndefined
  end.

(** ** ToString, as applied by a template literal *)

(** [Number::toString] on an integer below [10^21] in magnitude: its
    decimal digits, with a leading ["-"] when negative. *)
Definition number_to_string (n : Z) : string :=
  NilEmpty.string_of_int (Z.to_int n).

Fixpoint to_str (v : jsval) : option string :=
  match v with
  | JUndefined => Some "undefined"
  | JNull => Some "null"
  | JBool true => Some "true"
  | JBool false => Some "false"
  | JNum n => Some (number_to_string n)
  | JStr s => Some s
  | JArr xs =>
      (* Array.prototype.join(","): holes print as the empty string *)
      let? ss := omap (fun x => match x with
                                | JUndefined | JNull => Some ""
                                | _ => to_str x
                                end) xs in
      Some (String.concat "," ss)
  | JObj ps =>
      match assoc "toString" ps with
      | Some _ => None
      | None => Some "[object Object]"
      end
  end.

(** The values on which [ToString] throws: objects, possibly nested in
    arrays, with an own [toString] key. *)
Fixpoint has_own_toString (v : jsval) : bool :=
  match v with
  | JArr xs => existsb has_own_toString xs
  | JObj ps => match assoc "toString" ps with Some _ => true | None => false end
  | _ => false
  end.

(** ** Lemmas *)

Lemma obind_Some_None {A B} (o : option A) (f : A -> B) :
  obind o (fun a => Some (f a)) = None <-> o = None.
Proof. destruct o; simpl; split; congruence. Qed.

(** The values the guard of line 42 treats as missing are exactly
    [undefined], [null], [false], [0] and the empty string. *)
Lemma truthy_false_iff v :
  truthy v = false <->
  v = JUndefined \/ v = JNull \/ v = JBool false \/ v = JNum 0 \/ v = JStr "".
Proof.
  destruct v as [| |b|n|s|xs|ps]; simpl.
  - tauto.
  - tauto.
  - destruct b; split; intros H; try discriminate; intuition congruence.
  - rewrite negb_false_iff, Z.eqb_eq.
    split; [intros ->; tauto | intuition congruence].
  - rewrite negb_false_iff, String.eqb_eq.
    split; [intros ->; tauto | intuition congruence].
  - split; [discriminate | intuition congruence].
  - split; [discriminate | intuition congruence].
Qed.

(** [ToString] throws exactly on objects with an own [toString] key,
    possibly nested in arrays. *)
Lemma to_str_None_iff v : to_str v = None <-> has_own_toString v = true.
Proof.
  induction v as [| |b|n|s|xs IH|ps] using jsval_ind'; simpl;
    try destruct b; try (split; discriminate).
  - rewrite obind_Some_None, omap_None, Exists_exists, existsb_exists.
    rewrite Forall_forall in IH.
    split; intros (x & Hin & Hx); exists x; split; trivial;
      specialize (IH x Hin); destruct x; try discriminate Hx; apply IH, Hx.
  - destruct (assoc "toString" ps); split; congruence.
Qed.

(** Reading a property of anything but [undefined] and [null] succeeds. *)
Lemma get_prop_defined v k :
  v <> JUndefined -> v <> JNull -> exists x, get_prop v k = Some x.
Proof. destruct v; simpl; intros H1 H2; try congruence; eauto. Qed.

(** The decimal printing of a number parses back to the same
    integer. *)
Lemma number_to_string_roundtrip n :
  option_map Z.of_int (NilEmpty.int_of_string (number_to_string n)) = Some n.
Proof.
  unfold number_to_string. rewrite NilEmpty.isi. simpl.
  now rewrite DecimalZ.of_to.
Qed.

Lemma string_of_uint_char_free d :
  char_free lt_char (NilEmpty.string_of_uint d) = true.
Proof. induction d; simpl; assumption || reflexivity. Qed.

(** A printed number contains no ['<']. *)
Lemma number_to_string_char_free n :
  char_free lt_char (number_to_string n) = true.
Proof.
  unfold number_to_string, NilEmpty.string_of_int.
  destruct (Z.to_int n); simpl; apply string_of_uint_char_free.
Qed.

#[export] Hint Resolve number_to_string_char_free : icset.
