(* ===== verification/Forms.v ===== *)
(** * Multer's text fields: the [req.body] of a multipart request

    [upload.single('file')] (line 89 of [src/index.js]) builds [req.body]
    from the text fields of the form.  It starts from an empty object and
    calls [appendField(req.body, name, value)] of the append-field
    package for each field, in order.  For a name without brackets, the
    package's [setValue] does one of three things:
    - it stores the value when the name is new;
    - it pushes the value when the name already holds an array;
    - it replaces a single earlier value by the array of both.
    So a field sent twice, e.g. two [email] inputs, reaches the handler as
    an array.  Names with [[..]] follow the package's path syntax, which
    builds nested objects; that syntax is not modelled ([multer_fields]
    is [None] there).

    The lemmas read the built object back: a name maps to the values
    sent under it, and no name appears twice. *)

From Stdlib Require Import String Ascii List Bool.
From S2P Require Import Prelude JsValue.
Import ListNotations.
Local Open Scope string_scope.

(** The value after one more field of the same name arrives. *)
Definition add_value (prev : option jsval) (v : string) : jsval :=
  match prev with
  | None => JStr v
  | Some (JArr l) => JArr (l ++ [JStr v])
  | Some x => JArr [x; JStr v]
  end.

(** [appendField(obj, name, v)] for a name without brackets. *)
Fixpoint append_field (name v : string) (obj : list (string * jsval)) : list (string * jsval) :=
  match obj with
  | [] => [(name, add_value None v)]
  | (k, x) :: rest =>
      if String.eqb k name then (k, add_value (Some x) v) :: rest
      else (k, x) :: append_field name v rest
  end.

(** [req.body] built from the form's text fields, in order. *)
Definition multer_fields (raw : list (string * string)) : option (list (string * jsval)) :=
  if forallb (fun p => char_free "["%char (fst p)) raw
  then Some (fold_left (fun obj p => append_field (fst p) (snd p) obj) raw [])
  else None.

(** The values sent under [name], in order. *)
Definition field_values (name : string) (raw : list (string * string)) : list string :=
  map snd (filter (fun p => String.eqb name (fst p)) raw).

(** What [req.body[name]] holds after these values. *)
Definition collected (vs : list string) : option jsval :=
  match vs with
  | [] => None
  | [v] => Some (JStr v)
  | _ => Some (JArr (map JStr vs))
  end.

(** ** Lemmas *)

Lemma assoc_append_field k name v obj :
  assoc k (append_field name v obj) =
  if String.eqb k name then Some (add_value (assoc k obj) v) else assoc k obj.
Proof.
  induction obj as [|[k' x] rest IH]; simpl.
  - destruct (String.eqb k name); reflexivity.
  - destruct (String.eqb_spec k' name) as [->|Hne]; simpl.
    + now destruct (String.eqb k name).
    + rewrite IH. destruct (String.eqb_spec k k') as [->|]; [|reflexivity].
      apply String.eqb_neq in Hne. now rewrite Hne.
Qed.

Lemma add_values_arr l vs :
  fold_left (fun acc v => Some (add_value acc v)) vs (Some (JArr l)) =
  Some (JArr (l ++ map JStr vs)).
Proof.
  revert l. induction vs as [|v vs IH]; intros l; simpl; [now rewrite app_nil_r|].
  rewrite IH. now rewrite <- app_assoc.
Qed.

Lemma add_values_collected vs :
  fold_left (fun acc v => Some (add_value acc v)) vs None = collected vs.
Proof.
  destruct vs as [|v [|v' vs]]; try reflexivity. simpl. now rewrite add_values_arr.
Qed.

Lemma assoc_fold_append k raw obj :
  assoc k (fold_left (fun o p => append_field (fst p) (snd p) o) raw obj) =
  fold_left (fun acc v => Some (add_value acc v)) (field_values k raw) (assoc k obj).
Proof.
  revert obj. induction raw as [|[n v] raw IH]; intros obj; simpl; [reflexivity|].
  rewrite IH, assoc_append_field. unfold field_values. simpl.
  now destruct (String.eqb k n).
Qed.

(** Reading a name of the built object gives the values sent under it:
    [undefined] for none, the string for one, the array for several. *)
Lemma multer_fields_assoc raw obj k :
  multer_fields raw = Some obj -> assoc k obj = collected (field_values k raw).
Proof.
  unfold multer_fields. destruct (forallb _ raw); [|discriminate].
  intros [= <-]. now rewrite assoc_fold_append, add_values_collected.
Qed.

Lemma keys_append_field name v obj :
  NoDup (map fst obj) -> NoDup (map fst (append_field name v obj)).
Proof.
  induction obj as [|[k x] rest IH]; simpl; intros Hnd.
  - constructor; [intros []|constructor].
  - inversion Hnd as [|? ? Hk Hrest]; subst.
    destruct (String.eqb_spec k name) as [->|Hne]; simpl; [constructor; assumption|].
    constructor; [|now apply IH].
    intros Hin. apply Hk. clear -Hin Hne. induction rest as [|[k' x'] rest IHr]; simpl in *.
    + destruct Hin as [->|[]]; congruence.
    + destruct (String.eqb k' name); simpl in *; intuition.
Qed.

(** The object multer builds has no name twice, so reading it with
    [assoc] is exact. *)
Lemma multer_fields_nodup raw obj : multer_fields raw = Some obj -> NoDup (map fst obj).
Proof.
  unfold multer_fields. destruct (forallb _ raw); [|discriminate]. intros [= <-].
  assert (Hgen : forall o, NoDup (map fst o) ->
            NoDup (map fst (fold_left (fun o p => append_field (fst p) (snd p) o) raw o))).
  { induction raw as [|p raw IH]; intros o Ho; simpl; [exact Ho|].
    apply IH, keys_append_field, Ho. }
  apply Hgen. constructor.
Qed.
