(* ===== verification/Json.v ===== *)
(** * JSON text: [express.json()] on the way in, [res.json] on the way out

    Two places of [src/index.js] go through JSON text:
    - [app.use(express.json())] (line 23) reads a request body with
      content type [application/json].  An empty body gives [{}].  In
      strict mode the first non-white character must be [{] or [[],
      otherwise the answer is 400.  The text is then given to
      [JSON.parse], and a syntax error is also a 400.
    - every [res.status(..).json(b)] (lines 43, 76, 81, 101, 142, 147)
      sends [JSON.stringify(b)].

    [json_parse] is [JSON.parse] for the values [jsval] can hold:
    - [PParsed v]: the text parses to [v];
    - [PError]: a syntax error;
    - [PBeyond]: the parser met a construct outside the model, and the
      answer is left open.  That is a number with a well-formed fraction
      or exponent (a malformed one, as in [1.] or [1e], is an error), an
      integer beyond [2^53] (JavaScript rounds it), [-0], a
      [\u] escape above [0xFF], or an object key that is an array index
      (JavaScript moves such keys to the front).
    A key given twice keeps its last value, at the place of its first
    occurrence, as [JSON.parse] does.  Strings are sequences of code units
    below 256; the UTF-8 encoding of the HTTP body is not modelled.

    The parser is three mutually recursive functions over fuel.
    [json_fuel] gives two units per character, which is always enough
    ([json_parse_fuel]): an array nested in an array costs a unit in
    [parse_value] and one in [parse_elems] before its first character.

    [stringify] is [JSON.stringify]: [undefined] members of objects are
    left out, and [undefined] elements of arrays print as [null].
    [json_parse_stringify] is the round trip for [json_wire] values,
    those [JSON.parse] can produce ([json_parse_wire]). *)

From Stdlib Require Import String Ascii List ZArith Bool Lia Arith.
From Stdlib Require Import DecimalString.
From S2P Require Import Prelude Text JsValue.
Import ListNotations.
Local Open Scope string_scope.

(** ** [JSON.stringify] *)

Definition bslash : string := chr 92.

Definition hex_digit (n : nat) : string :=
  if Nat.ltb n 10 then chr (48 + n) else chr (87 + n).

(** The escape of one code unit in a JSON string. *)
Definition escape_char (c : ascii) : string :=
  let n := nat_of_ascii c in
  if Nat.eqb n 34 then bslash ++ dq
  else if Nat.eqb n 92 then bslash ++ bslash
  else if Nat.eqb n 8 then bslash ++ "b"
  else if Nat.eqb n 9 then bslash ++ "t"
  else if Nat.eqb n 10 then bslash ++ "n"
  else if Nat.eqb n 12 then bslash ++ "f"
  else if Nat.eqb n 13 then bslash ++ "r"
  else if Nat.ltb n 32 then bslash ++ "u00" ++ hex_digit (n / 16) ++ hex_digit (n mod 16)
  else String c "".

Fixpoint escape (s : string) : string :=
  match s with
  | EmptyString => EmptyString
  | String c s' => escape_char c ++ escape s'
  end.

(** [JSON.stringify] of a string: quoted and escaped. *)
Definition quote (s : string) : string := dq ++ escape s ++ dq.

Definition is_undefined (v : jsval) : bool :=
  match v with JUndefined => true | _ => false end.

Fixpoint somes {A} (l : list (option A)) : list A :=
  match l with
  | [] => []
  | Some a :: l' => a :: somes l'
  | None :: l' => somes l'
  end.

(** [JSON.stringify] inside an array or object; [undefined] prints as
    [null], the place where an array element needs it. *)
Fixpoint stringify (v : jsval) : string :=
  match v with
  | JUndefined | JNull => "null"
  | JBool true => "true"
  | JBool false => "false"
  | JNum n => number_to_string n
  | JStr s => quote s
  | JArr xs => "[" ++ String.concat "," (map stringify xs) ++ "]"
  | JObj ps =>
      "{" ++ String.concat ","
               (somes (map (fun kv => if is_undefined (snd kv) then None
                                      else Some (quote (fst kv) ++ ":" ++ stringify (snd kv)))
                           ps)) ++ "}"
  end.

(** [JSON.stringify(v)]: no text at all for [undefined]. *)
Definition json_stringify (v : jsval) : option string :=
  if is_undefined v then None else Some (stringify v).

(** ** [JSON.parse] *)

(** A parse step: the value and the rest of the text, a syntax error, a
    construct outside the model, or the end of the fuel. *)
Inductive presult (A : Type) : Type :=
| POk (a : A) (rest : string)
| PFail
| POut
| PFuel.
Arguments POk {A} a rest.
Arguments PFail {A}.
Arguments POut {A}.
Arguments PFuel {A}.

Definition pmap {A B} (f : A -> B) (r : presult A) : presult B :=
  match r with POk a s => POk (f a) s | PFail => PFail | POut => POut | PFuel => PFuel end.

Definition is_code (n : nat) (c : ascii) : bool := Nat.eqb (nat_of_ascii c) n.

(** JSON white space: space, tab, line feed, carriage return. *)
Definition is_json_ws (c : ascii) : bool :=
  is_code 32 c || is_code 9 c || is_code 10 c || is_code 13 c.

Fixpoint skip_json_ws (s : string) : string :=
  match s with
  | String c r => if is_json_ws c then skip_json_ws r else s
  | EmptyString => EmptyString
  end.

Definition hex_val (c : ascii) : option nat :=
  let n := nat_of_ascii c in
  if Nat.leb 48 n && Nat.leb n 57 then Some (n - 48)
  else if Nat.leb 97 n && Nat.leb n 102 then Some (n - 87)
  else if Nat.leb 65 n && Nat.leb n 70 then Some (n - 55)
  else None.

(** The code unit a two-character escape [\x] stands for. *)
Definition short_escape (n : nat) : option nat :=
  if Nat.eqb n 34 then Some 34 else if Nat.eqb n 92 then Some 92
  else if Nat.eqb n 47 then Some 47 else if Nat.eqb n 98 then Some 8
  else if Nat.eqb n 102 then Some 12 else if Nat.eqb n 110 then Some 10
  else if Nat.eqb n 114 then Some 13 else if Nat.eqb n 116 then Some 9
  else None.

(** The rest of a string literal after its opening quote. *)
Fixpoint parse_str (s : string) : presult string :=
  match s with
  | EmptyString => PFail
  | String c r =>
      if is_code 34 c then POk "" r
      else if is_code 92 c then
        match r with
        | String e r' =>
            if is_code 117 e then
              match r' with
              | String h1 (String h2 (String h3 (String h4 r''))) =>
                  match hex_val h1, hex_val h2, hex_val h3, hex_val h4 with
                  | Some a, Some b, Some c', Some d =>
                      let code := ((a * 16 + b) * 16 + c') * 16 + d in
                      if Nat.ltb code 256 then pmap (String (ascii_of_nat code)) (parse_str r'')
                      else POut
                  | _, _, _, _ => PFail
                  end
              | _ => PFail
              end
            else match short_escape (nat_of_ascii e) with
                 | Some k => pmap (String (ascii_of_nat k)) (parse_str r')
                 | None => PFail
                 end
        | EmptyString => PFail
        end
      else if Nat.ltb (nat_of_ascii c) 32 then PFail
      else pmap (String c) (parse_str r)
  end.

Definition is_digit (c : ascii) : bool :=
  Nat.leb 48 (nat_of_ascii c) && Nat.leb (nat_of_ascii c) 57.

Fixpoint take_digits (s : string) : string * string :=
  match s with
  | String c r => if is_digit c then let (d, rest) := take_digits r in (String c d, rest) else ("", s)
  | EmptyString => ("", "")
  end.

(** The longest prefix of the form [-?[0-9]*]. *)
Definition take_number (s : string) : string * string :=
  match s with
  | String c r =>
      if is_code 45 c then let (d, rest) := take_digits r in (String c d, rest) else take_digits s
  | EmptyString => ("", "")
  end.

Definition starts_frac_or_exp (s : string) : bool :=
  match s with String c _ => is_code 46 c || is_code 101 c || is_code 69 c | _ => false end.

(** At least one digit; the text after them. *)
Definition digits1 (s : string) : option string :=
  let (d, r) := take_digits s in if String.eqb d "" then None else Some r.

(** An optional exponent [[eE][+-]?[0-9]+]. *)
Definition scan_exp (s : string) : option string :=
  match s with
  | String c r =>
      if is_code 101 c || is_code 69 c then
        match r with
        | String c' r' => if is_code 43 c' || is_code 45 c' then digits1 r' else digits1 r
        | EmptyString => None
        end
      else Some s
  | EmptyString => Some EmptyString
  end.

(** An optional fraction [.[0-9]+] and exponent after the integer part:
    [None] when they are malformed, as in [1.] or [1e]. *)
Definition scan_frac_exp (s : string) : option string :=
  match s with
  | String c r => if is_code 46 c then obind (digits1 r) scan_exp else scan_exp s
  | EmptyString => Some EmptyString
  end.

(** A JSON number.  An integer is valid exactly when it is printed the
    way [number_to_string] prints it, or is [-0].  A well-formed fraction
    or exponent is outside the model; a malformed one is an error. *)
Definition parse_number (s : string) : presult jsval :=
  let (span, rest) := take_number s in
  let beyond := if starts_frac_or_exp rest
                then match scan_frac_exp rest with Some _ => POut | None => PFail end
                else POut in
  match NilEmpty.int_of_string span with
  | Some i =>
      let z := Z.of_int i in
      if String.eqb (number_to_string z) span then
        if starts_frac_or_exp rest then beyond
        else if Z.leb (Z.abs z) (2 ^ 53) then POk (JNum z) rest else POut
      else if String.eqb span "-0" then beyond else PFail
  | None => PFail
  end.

(** Keys JavaScript orders before all others: canonical integers below
    [2^32 - 1]. *)
Definition is_index_key (k : string) : bool :=
  match NilEmpty.uint_of_string k with
  | Some d =>
      let z := Z.of_uint d in String.eqb (number_to_string z) k && Z.ltb z 4294967295
  | None => false
  end.

(** [obj[k] = v] on an object being built. *)
Fixpoint obj_put (k : string) (v : jsval) (ps : list (string * jsval)) : list (string * jsval) :=
  match ps with
  | [] => [(k, v)]
  | (k', x) :: rest => if String.eqb k' k then (k', v) :: rest else (k', x) :: obj_put k v rest
  end.

Fixpoint parse_value (n : nat) (s : string) {struct n} : presult jsval :=
  match n with
  | O => PFuel
  | S n' =>
      match skip_json_ws s with
      | EmptyString => PFail
      | String c r =>
          if is_code 123 c then
            match skip_json_ws r with
            | String c' r' => if is_code 125 c' then POk (JObj []) r' else parse_members n' r []
            | EmptyString => PFail
            end
          else if is_code 91 c then
            match skip_json_ws r with
            | String c' r' => if is_code 93 c' then POk (JArr []) r' else parse_elems n' r []
            | EmptyString => PFail
            end
          else if is_code 34 c then pmap JStr (parse_str r)
          else if is_code 45 c || is_digit c then parse_number (String c r)
          else match strip_prefix "true" (String c r) with
               | Some r' => POk (JBool true) r'
               | None =>
                   match strip_prefix "false" (String c r) with
                   | Some r' => POk (JBool false) r'
                   | None =>
                       match strip_prefix "null" (String c r) with
                       | Some r' => POk JNull r'
                       | None => PFail
                       end
                   end
               end
      end
  end
with parse_elems (n : nat) (s : string) (acc : list jsval) {struct n} : presult jsval :=
  match n with
  | O => PFuel
  | S n' =>
      match parse_value n' s with
      | POk v r =>
          match skip_json_ws r with
          | String c r' =>
              if is_code 44 c then parse_elems n' r' (acc ++ [v])
              else if is_code 93 c then POk (JArr (acc ++ [v])) r'
              else PFail
          | EmptyString => PFail
          end
      | PFail => PFail
      | POut => POut
      | PFuel => PFuel
      end
  end
with parse_members (n : nat) (s : string) (acc : list (string * jsval)) {struct n}
  : presult jsval :=
  match n with
  | O => PFuel
  | S n' =>
      match skip_json_ws s with
      | String c r =>
          if is_code 34 c then
            match parse_str r with
            | POk key r1 =>
                match skip_json_ws r1 with
                | String c1 r2 =>
                    if is_code 58 c1 then
                      match parse_value n' r2 with
                      | POk v r3 =>
                          if is_index_key key then POut
                          else
                            match skip_json_ws r3 with
                            | String c3 r4 =>
                                if is_code 44 c3 then parse_members n' r4 (obj_put key v acc)
                                else if is_code 125 c3 then POk (JObj (obj_put key v acc)) r4
                                else PFail
                            | EmptyString => PFail
                            end
                      | PFail => PFail
                      | POut => POut
                      | PFuel => PFuel
                      end
                    else PFail
                | EmptyString => PFail
                end
            | PFail => PFail
            | POut => POut
            | PFuel => PFuel
            end
          else PFail
      | EmptyString => PFail
      end
  end.

Inductive parsed : Type :=
| PParsed (v : jsval)
| PError
| PBeyond.

(** Two units per character: [parse_value] and [parse_elems] each take
    one for an array nested in an array before a character is read. *)
Definition json_fuel (text : string) : nat := S (2 * String.length text).

(** [JSON.parse(text)]: one value, then only white space. *)
Definition json_parse (text : string) : parsed :=
  match parse_value (json_fuel text) text with
  | POk v r => if String.eqb (skip_json_ws r) "" then PParsed v else PError
  | PFail => PError
  | POut | PFuel => PBeyond
  end.

(** ** The values [JSON.parse] produces *)

Fixpoint nodup_keys (ps : list (string * jsval)) : bool :=
  match ps with
  | [] => true
  | (k, _) :: r => negb (existsb (fun kv => String.eqb (fst kv) k) r) && nodup_keys r
  end.

(** No [undefined], integers [JSON.parse] keeps exactly, and objects
    whose keys appear once and are not array indices. *)
Fixpoint json_wire (v : jsval) : bool :=
  match v with
  | JUndefined => false
  | JNull | JBool _ | JStr _ => true
  | JNum n => Z.leb (Z.abs n) (2 ^ 53)
  | JArr xs => forallb json_wire xs
  | JObj ps =>
      nodup_keys ps && forallb (fun kv => negb (is_index_key (fst kv)) && json_wire (snd kv)) ps
  end.

(** Case analysis on the tests and matches of a parse step. *)
Ltac parse_cases H :=
  repeat match type of H with
  | context [match ?x with _ => _ end] => destruct x eqn:?
  | context [if ?b then _ else _] => destruct b eqn:?
  end; try discriminate.

Lemma existsb_obj_put k k' v ps :
  existsb (fun kv => String.eqb (fst kv) k') (obj_put k v ps) =
  String.eqb k k' || existsb (fun kv => String.eqb (fst kv) k') ps.
Proof.
  induction ps as [|[k0 x] ps IH]; simpl; [now rewrite orb_false_r|].
  destruct (String.eqb_spec k0 k) as [->|Hne]; simpl.
  - now destruct (String.eqb k k').
  - rewrite IH. now destruct (String.eqb k0 k'), (String.eqb k k').
Qed.

Lemma nodup_keys_obj_put k v ps : nodup_keys ps = true -> nodup_keys (obj_put k v ps) = true.
Proof.
  induction ps as [|[k0 x] ps IH]; simpl; [reflexivity|].
  rewrite andb_true_iff. intros [Hn Hps].
  destruct (String.eqb_spec k0 k) as [->|Hne]; simpl; [now rewrite Hn, Hps|].
  rewrite IH by exact Hps. rewrite existsb_obj_put.
  apply String.eqb_neq in Hne. rewrite String.eqb_sym in Hne. rewrite Hne. simpl. now rewrite Hn.
Qed.

Lemma forallb_obj_put (f : string * jsval -> bool) k v ps :
  f (k, v) = true -> forallb f ps = true -> forallb f (obj_put k v ps) = true.
Proof.
  intros Hf. induction ps as [|[k0 x] ps IH]; simpl; [now rewrite Hf|].
  rewrite andb_true_iff. intros [H0 Hps].
  destruct (String.eqb_spec k0 k) as [->|_]; simpl.
  - now rewrite Hf, Hps.
  - now rewrite H0, IH.
Qed.

Lemma obj_put_wire k v ps :
  is_index_key k = false -> json_wire v = true -> json_wire (JObj ps) = true ->
  json_wire (JObj (obj_put k v ps)) = true.
Proof.
  simpl. intros Hk Hv. rewrite !andb_true_iff. intros [Hn Hall]. split.
  - now apply nodup_keys_obj_put.
  - apply forallb_obj_put; [simpl; now rewrite Hk, Hv | exact Hall].
Qed.

Lemma parse_number_wire s v r : parse_number s = POk v r -> json_wire v = true.
Proof.
  unfold parse_number. destruct (take_number s) as [span rest].
  intros H. parse_cases H. injection H as <- _. simpl. assumption.
Qed.

(** Every value [JSON.parse] produces, at every depth, is a [json_wire]
    value. *)
Lemma parse_wire n :
  (forall s v r, parse_value n s = POk v r -> json_wire v = true) /\
  (forall s acc v r, forallb json_wire acc = true ->
     parse_elems n s acc = POk v r -> json_wire v = true) /\
  (forall s acc v r, json_wire (JObj acc) = true ->
     parse_members n s acc = POk v r -> json_wire v = true).
Proof.
  induction n as [|n (IHv & IHe & IHm)]; [repeat split; intros; discriminate|].
  repeat split.
  - intros s v r H. simpl in H. unfold pmap in H. parse_cases H;
      first [ injection H as <- _; reflexivity
            | eapply IHe; [|exact H]; reflexivity
            | eapply IHm; [|exact H]; reflexivity
            | exact (parse_number_wire _ _ _ H) ].
  - intros s acc v r Hacc H. simpl in H. parse_cases H.
    + eapply IHe; [|exact H]. rewrite forallb_app, Hacc. simpl. now rewrite (IHv _ _ _ Heqp).
    + injection H as <- _. simpl. rewrite forallb_app, Hacc. simpl. now rewrite (IHv _ _ _ Heqp).
  - intros s acc v r Hacc H. simpl in H. parse_cases H.
    + eapply IHm; [|exact H]. apply obj_put_wire; auto. eapply IHv; eassumption.
    + injection H as <- _. apply obj_put_wire; auto. eapply IHv; eassumption.
Qed.

(** ** Reading printed text back *)

(** What may follow a value inside printed JSON: the end, [,], [\]] or
    [}]. *)
Definition json_stop (r : string) : bool :=
  match r with
  | EmptyString => true
  | String c _ => is_code 44 c || is_code 93 c || is_code 125 c
  end.

(** Nothing that continues a number. *)
Definition num_stop (r : string) : bool :=
  match r with
  | EmptyString => true
  | String c _ => negb (is_digit c || is_code 45 c || is_code 46 c || is_code 101 c || is_code 69 c)
  end.

Lemma is_code_nat n c : is_code n c = true -> nat_of_ascii c = n.
Proof. apply Nat.eqb_eq. Qed.

Lemma json_stop_num r : json_stop r = true -> num_stop r = true.
Proof.
  destruct r as [|c r]; [reflexivity|]. simpl.
  intros H. repeat rewrite orb_true_iff in H.
  unfold is_digit, is_code.
  destruct H as [[H|H]|H]; apply is_code_nat in H; now rewrite H.
Qed.

Lemma skip_json_ws_stop r : json_stop r = true -> skip_json_ws r = r.
Proof.
  destruct r as [|c r]; [reflexivity|]. simpl.
  intros H. repeat rewrite orb_true_iff in H. unfold is_json_ws, is_code.
  destruct H as [[H|H]|H]; apply is_code_nat in H; now rewrite H.
Qed.

Lemma skip_json_ws_char c r : is_json_ws c = false -> skip_json_ws (String c r) = String c r.
Proof. simpl. now intros ->. Qed.

(** One escaped code unit reads back as itself. *)
Lemma parse_str_escape_char c x :
  parse_str (escape_char c ++ x) = pmap (String c) (parse_str x).
Proof. destruct c as [[] [] [] [] [] [] [] []]; reflexivity. Qed.

Lemma parse_str_escape s r : parse_str (escape s ++ String (ascii_of_nat 34) r) = POk s r.
Proof.
  induction s as [|c s IH]; [reflexivity|].
  simpl escape. rewrite string_app_assoc, parse_str_escape_char, IH. reflexivity.
Qed.

Lemma take_digits_uint d r :
  num_stop r = true -> take_digits (NilEmpty.string_of_uint d ++ r) = (NilEmpty.string_of_uint d, r).
Proof.
  intros Hr. induction d; simpl; try (rewrite IHd; reflexivity).
  destruct r as [|c r]; [reflexivity|]. simpl in Hr |- *.
  now destruct (is_digit c); [discriminate|].
Qed.

Lemma take_number_print n r :
  num_stop r = true -> take_number (number_to_string n ++ r) = (number_to_string n, r).
Proof.
  intros Hr. unfold number_to_string, NilEmpty.string_of_int.
  destruct (Z.to_int n) as [d|d]; simpl.
  - destruct d; simpl; try (rewrite take_digits_uint by exact Hr; reflexivity).
    destruct r as [|c r]; [reflexivity|]. simpl in Hr |- *.
    destruct (is_code 45 c), (is_digit c); simpl in Hr; try discriminate. reflexivity.
  - now rewrite take_digits_uint.
Qed.

(** A printed integer within [2^53] reads back as itself. *)
Lemma parse_number_print n r :
  (Z.abs n <= 2 ^ 53)%Z -> num_stop r = true ->
  parse_number (number_to_string n ++ r) = POk (JNum n) r.
Proof.
  intros Hn Hr. unfold parse_number. rewrite take_number_print by exact Hr.
  pose proof (number_to_string_roundtrip n) as Hrt.
  destruct (NilEmpty.int_of_string (number_to_string n)) as [i|]; [|discriminate].
  injection Hrt as ->. rewrite String.eqb_refl.
  assert (Hf : starts_frac_or_exp r = false).
  { destruct r as [|c r]; [reflexivity|]. simpl in Hr |- *.
    now destruct (is_digit c), (is_code 45 c), (is_code 46 c), (is_code 101 c), (is_code 69 c). }
  rewrite Hf. apply Z.leb_le in Hn. now rewrite Hn.
Qed.

(** Induction over JSON values, with the elements of arrays and the
    values of objects. *)
Section JsvalIndFull.
Variable P : jsval -> Prop.
Hypothesis HUndef : P JUndefined.
Hypothesis HNull : P JNull.
Hypothesis HBool : forall b, P (JBool b).
Hypothesis HNum : forall n, P (JNum n).
Hypothesis HStr : forall s, P (JStr s).
Hypothesis HArr : forall xs, Forall P xs -> P (JArr xs).
Hypothesis HObj : forall ps, Forall (fun kv => P (snd kv)) ps -> P (JObj ps).

Fixpoint jsval_ind_full (v : jsval) : P v :=
  match v with
  | JUndefined => HUndef
  | JNull => HNull
  | JBool b => HBool b
  | JNum n => HNum n
  | JStr s => HStr s
  | JArr xs =>
      HArr xs ((fix go (l : list jsval) : Forall P l :=
                  match l with
                  | [] => Forall_nil P
                  | x :: l' => Forall_cons x (jsval_ind_full x) (go l')
                  end) xs)
  | JObj ps =>
      HObj ps ((fix go (l : list (string * jsval)) : Forall (fun kv => P (snd kv)) l :=
                  match l with
                  | [] => Forall_nil _
                  | (k, x) :: l' => Forall_cons (k, x) (jsval_ind_full x) (go l')
                  end) ps)
  end.
End JsvalIndFull.

(** The fuel [parse_value] needs for the text of [v]: one unit per value
    and one per element or member. *)
Fixpoint parse_fuel (v : jsval) : nat :=
  match v with
  | JArr xs => S (list_sum (map (fun x => S (parse_fuel x)) xs))
  | JObj ps => S (list_sum (map (fun kv => S (parse_fuel (snd kv))) ps))
  | _ => 1
  end.

(** The first character of a printed value: not white space, and not
    the end of an array or object. *)
Definition head_ok (s : string) : bool :=
  match s with
  | String c _ => negb (is_json_ws c || is_code 93 c || is_code 125 c)
  | EmptyString => false
  end.

Lemma head_ok_inv c t :
  head_ok (String c t) = true ->
  is_json_ws c = false /\ is_code 93 c = false /\ is_code 125 c = false.
Proof. simpl. rewrite negb_true_iff, !orb_false_iff. tauto. Qed.

Lemma head_ok_app s r : head_ok s = true -> head_ok (s ++ r) = true.
Proof. now destruct s. Qed.

Lemma skip_json_ws_head s : head_ok s = true -> skip_json_ws s = s.
Proof.
  destruct s as [|c t]; [discriminate|]. intros H.
  apply skip_json_ws_char, (head_ok_inv c t H).
Qed.

Lemma number_head n :
  exists c t, number_to_string n = String c t /\ (is_code 45 c || is_digit c) = true.
Proof.
  unfold number_to_string, NilEmpty.string_of_int.
  destruct (Z.to_int n) as [d|d] eqn:E; [|now exists "-"%char, (NilEmpty.string_of_uint d)].
  destruct d; try (eexists _, _; split; reflexivity).
  pose proof (DecimalZ.of_to n) as Hn. rewrite E in Hn. simpl in Hn. subst n. discriminate E.
Qed.

(** The tests [parse_value] makes on the first character of a number. *)
Lemma number_branch c :
  (is_code 45 c || is_digit c) = true ->
  is_json_ws c = false /\ is_code 93 c = false /\ is_code 125 c = false /\
  is_code 123 c = false /\ is_code 91 c = false /\ is_code 34 c = false.
Proof.
  unfold is_json_ws, is_digit, is_code. rewrite orb_true_iff, andb_true_iff, !Nat.leb_le.
  intros H. assert (Hc : nat_of_ascii c = 45 \/ 48 <= nat_of_ascii c <= 57)
    by (destruct H as [H|H]; [left; now apply Nat.eqb_eq | right; exact H]).
  rewrite !orb_false_iff. repeat split; apply Nat.eqb_neq; lia.
Qed.

Lemma stringify_head v : head_ok (stringify v) = true.
Proof.
  destruct v as [| |[]|n|s|xs|ps]; try reflexivity.
  destruct (number_head n) as (c & t & Hs & Hc). simpl. rewrite Hs.
  destruct (number_branch c Hc) as (H1 & H2 & H3 & _). simpl. now rewrite H1, H2, H3.
Qed.

(** *** One step of the parser on printed text *)

Lemma parse_value_arr n s :
  head_ok s = true -> parse_value (S n) ("[" ++ s) = parse_elems n s [].
Proof.
  intros H. simpl. rewrite (skip_json_ws_head s H).
  destruct s as [|c t]; [discriminate|]. now rewrite (proj1 (proj2 (head_ok_inv c t H))).
Qed.

Lemma parse_value_obj n s :
  head_ok s = true -> parse_value (S n) ("{" ++ s) = parse_members n s [].
Proof.
  intros H. simpl. rewrite (skip_json_ws_head s H).
  destruct s as [|c t]; [discriminate|]. now rewrite (proj2 (proj2 (head_ok_inv c t H))).
Qed.

Lemma parse_elems_comma n s v r acc :
  parse_value n s = POk v ("," ++ r) -> parse_elems (S n) s acc = parse_elems n r (acc ++ [v]).
Proof. intros H. simpl. now rewrite H. Qed.

Lemma parse_elems_close n s v r acc :
  parse_value n s = POk v ("]" ++ r) -> parse_elems (S n) s acc = POk (JArr (acc ++ [v])) r.
Proof. intros H. simpl. now rewrite H. Qed.

(** The text of one member, [JSON.stringify]'s ["key":value]. *)
Definition member (kv : string * jsval) : string := quote (fst kv) ++ ":" ++ stringify (snd kv).

Lemma parse_members_comma n k v t r acc :
  is_index_key k = false -> parse_value n (stringify v ++ t) = POk v ("," ++ r) ->
  parse_members (S n) (member (k, v) ++ t) acc = parse_members n r (obj_put k v acc).
Proof.
  intros Hk H. unfold member, quote. simpl fst; simpl snd. rewrite !string_app_assoc. simpl.
  rewrite parse_str_escape. simpl. now rewrite H, Hk.
Qed.

Lemma parse_members_close n k v t r acc :
  is_index_key k = false -> parse_value n (stringify v ++ t) = POk v ("}" ++ r) ->
  parse_members (S n) (member (k, v) ++ t) acc = POk (JObj (obj_put k v acc)) r.
Proof.
  intros Hk H. unfold member, quote. simpl fst; simpl snd. rewrite !string_app_assoc. simpl.
  rewrite parse_str_escape. simpl. now rewrite H, Hk.
Qed.

Lemma concat_cons2 (a b : string) l :
  String.concat "," (a :: b :: l) = a ++ "," ++ String.concat "," (b :: l).
Proof. reflexivity. Qed.

Lemma head_ok_concat a l : head_ok a = true -> head_ok (String.concat "," (a :: l)) = true.
Proof. destruct l; [tauto|]. rewrite concat_cons2. apply head_ok_app. Qed.

(** The property the round trip proves of each value. *)
Definition prints_back (v : jsval) : Prop :=
  forall n r, parse_fuel v <= n -> json_stop r = true -> parse_value n (stringify v ++ r) = POk v r.

Lemma parse_elems_print xs :
  Forall prints_back xs -> xs <> [] ->
  forall n acc r, list_sum (map (fun x => S (parse_fuel x)) xs) <= n -> json_stop r = true ->
  parse_elems n (String.concat "," (map stringify xs) ++ "]" ++ r) acc = POk (JArr (acc ++ xs)) r.
Proof.
  induction 1 as [|x xs Hx Hxs IH]; intros Hne n acc r Hn Hr; [congruence|].
  simpl in Hn. destruct n as [|n]; [lia|].
  destruct xs as [|y ys].
  - apply parse_elems_close. apply Hx; [lia | reflexivity].
  - simpl map. rewrite concat_cons2, !string_app_assoc.
    erewrite parse_elems_comma by (apply Hx; [lia | reflexivity]).
    rewrite IH by first [congruence | exact Hr | simpl in *; lia]. now rewrite <- app_assoc.
Qed.

Lemma obj_put_new k v acc : ~ In k (map fst acc) -> obj_put k v acc = (acc ++ [(k, v)])%list.
Proof.
  induction acc as [|[k' x] acc IH]; simpl; intros Hk; [reflexivity|].
  destruct (String.eqb_spec k' k); [tauto|]. rewrite IH by tauto. reflexivity.
Qed.

Lemma parse_members_print ps :
  Forall (fun kv => prints_back (snd kv)) ps -> ps <> [] ->
  forallb (fun kv => negb (is_index_key (fst kv))) ps = true -> NoDup (map fst ps) ->
  forall n acc r, list_sum (map (fun kv => S (parse_fuel (snd kv))) ps) <= n ->
  json_stop r = true -> (forall k, In k (map fst ps) -> ~ In k (map fst acc)) ->
  parse_members n (String.concat "," (map member ps) ++ "}" ++ r) acc =
  POk (JObj (acc ++ ps)) r.
Proof.
  induction 1 as [|[k v] ps Hv Hps IH]; intros Hne Hidx Hnd n acc r Hn Hr Hdis; [congruence|].
  cbn [snd] in Hv. simpl in Hn, Hidx. apply andb_true_iff in Hidx as [Hk Hidx].
  apply negb_true_iff in Hk. inversion Hnd as [|? ? Hnin Hnd']; subst.
  destruct n as [|n]; [lia|].
  assert (Hput : obj_put k v acc = (acc ++ [(k, v)])%list) by (apply obj_put_new, Hdis; now left).
  destruct ps as [|kv' ps'].
  - simpl map. simpl String.concat.
    rewrite (parse_members_close n k v ("}" ++ r) r acc Hk) by (apply Hv; [lia | reflexivity]).
    now rewrite Hput.
  - simpl map. rewrite concat_cons2, !string_app_assoc.
    erewrite parse_members_comma by first [exact Hk | apply Hv; [lia | reflexivity]].
    rewrite Hput, IH; [now rewrite <- app_assoc | congruence | exact Hidx | exact Hnd'
                       | simpl in *; lia | exact Hr |].
    intros k0 Hin. rewrite map_app, in_app_iff. simpl. intros [H|[H|[]]].
    + exact (Hdis k0 (or_intror Hin) H).
    + subst k0. contradiction.
Qed.

Lemma existsb_key k (ps : list (string * jsval)) : existsb (fun kv => String.eqb (fst kv) k) ps = true <-> In k (map fst ps).
Proof.
  rewrite existsb_exists, in_map_iff. split.
  - intros (kv & Hin & Hk). apply String.eqb_eq in Hk. now exists kv.
  - intros (kv & Hk & Hin). exists kv. split; [exact Hin|]. now apply String.eqb_eq.
Qed.

Lemma nodup_keys_NoDup ps : nodup_keys ps = true -> NoDup (map fst ps).
Proof.
  induction ps as [|[k x] ps IH]; simpl; [constructor|].
  rewrite andb_true_iff, negb_true_iff. intros [Hk Hps]. constructor; [|now apply IH].
  rewrite <- existsb_key, Hk. discriminate.
Qed.

Lemma wire_defined x : json_wire x = true -> is_undefined x = false.
Proof. now destruct x. Qed.

(** A [json_wire] object has no [undefined] member: every member is
    printed. *)
Lemma stringify_members ps :
  forallb (fun kv => negb (is_index_key (fst kv)) && json_wire (snd kv)) ps = true ->
  somes (map (fun kv => if is_undefined (snd kv) then None
                        else Some (quote (fst kv) ++ ":" ++ stringify (snd kv))) ps) =
  map member ps.
Proof.
  induction ps as [|[k x] ps IH]; [reflexivity|].
  cbn [forallb fst snd]. rewrite andb_true_iff. intros [[_ Hx]%andb_true_iff Hps].
  cbn [map snd fst]. rewrite (wire_defined x Hx). cbn [somes]. now rewrite IH.
Qed.

Lemma forallb_index_keys ps :
  forallb (fun kv => negb (is_index_key (fst kv)) && json_wire (snd kv)) ps = true ->
  forallb (fun kv => negb (is_index_key (fst kv))) ps = true.
Proof.
  induction ps as [|kv ps IH]; simpl; [reflexivity|].
  rewrite !andb_true_iff. tauto.
Qed.

(** Every [json_wire] value's text reads back as the value, followed by
    whatever follows it, given the fuel [parse_fuel]. *)
Lemma parse_value_print v : json_wire v = true -> prints_back v.
Proof.
  induction v as [| |b|z|s|xs IH|ps IH] using jsval_ind_full;
    intros Hw n r Hn Hr; destruct n as [|n]; cbn [parse_fuel] in Hn; try lia.
  - discriminate.
  - reflexivity.
  - now destruct b.
  - destruct (number_head z) as (c & t & Hs & Hc).
    destruct (number_branch c Hc) as (H1 & _ & _ & H4 & H5 & H6).
    cbn [stringify]. rewrite Hs. simpl. rewrite H1, H4, H5, H6, Hc.
    change (String c (t ++ r)) with (String c t ++ r). rewrite <- Hs.
    apply parse_number_print; [now apply Z.leb_le | now apply json_stop_num].
  - cbn [stringify]. unfold quote. rewrite !string_app_assoc. simpl.
    now rewrite parse_str_escape.
  - destruct xs as [|x xs']; [reflexivity|].
    change (forallb json_wire (x :: xs') = true) in Hw. cbn [stringify]. rewrite !string_app_assoc.
    rewrite parse_value_arr by (apply head_ok_app, head_ok_concat, stringify_head).
    apply (parse_elems_print _ ltac:(rewrite Forall_forall in IH |- *;
             intros y Hy; apply IH; [exact Hy | rewrite forallb_forall in Hw; auto]));
      [congruence | lia | exact Hr].
  - destruct ps as [|[k x] ps']; [reflexivity|].
    apply andb_true_iff in Hw as [Hnd Hall].
    cbn [stringify]. rewrite stringify_members by exact Hall. rewrite !string_app_assoc.
    rewrite parse_value_obj by (apply head_ok_app, head_ok_concat; reflexivity).
    apply parse_members_print;
      [| congruence | now apply forallb_index_keys | now apply nodup_keys_NoDup | lia | exact Hr
       | intros ? _ []].
    rewrite Forall_forall in IH |- *. intros kv Hkv. apply IH; [exact Hkv|].
    rewrite forallb_forall in Hall. apply Hall in Hkv. now apply andb_true_iff in Hkv.
Qed.

(** *** The fuel [json_parse] gives is enough *)

Lemma string_length_app (a b : string) : String.length (a ++ b) = String.length a + String.length b.
Proof. induction a as [|c a IH]; simpl; [reflexivity | now rewrite IH]. Qed.

Lemma concat_length l :
  length l + list_sum (map String.length l) <= String.length (String.concat "," l) + 1.
Proof.
  induction l as [|a l IH]; [simpl; lia|]. destruct l as [|b l]; [simpl; lia|].
  rewrite concat_cons2, !string_length_app. cbn [length map list_sum fold_right] in *.
  simpl (String.length ","). lia.
Qed.

Lemma sum_fuel_le {A} (f g : A -> nat) l :
  Forall (fun x => f x <= g x) l ->
  list_sum (map (fun x => S (f x)) l) <= length l + list_sum (map g l).
Proof. induction 1; simpl; lia. Qed.

Lemma parse_fuel_le v : json_wire v = true -> parse_fuel v <= String.length (stringify v).
Proof.
  induction v as [| |b|z|s|xs IH|ps IH] using jsval_ind_full; intros Hw;
    cbn [parse_fuel stringify].
  - discriminate.
  - simpl; lia.
  - destruct b; simpl; lia.
  - destruct (number_head z) as (c & t & -> & _). simpl. lia.
  - unfold quote. rewrite !string_length_app. simpl. lia.
  - rewrite !string_length_app. pose proof (concat_length (map stringify xs)) as Hc.
    rewrite map_map, length_map in Hc.
    assert (Hs : list_sum (map (fun x => S (parse_fuel x)) xs) <=
                 length xs + list_sum (map (fun x => String.length (stringify x)) xs)).
    { apply sum_fuel_le. rewrite Forall_forall in IH |- *. intros x Hx.
      apply IH; [exact Hx|]. change (forallb json_wire xs = true) in Hw.
      rewrite forallb_forall in Hw. auto. }
    simpl (String.length "["). simpl (String.length "]"). lia.
  - apply andb_true_iff in Hw as [_ Hall]. rewrite stringify_members by exact Hall.
    rewrite !string_length_app. pose proof (concat_length (map member ps)) as Hc.
    rewrite map_map, length_map in Hc.
    assert (Hs : list_sum (map (fun kv => S (parse_fuel (snd kv))) ps) <=
                 length ps + list_sum (map (fun kv => String.length (member kv)) ps)).
    { apply sum_fuel_le. rewrite Forall_forall in IH |- *. intros [k x] Hx.
      rewrite forallb_forall in Hall. specialize (Hall _ Hx). apply andb_true_iff in Hall.
      unfold member, quote. cbn [fst snd] in *. rewrite !string_length_app.
      specialize (IH _ Hx (proj2 Hall)). simpl in IH |- *. lia. }
    simpl (String.length "{"). simpl (String.length "}"). lia.
Qed.

(** ** The round trip *)

Lemma stringify_parse v : json_wire v = true -> json_parse (stringify v) = PParsed v.
Proof.
  intros Hw. unfold json_parse. pose proof (parse_fuel_le v Hw) as Hf.
  pose proof (parse_value_print v Hw (json_fuel (stringify v)) "" ltac:(unfold json_fuel; lia)
                eq_refl) as H.
  rewrite string_app_nil_r in H. now rewrite H.
Qed.

(** [JSON.stringify] then [JSON.parse] gives back every value
    [JSON.parse] can produce: an integer within [2^53], a string of any
    code units, escapes included, and arrays and objects of such values
    at any depth, objects with distinct keys that are not array
    indices. *)
Theorem json_parse_stringify v :
  json_wire v = true -> option_map json_parse (json_stringify v) = Some (PParsed v).
Proof.
  intros Hw. unfold json_stringify. rewrite (wire_defined v Hw). simpl.
  now rewrite stringify_parse.
Qed.

(** Whatever [JSON.parse] produces is a [json_wire] value: no
    [undefined], integers within [2^53], and at every depth objects
    whose keys appear once, a key sent twice keeping one place. *)
Theorem json_parse_wire s v : json_parse s = PParsed v -> json_wire v = true.
Proof.
  unfold json_parse. destruct (parse_value _ s) as [v' r| | |] eqn:E; try discriminate.
  destruct (String.eqb (skip_json_ws r) ""); [|discriminate]. intros [= <-].
  exact (proj1 (parse_wire _) _ _ _ E).
Qed.

(** ** The fuel never runs out *)

Lemma skip_json_ws_length s : String.length (skip_json_ws s) <= String.length s.
Proof.
  induction s as [|c s IH]; simpl; [lia|]. destruct (is_json_ws c); simpl; lia.
Qed.

Lemma strip_prefix_length p s r :
  strip_prefix p s = Some r -> String.length r + String.length p = String.length s.
Proof.
  revert s. induction p as [|x p IH]; intros [|y s]; simpl; try discriminate.
  - intros H. inversion H. reflexivity.
  - intros H. inversion H. simpl. lia.
  - destruct (Ascii.eqb x y); [|discriminate]. intros H. apply IH in H. lia.
Qed.

Lemma parse_str_length s k r : parse_str s = POk k r -> String.length r < String.length s.
Proof.
  revert k r. induction s as [s IH] using
    (well_founded_induction (Wf_nat.well_founded_ltof _ String.length)).
  intros k r H. destruct s as [|c t]; [discriminate|]. simpl in H. unfold pmap in H.
  parse_cases H; injection H as _ <-; try (simpl; lia);
    match goal with
    | Hp : parse_str ?x = POk _ ?r |- _ =>
        pose proof (IH x ltac:(unfold Wf_nat.ltof; subst; simpl; lia) _ _ Hp)
    end; subst; simpl in *; lia.
Qed.

Lemma parse_str_fuel s : parse_str s <> PFuel.
Proof.
  induction s as [s IH] using (well_founded_induction (Wf_nat.well_founded_ltof _ String.length)).
  intros H. destruct s as [|c t]; [discriminate|]. simpl in H. unfold pmap in H.
  parse_cases H;
    match type of Heqp with
    | parse_str ?x = PFuel => apply (IH x); [unfold Wf_nat.ltof; simpl; lia | exact Heqp]
    end.
Qed.

Lemma take_digits_app s : fst (take_digits s) ++ snd (take_digits s) = s.
Proof.
  induction s as [|c s IH]; simpl; [reflexivity|].
  destruct (is_digit c); [|reflexivity]. destruct (take_digits s) as [d rest]. simpl in *.
  now rewrite IH.
Qed.

Lemma take_number_app s : fst (take_number s) ++ snd (take_number s) = s.
Proof.
  destruct s as [|c s]; [reflexivity|]. unfold take_number.
  destruct (is_code 45 c); [|apply take_digits_app].
  pose proof (take_digits_app s) as H. destruct (take_digits s) as [d rest]. simpl in *.
  now rewrite H.
Qed.

Lemma parse_number_length s v r : parse_number s = POk v r -> String.length r < String.length s.
Proof.
  unfold parse_number. pose proof (take_number_app s) as Hs.
  destruct (take_number s) as [span rest]. simpl in Hs. intros H. parse_cases H.
  injection H as _ <-. apply String.eqb_eq in Heqb.
  match type of Heqb with
  | number_to_string ?z = _ =>
      destruct (number_head z) as (c & t & Ht & _); rewrite Ht in Heqb; subst
  end.
  simpl. rewrite string_length_app. lia.
Qed.

Lemma parse_number_fuel s : parse_number s <> PFuel.
Proof.
  unfold parse_number. destruct (take_number s) as [span rest]. intros H. parse_cases H.
Qed.

(** Length facts of the steps a parse made. *)
Ltac len_facts :=
  repeat match goal with
  | H : skip_json_ws ?x = ?y |- _ =>
      let L := fresh "L" in pose proof (skip_json_ws_length x) as L; rewrite H in L; clear H
  | H : parse_str _ = POk _ _ |- _ => apply parse_str_length in H
  | H : parse_number _ = POk _ _ |- _ => apply parse_number_length in H
  | H : strip_prefix _ _ = Some _ |- _ => apply strip_prefix_length in H
  end.

(** Every successful step consumes text. *)
Lemma parse_consumes n :
  (forall s v r, parse_value n s = POk v r -> String.length r < String.length s) /\
  (forall s acc v r, parse_elems n s acc = POk v r -> String.length r < String.length s) /\
  (forall s acc v r, parse_members n s acc = POk v r -> String.length r < String.length s).
Proof.
  induction n as [|n (IHv & IHe & IHm)]; [repeat split; intros; discriminate|].
  repeat split; intros * H; cbn [parse_value parse_elems parse_members] in H; unfold pmap in H;
    parse_cases H;
    try (injection H as _ <-);
    repeat match goal with
    | H' : parse_value n _ = POk _ _ |- _ => apply IHv in H'
    | H' : parse_elems n _ _ = POk _ _ |- _ => apply IHe in H'
    | H' : parse_members n _ _ = POk _ _ |- _ => apply IHm in H'
    end; len_facts; simpl in *; lia.
Qed.

(** With two units of fuel per character, no call runs out of fuel. *)
Lemma parse_fuel_enough n :
  (forall s, 2 * String.length s + 1 <= n -> parse_value n s <> PFuel) /\
  (forall s acc, 2 * String.length s + 2 <= n -> parse_elems n s acc <> PFuel) /\
  (forall s acc, 2 * String.length s + 2 <= n -> parse_members n s acc <> PFuel).
Proof.
  induction n as [|n (IHv & IHe & IHm)]; [repeat split; intros; lia|].
  destruct (parse_consumes n) as (Cv & Ce & Cm).
  repeat split; intros * Hn H; cbn [parse_value parse_elems parse_members] in H; unfold pmap in H;
    parse_cases H;
    match goal with
    | Hp : parse_str _ = PFuel |- _ => exact (parse_str_fuel _ Hp)
    | Hp : parse_number _ = PFuel |- _ => exact (parse_number_fuel _ Hp)
    | Hp : parse_value n ?x = PFuel |- _ => apply (IHv x); [|exact Hp]
    | Hp : parse_elems n ?x ?a = PFuel |- _ => apply (IHe x a); [|exact Hp]
    | Hp : parse_members n ?x ?a = PFuel |- _ => apply (IHm x a); [|exact Hp]
    end;
    repeat match goal with
    | H' : parse_value n _ = POk _ _ |- _ => apply Cv in H'
    end; len_facts; simpl in *; lia.
Qed.

(** The parser always answers from the text: on every text, the
    fuel [json_parse] gives is enough, so the bounded recursion never
    stops early.  [PBeyond] therefore only ever reports a construct
    outside the model, never a text too deeply nested for the fuel. *)
Theorem json_parse_fuel text : parse_value (json_fuel text) text <> PFuel.
Proof. apply (proj1 (parse_fuel_enough _)). unfold json_fuel. lia. Qed.
