(* ===== verification/Validate.v ===== *)
(** * The request validator of [src/index.js]

    The guards of the two endpoints, as the code writes them:
    - [/api/contact] (line 42): [if (!firstName || !email || !number ||
      !message)] answers 400.  "Missing" means falsy ([ToBoolean]).
    - [/api/submit-paper] (line 100): [if (!file)] answers 400.  [req.file]
      is the multer file object of the single field [file], or [undefined].
      No text field is checked.
    Also the multer file object and the [process.env] values the
    composers read. *)

From Stdlib Require Import String List ZArith Bool.
From S2P Require Import Prelude JsValue.
Import ListNotations.
Open Scope icset_scope.
Local Open Scope string_scope.

(** The file object multer stores in [req.file] with [memoryStorage()]
    (lines 11-14): the whole upload is a buffer in memory. *)
Record upload : Type := {
  fieldname : string;
  originalname : string;
  mimetype : string;
  buffer : list Byte.byte
}.

(** [process.env]: each variable is a string or [undefined]. *)
Record env : Type := {
  EMAIL_USER : option string;
  EMAIL_PASS : option string;
  PORT : option string
}.

Definition env_value (o : option string) : jsval :=
  match o with Some s => JStr s | None => JUndefined end.

(** The guard of line 42: some field is falsy. *)
Definition contact_missing (firstName email number message : jsval) : bool :=
  negb (truthy firstName) || negb (truthy email) || negb (truthy number)
  || negb (truthy message).

(** The guard of line 100: [req.file] is [undefined]. *)
Definition paper_missing_file (file : option upload) : bool :=
  match file with None => true | Some _ => false end.

(** The validator's verdict with its reason, as the 400 bodies state it. *)
Definition contact_validation (firstName email number message : jsval)
  : option string :=
  if contact_missing firstName email number message
  then Some "All fields are required" else None.

Definition paper_validation (file : option upload) : option string :=
  if paper_missing_file file then Some "No file uploaded" else None.

(** ** The guard of line 42 *)

(** The contact guard fires exactly when one of the four fields is
    [undefined], [null], [false], [0] or the empty string. *)
Lemma contact_missing_iff a b c d :
  contact_missing a b c d = true <->
  Exists (fun v => v = JUndefined \/ v = JNull \/ v = JBool false \/ v = JNum 0 \/ v = JStr "")
         [a; b; c; d].
Proof.
  unfold contact_missing. rewrite !orb_true_iff, !negb_true_iff, !truthy_false_iff.
  rewrite !Exists_cons, Exists_nil. tauto.
Qed.
