(* ===== verification/Mail.v ===== *)
(** * The mail composer of [src/index.js]

    The four object literals passed to [transporter.sendMail]: the contact
    notification (lines 50-61), the contact confirmation (lines 64-74), the
    paper notification with its attachment (lines 108-126) and the paper
    confirmation (lines 129-140).  The HTML templates are copied character
    by character, with their newlines and indentation.  Every [${x}]
    substitution goes through [to_str], so a composer returns [None]
    exactly when a [ToString] would throw.  That happens while the object
    literal is evaluated, before [sendMail] is called.

    The file also has the inverse of the two notification templates (a
    parser), which recovers the fields from the HTML when they contain no
    ['<']. *)

From Stdlib Require Import String Ascii List ZArith Bool.
From S2P Require Import Prelude JsValue Validate.
Import ListNotations.
Open Scope icset_scope.
Local Open Scope string_scope.

(** ** Messages *)

Record attachment : Type := {
  filename : string;
  content : list Byte.byte;
  contentType : string
}.

(** The message options nodemailer receives.  [to] is passed unconverted
    ([to: email]); nodemailer interprets it. *)
Record mail : Type := {
  from : jsval;
  to : jsval;
  subject : string;
  html : string;
  attachments : list attachment
}.

(** The administrator address written into both handlers (lines 52, 110). *)
Definition admin_address : string := "vasanthkbit@gmail.com".

(** ** Templates *)

(** A line break followed by the eight spaces of the template lines, and
    the final line break with the six spaces before the closing backtick. *)
Definition nl8 : string := nl ++ "        ".
Definition nl6 : string := nl ++ "      ".

(** Lines 54-60. *)
Definition contact_admin_html (firstName email number message : string) : string :=
  nl8 ++ "<h3>New Contact Form Submission</h3>" ++
  nl8 ++ "<p><strong>Name:</strong> " ++ firstName ++ "</p>" ++
  nl8 ++ "<p><strong>Email:</strong> " ++ email ++ "</p>" ++
  nl8 ++ "<p><strong>number:</strong> " ++ number ++ "</p>" ++
  nl8 ++ "<p><strong>Message:</strong> " ++ message ++ "</p>" ++ nl6.

(** Lines 68-73. *)
Definition contact_confirm_html (firstName message : string) : string :=
  nl8 ++ "<h3>Thank you for reaching out!</h3>" ++
  nl8 ++ "<p>Hello " ++ firstName ++ ",</p>" ++
  nl8 ++ "<p>We have received your message: <strong>" ++ message ++
  "</strong>. We will get back to you soon!</p>" ++
  nl8 ++ "<p>Best regards,<br/>Your Team</p>" ++ nl6.

(** Lines 112-120, with the two HTML comments that follow the category and
    abstract lines. *)
Definition paper_admin_html
    (title fullName email institution category abstract : string) : string :=
  nl8 ++ "<h3>New Paper Submission</h3>" ++
  nl8 ++ "<p><strong>Title:</strong> " ++ title ++ "</p>" ++
  nl8 ++ "<p><strong>Name:</strong> " ++ fullName ++ "</p>" ++
  nl8 ++ "<p><strong>Email:</strong> " ++ email ++ "</p>" ++
  nl8 ++ "<p><strong>Institution:</strong> " ++ institution ++ "</p>" ++
  nl8 ++ "<p><strong>Author Category:</strong> " ++ category ++
  "</p> <!-- Updated field name -->" ++
  nl8 ++ "<p><strong>Abstract:</strong> " ++ abstract ++
  "</p> <!-- Updated field name -->" ++ nl6.

(** Lines 133-139; [dq] is the double quote around the title. *)
Definition paper_confirm_html (title fullName : string) : string :=
  nl8 ++ "<h3>Thank you for submitting your paper!</h3>" ++
  nl8 ++ "<p>Dear " ++ fullName ++ ",</p>" ++
  nl8 ++ "<p>We have successfully received your paper titled " ++ dq ++
  "<strong>" ++ title ++ "</strong>" ++ dq ++ ".</p>" ++
  nl8 ++ "<p>Your submission will now go through the peer review process, and we will notify you about the status soon.</p>" ++
  nl8 ++ "<p>Best regards,<br/>Conference Team</p>" ++ nl6.

(** ** The four [sendMail] arguments *)

Section Compose.
(** [process.env], read for [from: process.env.EMAIL_USER]. *)
Variable e : env.

(** Lines 50-61.  The subject is evaluated before the body. *)
Definition contact_admin_mail (firstName email number message : jsval)
  : option mail :=
  let? s := to_str firstName in
  let? a := to_str firstName in
  let? b := to_str email in
  let? c := to_str number in
  let? d := to_str message in
  Some {| from := env_value (EMAIL_USER e);
          to := JStr admin_address;
          subject := "Contact Form Submission from " ++ s;
          html := contact_admin_html a b c d;
          attachments := [] |}.

(** Lines 64-74. *)
Definition contact_confirm_mail (firstName email message : jsval)
  : option mail :=
  let? s := to_str firstName in
  let? a := to_str firstName in
  let? d := to_str message in
  Some {| from := env_value (EMAIL_USER e);
          to := email;
          subject := "Thank You for Contacting Us, " ++ s;
          html := contact_confirm_html a d;
          attachments := [] |}.

(** Lines 108-126: the attachment is the uploaded buffer under its
    original name, always labelled [application/pdf]. *)
Definition paper_admin_mail
    (title email fullName institution category abstract : jsval)
    (file : upload) : option mail :=
  let? s := to_str title in
  let? t := to_str title in
  let? n := to_str fullName in
  let? m := to_str email in
  let? i := to_str institution in
  let? c := to_str category in
  let? a := to_str abstract in
  Some {| from := env_value (EMAIL_USER e);
          to := JStr admin_address;
          subject := "Paper Submission: " ++ s;
          html := paper_admin_html t n m i c a;
          attachments := [{| filename := originalname file;
                             content := buffer file;
                             contentType := "application/pdf" |}] |}.

(** Lines 129-140. *)
Definition paper_confirm_mail (title email fullName : jsval) : option mail :=
  let? s := to_str title in
  let? n := to_str fullName in
  let? t := to_str title in
  Some {| from := env_value (EMAIL_USER e);
          to := email;
          subject := "Thank You for Your Paper Submission: " ++ s;
          html := paper_confirm_html t n;
          attachments := [] |}.
End Compose.

(** ** Reading a notification back *)

(** Expect [pre], read a value up to the next ['<'], then expect [post]. *)
Definition parse_field (pre post s : string) : option (string * string) :=
  let? r := strip_prefix pre s in
  let (v, r') := take_until lt_char r in
  let? r'' := strip_prefix post r' in
  Some (v, r'').

Definition parse_contact_admin_html (h : string)
  : option (string * string * string * string) :=
  let? r0 := strip_prefix (nl8 ++ "<h3>New Contact Form Submission</h3>") h in
  let? p1 := parse_field (nl8 ++ "<p><strong>Name:</strong> ") "</p>" r0 in
  let? p2 := parse_field (nl8 ++ "<p><strong>Email:</strong> ") "</p>" (snd p1) in
  let? p3 := parse_field (nl8 ++ "<p><strong>number:</strong> ") "</p>" (snd p2) in
  let? p4 := parse_field (nl8 ++ "<p><strong>Message:</strong> ") "</p>" (snd p3) in
  if String.eqb (snd p4) nl6 then Some (fst p1, fst p2, fst p3, fst p4) else None.

Definition parse_paper_admin_html (h : string)
  : option (string * string * string * string * string * string) :=
  let? r0 := strip_prefix (nl8 ++ "<h3>New Paper Submission</h3>") h in
  let? p1 := parse_field (nl8 ++ "<p><strong>Title:</strong> ") "</p>" r0 in
  let? p2 := parse_field (nl8 ++ "<p><strong>Name:</strong> ") "</p>" (snd p1) in
  let? p3 := parse_field (nl8 ++ "<p><strong>Email:</strong> ") "</p>" (snd p2) in
  let? p4 := parse_field (nl8 ++ "<p><strong>Institution:</strong> ") "</p>" (snd p3) in
  let? p5 := parse_field (nl8 ++ "<p><strong>Author Category:</strong> ")
                         "</p> <!-- Updated field name -->" (snd p4) in
  let? p6 := parse_field (nl8 ++ "<p><strong>Abstract:</strong> ")
                         "</p> <!-- Updated field name -->" (snd p5) in
  if String.eqb (snd p6) nl6
  then Some (fst p1, fst p2, fst p3, fst p4, fst p5, fst p6) else None.

(** ** Lemmas *)

(** Reading one field back: run [take_until] past a ['<']-free value. *)
Ltac parse_fields :=
  cbn; repeat (rewrite take_until_app by assumption; cbn).

(** The notification is built exactly when its four fields convert. *)
Lemma contact_admin_mail_Some e firstName email number message m :
  contact_admin_mail e firstName email number message = Some m ->
  exists a b c d,
    to_str firstName = Some a /\ to_str email = Some b /\
    to_str number = Some c /\ to_str message = Some d /\
    m = {| from := env_value (EMAIL_USER e); to := JStr admin_address;
           subject := "Contact Form Submission from " ++ a;
           html := contact_admin_html a b c d; attachments := [] |}.
Proof.
  unfold contact_admin_mail. intros H. inv_option. eauto 10.
Qed.

Lemma paper_admin_mail_Some e title email fullName institution category abstract file m :
  paper_admin_mail e title email fullName institution category abstract file = Some m ->
  exists t n em i c a,
    to_str title = Some t /\ to_str fullName = Some n /\ to_str email = Some em /\
    to_str institution = Some i /\ to_str category = Some c /\
    to_str abstract = Some a /\
    m = {| from := env_value (EMAIL_USER e); to := JStr admin_address;
           subject := "Paper Submission: " ++ t;
           html := paper_admin_html t n em i c a;
           attachments := [{| filename := originalname file;
                              content := buffer file;
                              contentType := "application/pdf" |}] |}.
Proof.
  unfold paper_admin_mail. intros H. inv_option. eauto 20.
Qed.

(** The confirmation reads a subset of the notification's fields, so once
    the notification is built the confirmation cannot throw. *)
Lemma contact_confirm_of_admin e firstName email number message m :
  contact_admin_mail e firstName email number message = Some m ->
  contact_confirm_mail e firstName email message =
  Some {| from := env_value (EMAIL_USER e); to := email;
          subject := "Thank You for Contacting Us, " ++ match to_str firstName with Some a => a | None => "" end;
          html := contact_confirm_html
                    (match to_str firstName with Some a => a | None => "" end)
                    (match to_str message with Some d => d | None => "" end);
          attachments := [] |}.
Proof.
  intros H. apply contact_admin_mail_Some in H as (a & b & c & d & Ha & _ & _ & Hd & _).
  unfold contact_confirm_mail. now rewrite Ha, Hd.
Qed.

Lemma paper_confirm_of_admin e title email fullName institution category abstract file m :
  paper_admin_mail e title email fullName institution category abstract file = Some m ->
  paper_confirm_mail e title email fullName =
  Some {| from := env_value (EMAIL_USER e); to := email;
          subject := "Thank You for Your Paper Submission: " ++ match to_str title with Some t => t | None => "" end;
          html := paper_confirm_html
                    (match to_str title with Some t => t | None => "" end)
                    (match to_str fullName with Some n => n | None => "" end);
          attachments := [] |}.
Proof.
  intros H.
  apply paper_admin_mail_Some in H as (t & n & em & i & c & a & Ht & Hn & _).
  unfold paper_confirm_mail. now rewrite Ht, Hn.
Qed.

(** The notification throws exactly when one of its four fields is an
    object with an own [toString]. *)
Lemma contact_admin_mail_None e firstName email number message :
  contact_admin_mail e firstName email number message = None <->
  has_own_toString firstName || has_own_toString email ||
  has_own_toString number || has_own_toString message = true.
Proof.
  rewrite !orb_true_iff, <- !to_str_None_iff. unfold contact_admin_mail.
  destruct (to_str firstName), (to_str email), (to_str number), (to_str message);
    simpl; intuition congruence.
Qed.

Lemma paper_admin_mail_None e title email fullName institution category abstract file :
  paper_admin_mail e title email fullName institution category abstract file = None <->
  has_own_toString title || has_own_toString fullName || has_own_toString email ||
  has_own_toString institution || has_own_toString category ||
  has_own_toString abstract = true.
Proof.
  rewrite !orb_true_iff, <- !to_str_None_iff. unfold paper_admin_mail.
  destruct (to_str title), (to_str fullName), (to_str email), (to_str institution),
    (to_str category), (to_str abstract); simpl; intuition congruence.
Qed.

(** C7. Every field of a contact submission given as a
    string appears verbatim in the bodies: all four in the notification,
    the name and the message in the confirmation.  Nothing is escaped. *)
Theorem contact_fields_verbatim e firstName email number message :
  exists m1 m2,
    contact_admin_mail e (JStr firstName) (JStr email) (JStr number) (JStr message) = Some m1 /\
    contact_confirm_mail e (JStr firstName) (JStr email) (JStr message) = Some m2 /\
    infix firstName (html m1) /\ infix email (html m1) /\
    infix number (html m1) /\ infix message (html m1) /\
    infix firstName (html m2) /\ infix message (html m2).
Proof.
  do 2 eexists. split; [reflexivity|]. split; [reflexivity|].
  cbn [html]. unfold contact_admin_html, contact_confirm_html.
  repeat split; solve_infix.
Qed.

(** C8. The six text fields of a paper submission given as
    strings appear verbatim in the notification, and the title and the
    name in the confirmation. *)
Theorem paper_fields_verbatim e title email fullName institution category abstract file :
  exists m1 m2,
    paper_admin_mail e (JStr title) (JStr email) (JStr fullName) (JStr institution)
      (JStr category) (JStr abstract) file = Some m1 /\
    paper_confirm_mail e (JStr title) (JStr email) (JStr fullName) = Some m2 /\
    infix title (html m1) /\ infix fullName (html m1) /\ infix email (html m1) /\
    infix institution (html m1) /\ infix category (html m1) /\
    infix abstract (html m1) /\
    infix title (html m2) /\ infix fullName (html m2).
Proof.
  do 2 eexists. split; [reflexivity|]. split; [reflexivity|].
  cbn [html]. unfold paper_admin_html, paper_confirm_html.
  repeat split; solve_infix.
Qed.

(** C19. Round trip: a contact notification whose fields contain no ['<']
    parses back to exactly those fields. *)
Theorem contact_admin_html_roundtrip a b c d :
  char_free lt_char a = true -> char_free lt_char b = true ->
  char_free lt_char c = true -> char_free lt_char d = true ->
  parse_contact_admin_html (contact_admin_html a b c d) = Some (a, b, c, d).
Proof.
  intros. unfold parse_contact_admin_html, contact_admin_html, parse_field.
  parse_fields. reflexivity.
Qed.

Lemma contact_admin_html_roundtrip_witness :
  parse_contact_admin_html (contact_admin_html "Ada" "ada@example.org" "5551234" "Hello")
  = Some ("Ada", "ada@example.org", "5551234", "Hello").
Proof.
  apply contact_admin_html_roundtrip; reflexivity.
Defined.

(** C20. Round trip for the paper notification: its six fields come
    back when none contains a ['<']. *)
Theorem paper_admin_html_roundtrip t n m i c a :
  char_free lt_char t = true -> char_free lt_char n = true ->
  char_free lt_char m = true -> char_free lt_char i = true ->
  char_free lt_char c = true -> char_free lt_char a = true ->
  parse_paper_admin_html (paper_admin_html t n m i c a) = Some (t, n, m, i, c, a).
Proof.
  intros. unfold parse_paper_admin_html, paper_admin_html, parse_field.
  parse_fields. reflexivity.
Qed.

Lemma paper_admin_html_roundtrip_witness :
  parse_paper_admin_html
    (paper_admin_html "Proofs" "Ada L" "ada@example.org" "BIT" "Student" "Short")
  = Some ("Proofs", "Ada L", "ada@example.org", "BIT", "Student", "Short").
Proof.
  apply paper_admin_html_roundtrip; reflexivity.
Defined.

(** C21. Without the ['<'] restriction the notification does not determine the
    submission.  The fields are interpolated unescaped, so a name that
    carries markup can pose as the e-mail line. *)
Theorem contact_admin_html_ambiguous :
  exists f1 e1 f2 e2 n m,
    (f1, e1) <> (f2, e2) /\
    contact_admin_html f1 e1 n m = contact_admin_html f2 e2 n m.
Proof.
  exists ("A</p>" ++ nl8 ++ "<p><strong>Email:</strong> B"), "C",
         "A", ("B</p>" ++ nl8 ++ "<p><strong>Email:</strong> C"), "1", "m".
  split; [discriminate | reflexivity].
Qed.
