(* ===== verification/Runtime.v ===== *)
(** * The effects of the async handlers of [src/index.js]

    A handler ([async (req, res) => {...}]) reads the request, awaits
    [transporter.sendMail] (lines 50, 64, 108, 129), writes to
    [console.error] (lines 80, 146) and answers with
    [res.status(c).json(b)].  Its effects are modelled in the monad of
    [Prelude] over a [world]:
    - [w_relay]: the state of the external mail relay, behind the
      [MailRelay] interface (the transporter of lines 26-32);
    - [w_sent]: every message handed to [sendMail], in call order;
    - [w_log]: the [console.error] lines;
    - [w_res]: the response, once one is sent.
    Errors are the JavaScript exceptions the handlers can meet: a TypeError
    (destructuring [undefined], or a [ToString] that throws), the rejection
    of [sendMail], and Express's refusal to send a second response.

    [sends_within m k] bounds the number of [sendMail] calls of [m].  The
    rules for [st_ret], [st_bind], [st_catch] and the primitives compose
    such bounds. *)

From Stdlib Require Import String List ZArith Bool Lia.
From S2P Require Import Prelude JsValue Validate Mail.
Import ListNotations.
Open Scope icset_scope.

(** ** The relay interface *)

(** What one [sendMail] call returns: the promise resolves, or it rejects
    with the relay's reason. *)
Inductive delivery : Type :=
| Delivered
| Failed (reason : string).

(** The external relay, seen as one operation on its own state. *)
Class MailRelay (R : Type) := relay_send : R -> mail -> R * delivery.

(** ** World and errors *)

Inductive js_error : Type :=
| TypeError
| SendError (reason : string)
| HeadersSent.

Record response : Type := {
  status : Z;
  body : jsval
}.

Record world (R : Type) : Type := {
  w_relay : R;
  w_sent : list mail;
  w_log : list (string * js_error);
  w_res : option response
}.
Arguments w_relay {R}.
Arguments w_sent {R}.
Arguments w_log {R}.
Arguments w_res {R}.

Section Effects.
Context {R : Type} `{MailRelay R}.

Definition M (A : Type) : Type := st (world R) js_error A.

(** [await transporter.sendMail(m)]: the message is handed over, the
    relay answers, and a rejection is thrown at the [await]. *)
Definition send_mail (m : mail) : M unit :=
  fun w =>
    let (r', d) := relay_send (w_relay w) m in
    let w' := {| w_relay := r'; w_sent := w_sent w ++ [m];
                 w_log := w_log w; w_res := w_res w |} in
    match d with
    | Delivered => (Normal tt, w')
    | Failed reason => (Thrown (SendError reason), w')
    end.

(** [console.error(label, err)]. *)
Definition console_error (label : string) (err : js_error) : M unit :=
  fun w => (Normal tt, {| w_relay := w_relay w; w_sent := w_sent w;
                          w_log := w_log w ++ [(label, err)];
                          w_res := w_res w |}).

(** The world once the response [code], [b] is sent. *)
Definition answered (w : world R) (code : Z) (b : jsval) : world R :=
  {| w_relay := w_relay w; w_sent := w_sent w; w_log := w_log w;
     w_res := Some {| status := code; body := b |} |}.

(** [res.status(code).json(b)]: a second response throws. *)
Definition respond (code : Z) (b : jsval) : M unit :=
  fun w =>
    match w_res w with
    | Some _ => (Thrown HeadersSent, w)
    | None => (Normal tt, answered w code b)
    end.

(** One property read of a destructuring [const {k} = v]. *)
Definition read_prop (v : jsval) (k : string) : M jsval :=
  st_of_option TypeError (get_prop v k).

(** Evaluating an object literal whose template literals may throw. *)
Definition build (o : option mail) : M mail := st_of_option TypeError o.

(** ** Counting [sendMail] calls *)

Definition sends_within {A} (m : M A) (k : nat) : Prop :=
  forall w, exists l, w_sent (snd (m w)) = w_sent w ++ l /\ length l <= k.

Lemma sends_within_ret {A} (a : A) : sends_within (st_ret a) 0.
Proof. intros w. exists []. split; [now rewrite app_nil_r | simpl; lia]. Qed.

Lemma sends_within_throw {A} (e : js_error) : sends_within (A := A) (st_throw e) 0.
Proof. intros w. exists []. split; [now rewrite app_nil_r | simpl; lia]. Qed.

Lemma sends_within_send m : sends_within (send_mail m) 1.
Proof.
  intros w. exists [m]. unfold send_mail.
  destruct (relay_send (w_relay w) m) as [r' [|reason]]; simpl; split; auto.
Qed.

Lemma sends_within_console label err : sends_within (console_error label err) 0.
Proof. intros w. exists []. split; [now rewrite app_nil_r | simpl; lia]. Qed.

Lemma sends_within_respond code b : sends_within (respond code b) 0.
Proof.
  intros w. exists []. unfold respond.
  destruct (w_res w); simpl; split; try rewrite app_nil_r; auto.
Qed.

Lemma sends_within_of_option {A} e (o : option A) :
  sends_within (st_of_option e o) 0.
Proof. destruct o; [apply sends_within_ret | apply sends_within_throw]. Qed.

Lemma sends_within_weaken {A} (m : M A) k k' :
  sends_within m k -> k <= k' -> sends_within m k'.
Proof. intros Hm Hk w. destruct (Hm w) as (l & Hl & Hlen). exists l. split; [exact Hl | lia]. Qed.

Lemma sends_within_bind {A B} (m : M A) (f : A -> M B) k1 k2 :
  sends_within m k1 -> (forall a, sends_within (f a) k2) ->
  sends_within (st_bind m f) (k1 + k2).
Proof.
  intros Hm Hf w. unfold st_bind.
  destruct (Hm w) as (l1 & Hl1 & Hlen1).
  destruct (m w) as [[a|e] w1]; simpl in *.
  - destruct (Hf a w1) as (l2 & Hl2 & Hlen2). exists (l1 ++ l2).
    rewrite Hl2, Hl1, app_assoc, length_app. split; [reflexivity | lia].
  - exists l1. split; [exact Hl1 | lia].
Qed.

Lemma sends_within_catch {A} (m : M A) (h : js_error -> M A) k1 k2 :
  sends_within m k1 -> (forall e, sends_within (h e) k2) ->
  sends_within (st_catch m h) (k1 + k2).
Proof.
  intros Hm Hh w. unfold st_catch.
  destruct (Hm w) as (l1 & Hl1 & Hlen1).
  destruct (m w) as [[a|e] w1]; simpl in *.
  - exists l1. split; [exact Hl1 | lia].
  - destruct (Hh e w1) as (l2 & Hl2 & Hlen2). exists (l1 ++ l2).
    rewrite Hl2, Hl1, app_assoc, length_app. split; [reflexivity | lia].
Qed.
Lemma sends_within_if {A} (b : bool) (m1 m2 : M A) k1 k2 :
  sends_within m1 k1 -> sends_within m2 k2 ->
  sends_within (if b then m1 else m2) (Nat.max k1 k2).
Proof.
  intros H1 H2. destruct b; eapply sends_within_weaken; eauto; lia.
Qed.
End Effects.

(** Bound the sends of a handler by walking its binds, catches and ifs. *)
Ltac sends_bound :=
  lazymatch goal with
  | |- sends_within (st_bind _ _) _ =>
      eapply sends_within_bind; [sends_bound | intros; sends_bound]
  | |- sends_within (st_catch _ _) _ =>
      eapply sends_within_catch; [sends_bound | intros; sends_bound]
  | |- sends_within (if _ then _ else _) _ =>
      eapply sends_within_if; sends_bound
  | |- _ => unfold read_prop, build; eauto with icset
  end.

#[export] Hint Resolve sends_within_ret sends_within_throw sends_within_send
  sends_within_console sends_within_respond sends_within_of_option : icset.

(** ** A scripted, recording relay

    The test double of the spec: it answers each call with the next scripted
    delivery (and [Delivered] once the script is exhausted), and records the
    messages it delivered. *)
Record scripted : Type := {
  script : list delivery;
  delivered : list mail
}.

#[export] Instance scripted_relay : MailRelay scripted :=
  fun r m =>
    match script r with
    | [] => ({| script := []; delivered := delivered r ++ [m] |}, Delivered)
    | Delivered :: ds => ({| script := ds; delivered := delivered r ++ [m] |}, Delivered)
    | Failed why :: ds => ({| script := ds; delivered := delivered r |}, Failed why)
    end.

(** A world before the request: nothing sent, nothing logged, no response. *)
Definition fresh_world {R} (r : R) : world R :=
  {| w_relay := r; w_sent := []; w_log := []; w_res := None |}.

Section RuntimeLemmas.
Context {R : Type} `{MailRelay R}.

Lemma read_prop_Some (v : jsval) k x (w : world R) :
  get_prop v k = Some x -> read_prop v k w = (Normal x, w).
Proof. unfold read_prop, st_of_option. intros ->. reflexivity. Qed.
End RuntimeLemmas.

(** Run a handler on a world: unfold the monad and the effects, and use
    the hypotheses about fields, composers and relay answers. *)
Ltac run_world :=
  unfold build, st_of_option, send_mail, console_error, respond in *;
  st_unfold; repeat progress (rewrite_hyps; simpl).
