(* ===== verification/Handlers.v ===== *)
(** * The two route handlers of [src/index.js]

    [contact_handler] is the body of [app.post('/api/contact', ...)]
    (lines 34-85).  [submit_paper_handler] is the body of
    [app.post('/api/submit-paper', upload.single('file'), ...)]
    (lines 89-151).  Each is written statement by statement: the
    destructuring reads, the guard, and the [try] block with its two awaited
    sends and the [catch] that logs and answers 500.

    [pipeline] is the spec's description of an endpoint: validate, compose
    both messages, dispatch the pair (administrator first), and map the
    outcome to 200, 400 or 500.  The refinement theorems show that each
    handler is equivalent to its pipeline on every body, every relay and
    every world. *)

From Stdlib Require Import String List ZArith Bool Lia.
From S2P Require Import Prelude JsValue Validate Mail Runtime.
Import ListNotations.
Open Scope icset_scope.

(** The three JSON bodies each handler can answer with. *)
Definition error_body (msg : string) : jsval := JObj [("error"%string, JStr msg)].
Definition message_body (msg : string) : jsval := JObj [("message"%string, JStr msg)].

Section Handlers.
Context {R : Type} `{MailRelay R}.
Variable e : env.

(** Lines 42-84: the contact handler once [req.body] is destructured. *)
Definition contact_after_read (firstName email number message : jsval) : M unit :=
  if contact_missing firstName email number message then
    respond 400 (error_body "All fields are required")
  else
    st_catch
      (admin <- build (contact_admin_mail e firstName email number message) ;;
       send_mail admin ;;
       confirm <- build (contact_confirm_mail e firstName email message) ;;
       send_mail confirm ;;
       respond 200 (message_body "Email sent successfully"))
      (fun error =>
         console_error "Error sending email:" error ;;
         respond 500 (error_body "Failed to send email")).

(** Lines 34-85. *)
Definition contact_handler (reqbody : jsval) : M unit :=
  firstName <- read_prop reqbody "firstName" ;;
  email <- read_prop reqbody "email" ;;
  number <- read_prop reqbody "number" ;;
  message <- read_prop reqbody "message" ;;
  contact_after_read firstName email number message.

(** Lines 98-150: the paper handler once [req.body] is destructured;
    [file] is [req.file] as multer left it. *)
Definition paper_after_read (title email fullName institution category abstract : jsval)
           (file : option upload) : M unit :=
  match file with
  | None => respond 400 (error_body "No file uploaded")
  | Some f =>
      st_catch
        (admin <- build (paper_admin_mail e title email fullName institution
                                           category abstract f) ;;
         send_mail admin ;;
         confirm <- build (paper_confirm_mail e title email fullName) ;;
         send_mail confirm ;;
         respond 200 (message_body "Paper submitted successfully"))
        (fun error =>
           console_error "Error submitting paper:" error ;;
           respond 500 (error_body "Failed to submit paper"))
  end.

(** Lines 89-151, after multer has run. *)
Definition submit_paper_handler (reqbody : jsval) (file : option upload) : M unit :=
  title <- read_prop reqbody "title" ;;
  email <- read_prop reqbody "email" ;;
  fullName <- read_prop reqbody "fullName" ;;
  institution <- read_prop reqbody "institution" ;;
  category <- read_prop reqbody "category" ;;
  abstract <- read_prop reqbody "abstract" ;;
  paper_after_read title email fullName institution category abstract file.

(** ** The spec's endpoint pipeline *)

(** The dispatcher: the administrator message, then the confirmation; a
    failure of the first aborts the second. *)
Definition dispatch (pair : mail * mail) : M unit :=
  send_mail (fst pair) ;; send_mail (snd pair).

Definition pipeline (verdict : option string) (composed : option (mail * mail))
           (label fail_msg ok_msg : string) : M unit :=
  match verdict with
  | Some reason => respond 400 (error_body reason)
  | None =>
      st_catch
        (pair <- st_of_option TypeError composed ;;
         dispatch pair ;;
         respond 200 (message_body ok_msg))
        (fun error => console_error label error ;; respond 500 (error_body fail_msg))
  end.

Definition contact_compose (firstName email number message : jsval)
  : option (mail * mail) :=
  let? a := contact_admin_mail e firstName email number message in
  let? c := contact_confirm_mail e firstName email message in
  Some (a, c).

Definition paper_compose (title email fullName institution category abstract : jsval)
           (f : upload) : option (mail * mail) :=
  let? a := paper_admin_mail e title email fullName institution category abstract f in
  let? c := paper_confirm_mail e title email fullName in
  Some (a, c).

Definition contact_spec (reqbody : jsval) : M unit :=
  firstName <- read_prop reqbody "firstName" ;;
  email <- read_prop reqbody "email" ;;
  number <- read_prop reqbody "number" ;;
  message <- read_prop reqbody "message" ;;
  pipeline (contact_validation firstName email number message)
           (contact_compose firstName email number message)
           "Error sending email:" "Failed to send email" "Email sent successfully".

Definition paper_spec (reqbody : jsval) (file : option upload) : M unit :=
  title <- read_prop reqbody "title" ;;
  email <- read_prop reqbody "email" ;;
  fullName <- read_prop reqbody "fullName" ;;
  institution <- read_prop reqbody "institution" ;;
  category <- read_prop reqbody "category" ;;
  abstract <- read_prop reqbody "abstract" ;;
  pipeline (paper_validation file)
           (match file with
            | Some f => paper_compose title email fullName institution category abstract f
            | None => None
            end)
           "Error submitting paper:" "Failed to submit paper" "Paper submitted successfully".
End Handlers.

(** ** Behaviour of the contact endpoint *)

Section ContactBehaviour.
Context {R : Type} `{MailRelay R}.
Variable e : env.
Variables (reqbody firstName email number message : jsval).
Hypothesis read_firstName : get_prop reqbody "firstName" = Some firstName.
Hypothesis read_email : get_prop reqbody "email" = Some email.
Hypothesis read_number : get_prop reqbody "number" = Some number.
Hypothesis read_message : get_prop reqbody "message" = Some message.

Lemma contact_handler_read (w : world R) :
  contact_handler e reqbody w = contact_after_read e firstName email number message w.
Proof.
  unfold contact_handler, st_bind.
  now rewrite (read_prop_Some _ _ _ _ read_firstName), (read_prop_Some _ _ _ _ read_email),
    (read_prop_Some _ _ _ _ read_number), (read_prop_Some _ _ _ _ read_message).
Qed.

(** C1. A contact submission with a falsy field is answered 400 with the
    fixed message; nothing is handed to the relay and nothing is logged. *)
Theorem contact_missing_field_400 (w : world R) :
  contact_missing firstName email number message = true ->
  w_res w = None ->
  contact_handler e reqbody w =
  (Normal tt, answered w 400 (error_body "All fields are required")).
Proof.
  intros Hmiss Hres. rewrite contact_handler_read.
  unfold contact_after_read. rewrite Hmiss. unfold respond. now rewrite Hres.
Qed.

(** C3. A valid contact submission whose two sends succeed: exactly two
    messages are handed over, the notification (to the administrator)
    before the confirmation (to the submitter), both subjects carry the
    name, and the answer is 200. *)
Theorem contact_success (w : world R) ma mc r1 r2 :
  contact_missing firstName email number message = false ->
  contact_admin_mail e firstName email number message = Some ma ->
  contact_confirm_mail e firstName email message = Some mc ->
  relay_send (w_relay w) ma = (r1, Delivered) ->
  relay_send r1 mc = (r2, Delivered) ->
  w_res w = None ->
  contact_handler e reqbody w =
    (Normal tt, answered {| w_relay := r2; w_sent := w_sent w ++ [ma; mc];
                            w_log := w_log w; w_res := None |}
                         200 (message_body "Email sent successfully"))
  /\ to ma = JStr admin_address /\ to mc = email
  /\ (forall s, to_str firstName = Some s -> infix s (subject ma) /\ infix s (subject mc)).
Proof.
  intros Hmiss Ha Hc H1 H2 Hres. split.
  - rewrite contact_handler_read. unfold contact_after_read.
    run_world. now rewrite <- app_assoc.
  - apply contact_admin_mail_Some in Ha as (a & b & c & d & Hfa & _ & _ & Hd & ->).
    unfold contact_confirm_mail in Hc. rewrite Hfa, Hd in Hc. cbn [obind] in Hc.
    injection Hc as <-. simpl. split; [reflexivity | split; [reflexivity|]].
    intros s Hs. rewrite Hfa in Hs. injection Hs as <-. split; solve_infix.
Qed.

(** C5. When the relay rejects the notification, the confirmation is
    never handed over; the error is logged and the answer is 500. *)
Theorem contact_admin_send_fails (w : world R) ma r1 why :
  contact_missing firstName email number message = false ->
  contact_admin_mail e firstName email number message = Some ma ->
  relay_send (w_relay w) ma = (r1, Failed why) ->
  w_res w = None ->
  contact_handler e reqbody w =
    (Normal tt, answered {| w_relay := r1; w_sent := w_sent w ++ [ma];
                            w_log := w_log w ++ [("Error sending email:"%string, SendError why)];
                            w_res := None |}
                         500 (error_body "Failed to send email")).
Proof.
  intros Hmiss Ha H1 Hres. rewrite contact_handler_read. unfold contact_after_read.
  run_world. reflexivity.
Qed.

(** C6. When only the confirmation is rejected, the caller still gets
    500, though the administrator was notified. *)
Theorem contact_confirm_send_fails (w : world R) ma mc r1 r2 why :
  contact_missing firstName email number message = false ->
  contact_admin_mail e firstName email number message = Some ma ->
  contact_confirm_mail e firstName email message = Some mc ->
  relay_send (w_relay w) ma = (r1, Delivered) ->
  relay_send r1 mc = (r2, Failed why) ->
  w_res w = None ->
  contact_handler e reqbody w =
    (Normal tt, answered {| w_relay := r2; w_sent := w_sent w ++ [ma; mc];
                            w_log := w_log w ++ [("Error sending email:"%string, SendError why)];
                            w_res := None |}
                         500 (error_body "Failed to send email")).
Proof.
  intros Hmiss Ha Hc H1 H2 Hres. rewrite contact_handler_read. unfold contact_after_read.
  run_world. now rewrite <- app_assoc.
Qed.

(** C9. A field that is an object with an own [toString] passes the
    guard, but the template literal throws: nothing is sent, a TypeError
    is logged and the answer is 500. *)
Theorem contact_toString_throws_500 (w : world R) :
  contact_missing firstName email number message = false ->
  has_own_toString firstName || has_own_toString email ||
  has_own_toString number || has_own_toString message = true ->
  w_res w = None ->
  contact_handler e reqbody w =
    (Normal tt, answered {| w_relay := w_relay w; w_sent := w_sent w;
                            w_log := w_log w ++ [("Error sending email:"%string, TypeError)];
                            w_res := None |}
                         500 (error_body "Failed to send email")).
Proof.
  intros Hmiss Hobj Hres. apply contact_admin_mail_None with (e := e) in Hobj.
  rewrite contact_handler_read. unfold contact_after_read.
  run_world. reflexivity.
Qed.
End ContactBehaviour.

(** C25. A phone number given as the JSON number [0] is present, yet the
    request is rejected as if a field were missing. *)
Theorem contact_zero_number_rejected {R} `{MailRelay R} e firstName email message
    (w : world R) :
  w_res w = None ->
  contact_handler e (JObj [("firstName"%string, firstName); ("email"%string, email);
                           ("number"%string, JNum 0); ("message"%string, message)]) w =
  (Normal tt, answered w 400 (error_body "All fields are required")).
Proof.
  intros Hres. apply (contact_missing_field_400 e _ firstName email (JNum 0) message);
    try reflexivity; [|exact Hres].
  unfold contact_missing. simpl. now rewrite !orb_true_r.
Qed.

(** ** Behaviour of the paper endpoint *)

Section PaperBehaviour.
Context {R : Type} `{MailRelay R}.
Variable e : env.
Variables (reqbody title email fullName institution category abstract : jsval).
Hypothesis read_title : get_prop reqbody "title" = Some title.
Hypothesis read_email : get_prop reqbody "email" = Some email.
Hypothesis read_fullName : get_prop reqbody "fullName" = Some fullName.
Hypothesis read_institution : get_prop reqbody "institution" = Some institution.
Hypothesis read_category : get_prop reqbody "category" = Some category.
Hypothesis read_abstract : get_prop reqbody "abstract" = Some abstract.

Lemma paper_handler_read (w : world R) file :
  submit_paper_handler e reqbody file w =
  paper_after_read e title email fullName institution category abstract file w.
Proof.
  unfold submit_paper_handler, st_bind.
  now rewrite (read_prop_Some _ _ _ _ read_title), (read_prop_Some _ _ _ _ read_email),
    (read_prop_Some _ _ _ _ read_fullName), (read_prop_Some _ _ _ _ read_institution),
    (read_prop_Some _ _ _ _ read_category), (read_prop_Some _ _ _ _ read_abstract).
Qed.

(** C4. A paper submission with a file whose two sends succeed: the
    notification goes first, to the administrator, with exactly one
    attachment, the uploaded bytes under the original name, labelled
    [application/pdf] whatever the upload's own type; the confirmation
    goes to the submitter with no attachment; the answer is 200. *)
Theorem paper_success (w : world R) f ma mc r1 r2 :
  paper_admin_mail e title email fullName institution category abstract f = Some ma ->
  paper_confirm_mail e title email fullName = Some mc ->
  relay_send (w_relay w) ma = (r1, Delivered) ->
  relay_send r1 mc = (r2, Delivered) ->
  w_res w = None ->
  submit_paper_handler e reqbody (Some f) w =
    (Normal tt, answered {| w_relay := r2; w_sent := w_sent w ++ [ma; mc];
                            w_log := w_log w; w_res := None |}
                         200 (message_body "Paper submitted successfully"))
  /\ to ma = JStr admin_address /\ to mc = email
  /\ attachments ma = [{| filename := originalname f; content := buffer f;
                          contentType := "application/pdf" |}]
  /\ attachments mc = [].
Proof.
  intros Ha Hc H1 H2 Hres. split.
  - rewrite paper_handler_read. unfold paper_after_read.
    run_world. now rewrite <- app_assoc.
  - apply paper_admin_mail_Some in Ha as (t & n & m & i & c & a & Ht & Hn & _ & _ & _ & _ & ->).
    unfold paper_confirm_mail in Hc. rewrite Ht, Hn in Hc. cbn [obind] in Hc.
    injection Hc as <-. simpl. auto.
Qed.

(** C32. When the relay rejects the paper notification, the
    confirmation is never handed over; the error is logged and the
    answer is 500. *)
Theorem paper_admin_send_fails (w : world R) f ma r1 why :
  paper_admin_mail e title email fullName institution category abstract f = Some ma ->
  relay_send (w_relay w) ma = (r1, Failed why) ->
  w_res w = None ->
  submit_paper_handler e reqbody (Some f) w =
    (Normal tt, answered {| w_relay := r1; w_sent := w_sent w ++ [ma];
                            w_log := w_log w ++ [("Error submitting paper:"%string, SendError why)];
                            w_res := None |}
                         500 (error_body "Failed to submit paper")).
Proof.
  intros Ha H1 Hres. rewrite paper_handler_read. unfold paper_after_read.
  run_world. reflexivity.
Qed.

(** C33. When only the paper confirmation is rejected, both messages
    were handed over, the error is logged, and the caller still gets
    500. *)
Theorem paper_confirm_send_fails (w : world R) f ma mc r1 r2 why :
  paper_admin_mail e title email fullName institution category abstract f = Some ma ->
  paper_confirm_mail e title email fullName = Some mc ->
  relay_send (w_relay w) ma = (r1, Delivered) ->
  relay_send r1 mc = (r2, Failed why) ->
  w_res w = None ->
  submit_paper_handler e reqbody (Some f) w =
    (Normal tt, answered {| w_relay := r2; w_sent := w_sent w ++ [ma; mc];
                            w_log := w_log w ++ [("Error submitting paper:"%string, SendError why)];
                            w_res := None |}
                         500 (error_body "Failed to submit paper")).
Proof.
  intros Ha Hc H1 H2 Hres. rewrite paper_handler_read. unfold paper_after_read.
  run_world. now rewrite <- app_assoc.
Qed.
End PaperBehaviour.

(** C2. A paper submission without a file is answered 400 with the fixed
    message whatever its text fields hold; nothing is sent or logged. *)
Theorem paper_no_file_400 {R} `{MailRelay R} e reqbody (w : world R) :
  reqbody <> JUndefined -> reqbody <> JNull -> w_res w = None ->
  submit_paper_handler e reqbody None w =
  (Normal tt, answered w 400 (error_body "No file uploaded")).
Proof.
  intros Hu Hn Hres.
  destruct reqbody; try congruence;
    unfold submit_paper_handler, paper_after_read, read_prop, respond; run_world;
    reflexivity.
Qed.

(** ** Refinement: the handlers implement the spec's pipeline *)

Section Refinement.
Context {R : Type} `{MailRelay R}.

(** The code builds the confirmation after the first send, the spec
    builds both before.  The two agree whenever a built notification
    implies a buildable confirmation. *)
Lemma try_block_equiv (oa oc : option mail) (k : M unit) :
  (forall a, oa = Some a -> exists c, oc = Some c) ->
  (admin <- build oa ;; send_mail admin ;;
   confirm <- build oc ;; send_mail confirm ;; k)
  ≈ (pair <- st_of_option TypeError (let? a := oa in let? c := oc in Some (a, c)) ;;
     dispatch pair ;; k).
Proof.
  intros Hoc w. unfold build, dispatch.
  destruct oa as [ma|]; [|reflexivity].
  destruct (Hoc ma eq_refl) as [mc ->]. st_unfold.
  destruct (send_mail ma w) as [[[]|err] w1]; [|reflexivity].
  destruct (send_mail mc w1) as [[[]|err] w2]; reflexivity.
Qed.

(** C12. The contact handler is equivalent to the spec's pipeline:
    validate, compose both messages, dispatch the pair, answer. *)
Theorem contact_handler_refines e reqbody :
  contact_handler e reqbody ≈ contact_spec e reqbody.
Proof.
  unfold contact_handler, contact_after_read, contact_spec, pipeline,
    contact_validation.
  do 4 (apply st_bind_equiv_r; intro).
  destruct contact_missing; [reflexivity|].
  apply st_catch_proper; [|intros err; reflexivity].
  apply try_block_equiv. intros ma Ha.
  eexists. exact (contact_confirm_of_admin _ _ _ _ _ _ Ha).
Qed.

(** C13. The paper handler is equivalent to the spec's pipeline. *)
Theorem paper_handler_refines e reqbody file :
  submit_paper_handler e reqbody file ≈ paper_spec e reqbody file.
Proof.
  unfold submit_paper_handler, paper_after_read, paper_spec, pipeline,
    paper_validation.
  do 6 (apply st_bind_equiv_r; intro).
  destruct file as [f|]; [|reflexivity]. simpl.
  apply st_catch_proper; [|intros err; reflexivity].
  apply try_block_equiv. intros ma Ha.
  eexists. exact (paper_confirm_of_admin _ _ _ _ _ _ _ _ _ Ha).
Qed.
End Refinement.

(** ** Bounds, responses and rejected promises *)

Section Global.
Context {R : Type} `{MailRelay R}.
Variable e : env.

(** C10. Whatever the body, the file and the relay's answers, a request
    hands at most two messages to the relay (no retry). *)
Theorem handlers_send_at_most_two reqbody file :
  sends_within (contact_handler e reqbody) 2 /\
  sends_within (submit_paper_handler e reqbody file) 2.
Proof.
  split.
  - eapply sends_within_weaken;
      [unfold contact_handler, contact_after_read; sends_bound | simpl; lia].
  - destruct file; eapply sends_within_weaken;
      [unfold submit_paper_handler, paper_after_read; sends_bound | simpl; lia
      |unfold submit_paper_handler, paper_after_read; sends_bound | simpl; lia].
Qed.

(** The [try]/[catch] block of either handler always answers, 200 when
    it completes and 500 when anything in it throws. *)
Lemma try_block_responds (oa oc : option mail) ok fail label (w : world R) :
  w_res w = None ->
  exists w' code b,
    st_catch (admin <- build oa ;; send_mail admin ;;
              confirm <- build oc ;; send_mail confirm ;;
              respond 200 (message_body ok))
             (fun error => console_error label error ;;
                           respond 500 (error_body fail)) w = (Normal tt, w') /\
    w_res w' = Some {| status := code; body := b |} /\ (code = 200 \/ code = 500)%Z.
Proof.
  intros Hres.
  destruct oa as [ma|]; [destruct oc as [mc|]|].
  - destruct (relay_send (w_relay w) ma) as [r1 [|why1]] eqn:E1;
      [destruct (relay_send r1 mc) as [r2 [|why2]] eqn:E2|];
      run_world; do 3 eexists; (split; [reflexivity | split; [reflexivity | lia]]).
  - destruct (relay_send (w_relay w) ma) as [r1 [|why1]] eqn:E1;
      run_world; do 3 eexists; (split; [reflexivity | split; [reflexivity | lia]]).
  - run_world. do 3 eexists. split; [reflexivity | split; [reflexivity | lia]].
Qed.

(** C11. With a body that is an object (as [express.json()] and multer
    always provide), each handler completes and sends exactly one
    response, with status 200, 400 or 500. *)
Theorem handlers_always_respond reqbody file (w : world R) :
  reqbody <> JUndefined -> reqbody <> JNull -> w_res w = None ->
  (exists w' code b, contact_handler e reqbody w = (Normal tt, w') /\
     w_res w' = Some {| status := code; body := b |} /\
     (code = 200 \/ code = 400 \/ code = 500)%Z) /\
  (exists w' code b, submit_paper_handler e reqbody file w = (Normal tt, w') /\
     w_res w' = Some {| status := code; body := b |} /\
     (code = 200 \/ code = 400 \/ code = 500)%Z).
Proof.
  intros Hu Hn Hres.
  destruct (get_prop_defined reqbody "firstName" Hu Hn) as [fn Hfn].
  destruct (get_prop_defined reqbody "email" Hu Hn) as [em Hem].
  destruct (get_prop_defined reqbody "number" Hu Hn) as [nb Hnb].
  destruct (get_prop_defined reqbody "message" Hu Hn) as [msg Hmsg].
  destruct (get_prop_defined reqbody "title" Hu Hn) as [ti Hti].
  destruct (get_prop_defined reqbody "fullName" Hu Hn) as [fu Hfu].
  destruct (get_prop_defined reqbody "institution" Hu Hn) as [ins Hins].
  destruct (get_prop_defined reqbody "category" Hu Hn) as [ca Hca].
  destruct (get_prop_defined reqbody "abstract" Hu Hn) as [ab Hab].
  split.
  - rewrite (contact_handler_read e reqbody fn em nb msg Hfn Hem Hnb Hmsg).
    unfold contact_after_read. destruct contact_missing.
    + unfold respond. rewrite Hres. do 3 eexists.
      split; [reflexivity | split; [reflexivity | lia]].
    + edestruct try_block_responds as (w' & code & b & Hrun & Hw' & Hc); [exact Hres|].
      rewrite Hrun. do 3 eexists. split; [reflexivity | split; [exact Hw' | lia]].
  - rewrite (paper_handler_read e reqbody ti em fu ins ca ab Hti Hem Hfu Hins Hca Hab).
    unfold paper_after_read. destruct file as [f|].
    + edestruct try_block_responds as (w' & code & b & Hrun & Hw' & Hc); [exact Hres|].
      rewrite Hrun. do 3 eexists. split; [reflexivity | split; [exact Hw' | lia]].
    + unfold respond. rewrite Hres. do 3 eexists.
      split; [reflexivity | split; [reflexivity | lia]].
Qed.

(** The [try] block of either handler hands the notification to the
    relay first, whatever the relay answers; when it is delivered and the
    confirmation is built, the confirmation comes next. *)
Lemma try_block_sends ma (oc : option mail) ok fail label (w : world R) :
  w_res w = None ->
  exists l : list mail,
    w_sent (snd (st_catch (admin <- build (Some ma) ;; send_mail admin ;;
                           confirm <- build oc ;; send_mail confirm ;;
                           respond 200 (message_body ok))
                          (fun error => console_error label error ;;
                                        respond 500 (error_body fail)) w)) =
      w_sent w ++ ma :: l /\
    (forall r1 mc, relay_send (w_relay w) ma = (r1, Delivered) -> oc = Some mc ->
                   exists l' : list mail, l = mc :: l').
Proof.
  intros Hres.
  destruct (relay_send (w_relay w) ma) as [r1 [|why1]] eqn:E1; [destruct oc as [mc|]|].
  - destruct (relay_send r1 mc) as [r2 [|why2]] eqn:E2; run_world;
      (eexists; split; [now rewrite <- app_assoc
                       | intros r1' mc' Hd Hc; injection Hd as <-; injection Hc as <-; eauto]).
  - run_world. exists []. split; [reflexivity | discriminate].
  - run_world. exists []. split; [reflexivity | intros ? ? Hd; discriminate Hd].
Qed.

(** C22. The guard of line 42 answers 400 exactly when one of the four
    contact fields is [undefined], [null], [false], [0] or the empty
    string: with any other values the request goes on to the [try]
    block, whose answers are 200 and 500. *)
Theorem contact_guard_exact reqbody fn em nb msg (w : world R) :
  get_prop reqbody "firstName" = Some fn -> get_prop reqbody "email" = Some em ->
  get_prop reqbody "number" = Some nb -> get_prop reqbody "message" = Some msg ->
  w_res w = None ->
  option_map status (w_res (snd (contact_handler e reqbody w))) = Some 400%Z <->
  Exists (fun v => v = JUndefined \/ v = JNull \/ v = JBool false \/ v = JNum 0 \/ v = JStr "")
         [fn; em; nb; msg].
Proof.
  intros H1 H2 H3 H4 Hres. rewrite (contact_handler_read e reqbody fn em nb msg H1 H2 H3 H4).
  rewrite <- contact_missing_iff. unfold contact_after_read.
  destruct (contact_missing fn em nb msg).
  - unfold respond. rewrite Hres. simpl. tauto.
  - edestruct try_block_responds as (w' & code & b & Hrun & Hw' & Hc); [exact Hres|].
    rewrite Hrun. simpl. rewrite Hw'. simpl.
    split; [intros Hs; injection Hs as ->; lia | discriminate].
Qed.

(** C24. The spec requires the four contact fields to be present and
    non-empty, but the code tests truthiness: a name given as an empty
    array passes the guard, whatever the other fields and the relay.
    The notification goes to the administrator with the empty name in
    its subject, and once it is delivered the confirmation follows, also
    with the empty name. *)
Theorem contact_empty_array_name_sent reqbody em nb msg se sn sm (w : world R) :
  get_prop reqbody "firstName" = Some (JArr []) -> get_prop reqbody "email" = Some em ->
  get_prop reqbody "number" = Some nb -> get_prop reqbody "message" = Some msg ->
  truthy em = true -> truthy nb = true -> truthy msg = true ->
  to_str em = Some se -> to_str nb = Some sn -> to_str msg = Some sm ->
  w_res w = None ->
  exists ma (l : list mail),
    to ma = JStr admin_address /\ subject ma = "Contact Form Submission from "%string /\
    w_sent (snd (contact_handler e reqbody w)) = w_sent w ++ ma :: l /\
    (forall r1, relay_send (w_relay w) ma = (r1, Delivered) ->
       exists mc (l' : list mail), l = mc :: l' /\ to mc = em /\ subject mc = "Thank You for Contacting Us, "%string).
Proof.
  intros H1 H2 H3 H4 Te Tn Tm Se Sn Sm Hres.
  rewrite (contact_handler_read e reqbody _ em nb msg H1 H2 H3 H4).
  unfold contact_after_read, contact_missing. simpl truthy. rewrite Te, Tn, Tm. simpl.
  unfold contact_admin_mail, contact_confirm_mail. simpl to_str. rewrite Se, Sn, Sm. cbn [obind].
  match goal with
  | |- context [st_catch (st_bind (build (Some ?m)) (fun _ => st_bind (send_mail _)
                (fun _ => st_bind (build ?oc) _))) _ w] =>
      destruct (try_block_sends m oc "Email sent successfully" "Failed to send email"
                  "Error sending email:" w Hres) as (l & Hl & Hnext); exists m, l
  end.
  split; [reflexivity | split; [reflexivity | split; [exact Hl|]]].
  intros r1 Hd. edestruct Hnext as (l' & ->); [exact Hd | reflexivity|].
  do 2 eexists. split; [reflexivity | split; reflexivity].
Qed.

(** C26. No text field of a paper submission is checked.  With a file
    and no [title] and no [email], whatever the other fields and the
    relay, the notification is handed over with the title printed as
    ["undefined"], and once it is delivered the confirmation follows,
    addressed to [undefined]. *)
Theorem paper_fields_unchecked reqbody fu ins cat abs sf si sc sa f (w : world R) :
  get_prop reqbody "title" = Some JUndefined -> get_prop reqbody "email" = Some JUndefined ->
  get_prop reqbody "fullName" = Some fu -> get_prop reqbody "institution" = Some ins ->
  get_prop reqbody "category" = Some cat -> get_prop reqbody "abstract" = Some abs ->
  to_str fu = Some sf -> to_str ins = Some si -> to_str cat = Some sc -> to_str abs = Some sa ->
  w_res w = None ->
  exists ma (l : list mail),
    to ma = JStr admin_address /\ subject ma = "Paper Submission: undefined"%string /\
    w_sent (snd (submit_paper_handler e reqbody (Some f) w)) = w_sent w ++ ma :: l /\
    (forall r1, relay_send (w_relay w) ma = (r1, Delivered) ->
       exists mc (l' : list mail), l = mc :: l' /\ to mc = JUndefined /\
                     subject mc = "Thank You for Your Paper Submission: undefined"%string).
Proof.
  intros H1 H2 H3 H4 H5 H6 Sf Si Sc Sa Hres.
  rewrite (paper_handler_read e reqbody _ _ fu ins cat abs H1 H2 H3 H4 H5 H6).
  unfold paper_after_read, paper_admin_mail, paper_confirm_mail. simpl to_str.
  rewrite Sf, Si, Sc, Sa. cbn [obind].
  match goal with
  | |- context [st_catch (st_bind (build (Some ?m)) (fun _ => st_bind (send_mail _)
                (fun _ => st_bind (build ?oc) _))) _ w] =>
      destruct (try_block_sends m oc "Paper submitted successfully" "Failed to submit paper"
                  "Error submitting paper:" w Hres) as (l & Hl & Hnext); exists m, l
  end.
  split; [reflexivity | split; [reflexivity | split; [exact Hl|]]].
  intros r1 Hd. edestruct Hnext as (l' & ->); [exact Hd | reflexivity|].
  do 2 eexists. split; [reflexivity | split; reflexivity].
Qed.
End Global.
