(* ===== verification/Recipients.v ===== *)
(** * Who a message reaches: nodemailer's reading of [to]

    The handlers pass the submitted [email] field unchanged as the [to]
    of the confirmation (lines 66 and 131 of [src/index.js]).  nodemailer
    accepts there a string holding a comma-separated address list, or an
    array of such strings.  Each string goes through its [addressparser]
    and the results are concatenated.  [recipients] models this for
    lists of plain addresses: letters, digits and [. @ _ + -], with an
    [@].  Display names, quotes, groups and comments are outside the
    model ([None]).

    [confirmation_reaches_every_address] shows what that means for the
    server.  The [email] field is never checked: a JSON array, a
    comma-separated string, or a form field sent several times (an array
    after multer, see [Forms]) makes one submission mail a confirmation
    to every address it lists. *)

From Stdlib Require Import String Ascii List Bool Arith.
From S2P Require Import Prelude Text JsValue Forms Validate Mail Runtime Handlers.
Import ListNotations.
Open Scope icset_scope.
Local Open Scope string_scope.

Definition addr_char (c : ascii) : bool :=
  let n := nat_of_ascii c in
  (Nat.leb 48 n && Nat.leb n 57) || (Nat.leb 65 n && Nat.leb n 90)
  || (Nat.leb 97 n && Nat.leb n 122)
  || existsb (Ascii.eqb c) ["."; "@"; "_"; "+"; "-"]%char.

(** An address [addressparser] returns as it is. *)
Definition plain_address (s : string) : bool :=
  negb (String.eqb s "") && forallb addr_char (list_ascii_of_string s)
  && negb (char_free "@" s).

(** [addressparser(s)] on a comma-separated list of plain addresses. *)
Definition parse_address_list (s : string) : option (list string) :=
  let parts := map trim (split_on "," s) in
  if forallb plain_address parts then Some parts else None.

(** The addresses nodemailer sends a message with this [to] to. *)
Definition recipients (to : jsval) : option (list string) :=
  match to with
  | JStr s => parse_address_list s
  | JArr xs =>
      option_map (@concat string)
        (omap (fun x => match x with JStr s => parse_address_list s | _ => None end) xs)
  | _ => None
  end.

(** A relay that accepts every message. *)
Definition delivers_all {R} `{MailRelay R} : Prop :=
  forall r m, snd (relay_send r m) = Delivered.

(** ** Address lists *)

Lemma plain_address_ws_free a : plain_address a = true -> ws_free a = true.
Proof.
  unfold plain_address, ws_free. rewrite !andb_true_iff. intros [[_ Ha] _].
  rewrite forallb_forall in *. intros c Hc. specialize (Ha c Hc).
  unfold addr_char in Ha. unfold is_ws.
  destruct c as [[] [] [] [] [] [] [] []]; try reflexivity; discriminate.
Qed.

Lemma plain_address_comma_free a : plain_address a = true -> char_free "," a = true.
Proof.
  unfold plain_address. rewrite !andb_true_iff. intros [[_ Ha] _].
  induction a as [|c a IH]; [reflexivity|]. simpl in *.
  apply andb_true_iff in Ha as [Hc Ha].
  destruct c as [[] [] [] [] [] [] [] []]; try discriminate; simpl; auto.
Qed.

Lemma parse_address_list_one a : plain_address a = true -> parse_address_list a = Some [a].
Proof.
  intros Ha. unfold parse_address_list.
  rewrite split_on_free by (now apply plain_address_comma_free). simpl.
  rewrite trim_free by (now apply plain_address_ws_free). now rewrite Ha.
Qed.

(** A string ["a, b, c"] lists the addresses [a], [b] and [c]. *)
Lemma parse_address_list_join a rest :
  Forall (fun x => plain_address x = true) (a :: rest) ->
  parse_address_list (join ", " (a :: rest)) = Some (a :: rest).
Proof.
  intros Hall. unfold parse_address_list.
  rewrite split_on_join; [| reflexivity |].
  2:{ eapply Forall_impl; [|exact Hall]. intros x. apply plain_address_comma_free. }
  inversion Hall as [|? ? Ha Hrest]; subst. simpl.
  rewrite trim_free by (now apply plain_address_ws_free). rewrite map_map.
  rewrite (map_ext_in _ (fun x => x)), map_id.
  - rewrite Ha. simpl. replace (forallb plain_address rest) with true; [reflexivity|].
    symmetry. apply forallb_forall. intros x Hx. rewrite Forall_forall in Hrest. auto.
  - intros x Hx. apply trim_space, plain_address_ws_free.
    rewrite Forall_forall in Hrest. auto.
Qed.

(** An array of plain addresses lists them all. *)
Lemma recipients_array addrs :
  Forall (fun x => plain_address x = true) addrs ->
  recipients (JArr (map JStr addrs)) = Some addrs.
Proof.
  intros Hall. simpl.
  assert (Homap : omap (fun x => match x with JStr s => parse_address_list s | _ => None end)
                       (map JStr addrs) = Some (map (fun a => [a]) addrs)).
  { induction Hall as [|a addrs Ha Hrest IH]; [reflexivity|]. simpl.
    rewrite parse_address_list_one by exact Ha. rewrite IH. reflexivity. }
  rewrite Homap. simpl. f_equal. clear Hall Homap.
  induction addrs as [|a addrs IH]; simpl; congruence.
Qed.

(** What multer stores for a name sent one or more times lists every
    value sent. *)
Lemma recipients_collected vs v :
  Forall (fun x => plain_address x = true) vs -> collected vs = Some v -> recipients v = Some vs.
Proof.
  intros Hall. destruct vs as [|a [|b vs]]; simpl; [discriminate| |].
  - intros [= <-]. simpl. apply parse_address_list_one. now inversion Hall.
  - intros [= <-]. exact (recipients_array (a :: b :: vs) Hall).
Qed.

(** ** The confirmation goes to [to = email] *)

Lemma to_str_strings vs : to_str (JArr (map JStr vs)) = Some (String.concat "," vs).
Proof.
  simpl. assert (H : omap (fun x => match x with JUndefined | JNull => Some "" | _ => to_str x end)
                          (map JStr vs) = Some vs)
    by (induction vs as [|v vs IH]; simpl; [reflexivity | now rewrite IH]).
  now rewrite H.
Qed.

(** Every field multer builds prints without throwing. *)
Lemma multer_field_to_str raw fields k :
  multer_fields raw = Some fields -> exists s, to_str (field fields k) = Some s.
Proof.
  intros Hm. unfold field. rewrite (multer_fields_assoc _ _ k Hm).
  destruct (field_values k raw) as [|x [|y ys]].
  - exists "undefined". reflexivity.
  - exists x. reflexivity.
  - exists (String.concat "," (x :: y :: ys)). exact (to_str_strings (x :: y :: ys)).
Qed.

Section Sending.
Context {R : Type} `{MailRelay R}.
Hypothesis deliver : delivers_all.

Lemma relay_delivered r m : exists r', relay_send r m = (r', Delivered).
Proof.
  pose proof (deliver r m) as Hd. destruct (relay_send r m) as [r' d]. simpl in Hd. subst. eauto.
Qed.

Lemma contact_confirmation_sent e reqbody fn em nb msg a b c d (w : world R) :
  get_prop reqbody "firstName" = Some fn -> get_prop reqbody "email" = Some em ->
  get_prop reqbody "number" = Some nb -> get_prop reqbody "message" = Some msg ->
  contact_missing fn em nb msg = false ->
  to_str fn = Some a -> to_str em = Some b -> to_str nb = Some c -> to_str msg = Some d ->
  w_res w = None ->
  exists mc, In mc (w_sent (snd (contact_handler e reqbody w))) /\ to mc = em.
Proof.
  intros Hf He Hn Hm Hmiss Ha Hb Hc Hd Hres.
  rewrite (contact_handler_read e reqbody fn em nb msg Hf He Hn Hm w). unfold contact_after_read.
  assert (Hadm : contact_admin_mail e fn em nb msg <> None)
    by (unfold contact_admin_mail; rewrite Ha, Hb, Hc, Hd; discriminate).
  assert (Hcnf : contact_confirm_mail e fn em msg <> None)
    by (unfold contact_confirm_mail; rewrite Ha, Hd; discriminate).
  destruct (contact_admin_mail e fn em nb msg) as [ma|] eqn:Ea; [|congruence].
  destruct (contact_confirm_mail e fn em msg) as [mc|] eqn:Ec; [|congruence].
  destruct (relay_delivered (w_relay w) ma) as [r1 E1].
  destruct (relay_delivered r1 mc) as [r2 E2].
  exists mc. run_world. split.
  - rewrite !in_app_iff. simpl. auto.
  - unfold contact_confirm_mail in Ec. inv_option. reflexivity.
Qed.

Lemma paper_confirmation_sent e reqbody t em fnm ins cat abs f (w : world R) :
  get_prop reqbody "title" = Some t -> get_prop reqbody "email" = Some em ->
  get_prop reqbody "fullName" = Some fnm -> get_prop reqbody "institution" = Some ins ->
  get_prop reqbody "category" = Some cat -> get_prop reqbody "abstract" = Some abs ->
  (forall v, In v [t; em; fnm; ins; cat; abs] -> exists s, to_str v = Some s) ->
  w_res w = None ->
  exists mc, In mc (w_sent (snd (submit_paper_handler e reqbody (Some f) w))) /\ to mc = em.
Proof.
  intros Ht He Hf Hi Hc Ha Hs Hres.
  rewrite (paper_handler_read e reqbody t em fnm ins cat abs Ht He Hf Hi Hc Ha w).
  unfold paper_after_read.
  destruct (Hs t ltac:(simpl; tauto)) as [st Est], (Hs em ltac:(simpl; tauto)) as [sem Esem],
    (Hs fnm ltac:(simpl; tauto)) as [sf Esf], (Hs ins ltac:(simpl; tauto)) as [si Esi],
    (Hs cat ltac:(simpl; tauto)) as [sc Esc], (Hs abs ltac:(simpl; tauto)) as [sa Esa].
  assert (Hadm : paper_admin_mail e t em fnm ins cat abs f <> None)
    by (unfold paper_admin_mail; rewrite Est, Esem, Esf, Esi, Esc, Esa; discriminate).
  assert (Hcnf : paper_confirm_mail e t em fnm <> None)
    by (unfold paper_confirm_mail; rewrite Est, Esf; discriminate).
  destruct (paper_admin_mail e t em fnm ins cat abs f) as [ma|] eqn:Ea; [|congruence].
  destruct (paper_confirm_mail e t em fnm) as [mc|] eqn:Ec; [|congruence].
  destruct (relay_delivered (w_relay w) ma) as [r1 E1].
  destruct (relay_delivered r1 mc) as [r2 E2].
  exists mc. run_world. split.
  - rewrite !in_app_iff. simpl. auto.
  - unfold paper_confirm_mail in Ec. inv_option. reflexivity.
Qed.
End Sending.

Lemma join_not_empty sep a rest : a <> "" -> join sep (a :: rest) <> "".
Proof.
  destruct a as [|c a]; [congruence|]. intros _. destruct rest; simpl; discriminate.
Qed.

Lemma plain_address_not_empty a : plain_address a = true -> a <> "".
Proof. intros Ha ->. discriminate. Qed.

(** C23. The [email] field is used as the confirmation's [to] without any
    check, so one submission can make the server mail many people.  With
    a relay that accepts everything, the following requests hand the
    relay a confirmation whose recipients are every address [a :: rest]:
    - a contact request whose [email] is the JSON array of the addresses;
    - a contact request whose [email] is the string ["a, b, ..."];
    - a paper submission whose form repeats the [email] field once per
      address. *)
Theorem confirmation_reaches_every_address {R} `{MailRelay R} e (w : world R) :
  delivers_all -> w_res w = None ->
  (forall fn nb msg a rest email,
     fn <> "" -> nb <> "" -> msg <> "" ->
     Forall (fun x => plain_address x = true) (a :: rest) ->
     email = JArr (map JStr (a :: rest)) \/ email = JStr (join ", " (a :: rest)) ->
     exists mc,
       In mc (w_sent (snd (contact_handler e
                             (JObj [("firstName", JStr fn); ("email", email);
                                    ("number", JStr nb); ("message", JStr msg)]) w))) /\
       recipients (to mc) = Some (a :: rest)) /\
  (forall raw fields f,
     multer_fields raw = Some fields -> field_values "email" raw <> [] ->
     Forall (fun x => plain_address x = true) (field_values "email" raw) ->
     exists mc,
       In mc (w_sent (snd (submit_paper_handler e (JObj fields) (Some f) w))) /\
       recipients (to mc) = Some (field_values "email" raw)).
Proof.
  intros Hdel Hres. split.
  - intros fn nb msg a rest email Hfn Hnb Hmsg Hall Hemail.
    assert (Hplain : plain_address a = true) by (now inversion Hall).
    assert (Hrec : recipients email = Some (a :: rest) /\ truthy email = true /\
                   exists s, to_str email = Some s).
    { destruct Hemail as [-> | ->].
      - split; [now apply recipients_array|]. split; [reflexivity|]. eexists; apply to_str_strings.
      - split; [now apply parse_address_list_join|]. split; [|eexists; reflexivity].
        cbn [truthy]. apply negb_true_iff, String.eqb_neq, join_not_empty.
        exact (plain_address_not_empty a Hplain). }
    destruct Hrec as (Hrec & Htr & s & Hs).
    edestruct (contact_confirmation_sent Hdel e
                 (JObj [("firstName", JStr fn); ("email", email);
                        ("number", JStr nb); ("message", JStr msg)])
                 (JStr fn) email (JStr nb) (JStr msg) fn s nb msg w)
      as (mc & Hin & Hto); try reflexivity; try eassumption.
    + unfold contact_missing. simpl. rewrite Htr.
      apply String.eqb_neq in Hfn, Hnb, Hmsg. now rewrite Hfn, Hnb, Hmsg.
    + exists mc. split; [exact Hin | now rewrite Hto].
  - intros raw fields f Hm Hne Hall.
    edestruct (paper_confirmation_sent Hdel e (JObj fields) (field fields "title")
                 (field fields "email") (field fields "fullName") (field fields "institution")
                 (field fields "category") (field fields "abstract") f w)
      as (mc & Hin & Hto); try reflexivity; try exact Hres.
    + intros v Hv. simpl in Hv.
      repeat (destruct Hv as [<- | Hv]; [now apply (multer_field_to_str raw) |]). destruct Hv.
    + exists mc. split; [exact Hin|]. rewrite Hto. unfold field.
      rewrite (multer_fields_assoc _ _ "email" Hm).
      destruct (collected (field_values "email" raw)) as [v|] eqn:Hc.
      * exact (recipients_collected _ _ Hall Hc).
      * destruct (field_values "email" raw) as [|x [|y ys]]; [congruence | discriminate | discriminate].
Qed.
