(* ===== verification/Resume.v ===== *)
(** * The handlers as resumptions: suspended at each [await]

    An async handler of [src/index.js] runs synchronously until it reaches
    [await transporter.sendMail(...)] (lines 50, 64, 108, 129).  It then
    yields to the event loop, and it resumes when the relay answers.  To
    model requests that run concurrently (spec section 5), a handler is
    written here as a finite tree of events ([proc]):
    - [PSend m k]: hand [m] to the relay and suspend; resume with [k d]
      when the relay answers [d];
    - [PLog] and [PRespond]: the synchronous [console.error] and
      [res.status(..).json(..)].  [PRespond]'s continuation learns whether
      the response could still be sent;
    - [PRet] and [PThrow]: the end of the handler, normal or by an
      exception.
    The trees are inductive, not coinductive, because the handlers never
    loop.  [interp] runs a tree in the state monad of [Runtime].  The two
    handlers are written again over [proc], statement by statement, and
    [contact_proc_equiv] and [paper_proc_equiv] show that running them
    with [interp] is equivalent to [contact_handler] and
    [submit_paper_handler]. *)

From Stdlib Require Import String List ZArith Bool Lia Morphisms Setoid.
From S2P Require Import Prelude JsValue Validate Mail Runtime Handlers.
Import ListNotations.
Open Scope icset_scope.

Inductive proc (A : Type) : Type :=
| PRet (a : A)
| PThrow (e : js_error)
| PSend (m : mail) (k : delivery -> proc A)
| PLog (label : string) (err : js_error) (k : proc A)
| PRespond (code : Z) (b : jsval) (k : bool -> proc A).
Arguments PRet {A} a.
Arguments PThrow {A} e.
Arguments PSend {A} m k.
Arguments PLog {A} label err k.
Arguments PRespond {A} code b k.

(** ** Combinators *)

Fixpoint p_bind {A B} (p : proc A) (f : A -> proc B) : proc B :=
  match p with
  | PRet a => f a
  | PThrow e => PThrow e
  | PSend m k => PSend m (fun d => p_bind (k d) f)
  | PLog l err k => PLog l err (p_bind k f)
  | PRespond c b k => PRespond c b (fun ok => p_bind (k ok) f)
  end.

(** [try { p } catch (e) { h(e) }]: the handler replaces every [PThrow]. *)
Fixpoint p_catch {A} (p : proc A) (h : js_error -> proc A) : proc A :=
  match p with
  | PRet a => PRet a
  | PThrow e => h e
  | PSend m k => PSend m (fun d => p_catch (k d) h)
  | PLog l err k => PLog l err (p_catch k h)
  | PRespond c b k => PRespond c b (fun ok => p_catch (k ok) h)
  end.

(** [await transporter.sendMail(m)]: a rejection is thrown at the
    [await]. *)
Definition p_send (m : mail) : proc unit :=
  PSend m (fun d => match d with
                    | Delivered => PRet tt
                    | Failed reason => PThrow (SendError reason)
                    end).

Definition p_log (label : string) (err : js_error) : proc unit :=
  PLog label err (PRet tt).

(** [res.status(code).json(b)]: a second response throws. *)
Definition p_respond (code : Z) (b : jsval) : proc unit :=
  PRespond code b (fun ok => if ok then PRet tt else PThrow HeadersSent).

Definition p_of_option {A} (err : js_error) (o : option A) : proc A :=
  match o with Some a => PRet a | None => PThrow err end.

Declare Scope proc_scope.
Delimit Scope proc_scope with proc.
Notation "x <- m ;; k" := (p_bind m (fun x => k))
  (at level 61, m at next level, right associativity) : proc_scope.
Notation "m ;; k" := (p_bind m (fun _ => k))
  (at level 61, right associativity) : proc_scope.

(** ** The handlers over [proc] *)

Section Procs.
Variable e : env.
Local Open Scope proc_scope.

(** Lines 42-84. *)
Definition contact_proc_after_read (firstName email number message : jsval) : proc unit :=
  if contact_missing firstName email number message then
    p_respond 400 (error_body "All fields are required")
  else
    p_catch
      (admin <- p_of_option TypeError (contact_admin_mail e firstName email number message) ;;
       p_send admin ;;
       confirm <- p_of_option TypeError (contact_confirm_mail e firstName email message) ;;
       p_send confirm ;;
       p_respond 200 (message_body "Email sent successfully"))
      (fun error =>
         p_log "Error sending email:" error ;;
         p_respond 500 (error_body "Failed to send email")).

(** Lines 34-85. *)
Definition contact_proc (reqbody : jsval) : proc unit :=
  firstName <- p_of_option TypeError (get_prop reqbody "firstName") ;;
  email <- p_of_option TypeError (get_prop reqbody "email") ;;
  number <- p_of_option TypeError (get_prop reqbody "number") ;;
  message <- p_of_option TypeError (get_prop reqbody "message") ;;
  contact_proc_after_read firstName email number message.

(** Lines 98-150. *)
Definition paper_proc_after_read (title email fullName institution category abstract : jsval)
           (file : option upload) : proc unit :=
  match file with
  | None => p_respond 400 (error_body "No file uploaded")
  | Some f =>
      p_catch
        (admin <- p_of_option TypeError
                    (paper_admin_mail e title email fullName institution category abstract f) ;;
         p_send admin ;;
         confirm <- p_of_option TypeError (paper_confirm_mail e title email fullName) ;;
         p_send confirm ;;
         p_respond 200 (message_body "Paper submitted successfully"))
        (fun error =>
           p_log "Error submitting paper:" error ;;
           p_respond 500 (error_body "Failed to submit paper"))
  end.

(** Lines 89-151. *)
Definition paper_proc (reqbody : jsval) (file : option upload) : proc unit :=
  title <- p_of_option TypeError (get_prop reqbody "title") ;;
  email <- p_of_option TypeError (get_prop reqbody "email") ;;
  fullName <- p_of_option TypeError (get_prop reqbody "fullName") ;;
  institution <- p_of_option TypeError (get_prop reqbody "institution") ;;
  category <- p_of_option TypeError (get_prop reqbody "category") ;;
  abstract <- p_of_option TypeError (get_prop reqbody "abstract") ;;
  paper_proc_after_read title email fullName institution category abstract file.
End Procs.

(** ** Running a tree in the state monad *)

Section Interp.
Context {R : Type} `{MailRelay R}.

Fixpoint interp {A} (p : proc A) : M A :=
  match p with
  | PRet a => st_ret a
  | PThrow err => st_throw err
  | PSend m k =>
      fun w =>
        let (r', d) := relay_send (w_relay w) m in
        interp (k d) {| w_relay := r'; w_sent := w_sent w ++ [m];
                        w_log := w_log w; w_res := w_res w |}
  | PLog l err k =>
      fun w => interp k {| w_relay := w_relay w; w_sent := w_sent w;
                           w_log := w_log w ++ [(l, err)]; w_res := w_res w |}
  | PRespond c b k =>
      fun w =>
        match w_res w with
        | Some _ => interp (k false) w
        | None => interp (k true) (answered w c b)
        end
  end.

Lemma interp_bind {A B} (p : proc A) (f : A -> proc B) :
  interp (p_bind p f) ≈ st_bind (interp p) (fun a => interp (f a)).
Proof.
  induction p as [a|err|m k IH|l err k IH|c b k IH]; intros w; simpl;
    unfold st_bind, st_catch in *; simpl;
    try reflexivity.
  - destruct (relay_send (w_relay w) m). apply IH.
  - apply IH.
  - destruct (w_res w); apply IH.
Qed.

Lemma interp_catch {A} (p : proc A) (h : js_error -> proc A) :
  interp (p_catch p h) ≈ st_catch (interp p) (fun err => interp (h err)).
Proof.
  induction p as [a|err|m k IH|l err k IH|c b k IH]; intros w; simpl;
    unfold st_bind, st_catch in *; simpl;
    try reflexivity.
  - destruct (relay_send (w_relay w) m). apply IH.
  - apply IH.
  - destruct (w_res w); apply IH.
Qed.

Lemma interp_send m : interp (p_send m) ≈ send_mail m.
Proof.
  intros w. unfold send_mail. simpl.
  destruct (relay_send (w_relay w) m) as [r' [|reason]]; reflexivity.
Qed.

Lemma interp_log l err : interp (p_log l err) ≈ console_error l err.
Proof. intros w. reflexivity. Qed.

Lemma interp_respond c b : interp (p_respond c b) ≈ respond c b.
Proof. intros w. unfold respond. simpl. now destruct (w_res w). Qed.

Lemma interp_of_option {A} err (o : option A) :
  interp (p_of_option err o) ≈ st_of_option err o.
Proof. destruct o; intros w; reflexivity. Qed.

(** Congruence forms, to walk a handler statement by statement. *)
Lemma interp_bind_cong {A B} (p : proc A) (f : A -> proc B) m g :
  interp p ≈ m -> (forall a, interp (f a) ≈ g a) ->
  interp (p_bind p f) ≈ st_bind m g.
Proof.
  intros Hp Hf. rewrite interp_bind. now apply st_bind_proper.
Qed.

Lemma interp_catch_cong {A} (p : proc A) h m g :
  interp p ≈ m -> (forall err, interp (h err) ≈ g err) ->
  interp (p_catch p h) ≈ st_catch m g.
Proof.
  intros Hp Hh. rewrite interp_catch. now apply st_catch_proper.
Qed.
End Interp.

(** Prove [interp p ≈ m] when [p] and [m] are written with the same
    statements. *)
Ltac interp_equiv :=
  repeat first
    [ apply interp_bind_cong; [| intro]
    | apply interp_catch_cong; [| intro]
    | apply interp_send | apply interp_log | apply interp_respond
    | apply interp_of_option
    | match goal with |- interp (if ?b then _ else _) ≈ _ => destruct b end
    | match goal with |- interp (match ?o with Some _ => _ | None => _ end) ≈ _ =>
        destruct o end ].

(** The equivalence of a handler and its tree, statement by statement. *)
Ltac handler_equiv :=
  unfold contact_proc, contact_handler, contact_proc_after_read, contact_after_read,
    paper_proc, submit_paper_handler, paper_proc_after_read, paper_after_read,
    read_prop, build;
  interp_equiv.

(** ** Equivalence with the state-monad handlers *)

Section Equivalence.
Context {R : Type} `{MailRelay R}.

(** The resumption form of the contact handler, run in the state
    monad, is equivalent to [contact_handler] on every body and world. *)
Theorem contact_proc_equiv e reqbody :
  interp (contact_proc e reqbody) ≈ contact_handler e reqbody.
Proof. handler_equiv. Qed.

(** The same for the paper handler. *)
Theorem paper_proc_equiv e reqbody file :
  interp (paper_proc e reqbody file) ≈ submit_paper_handler e reqbody file.
Proof. handler_equiv. Qed.
End Equivalence.
