(* ===== verification/Interleave.v ===== *)
(** * Concurrent requests interleaved at their awaits

    Spec section 5: several requests may be in flight at once.  Each one
    suspends at every [await transporter.sendMail(...)], and the event loop
    resumes the requests in any order.  The only shared resources are the
    relay and the order in which it receives messages.

    A [config] holds the relay state, the global log of messages handed to
    the relay (tagged with the id of the request that sent them), and the
    requests in flight.  Each request is a [thread]: its id, its own
    [console.error] lines and response, and the rest of its handler as a
    [proc] of [Resume].  [step] lets any request advance by one event.  For
    a send, the relay is called and the request resumes with its answer.
    Logging and responding are separate steps as well.  That allows more
    interleavings than the event loop does (it runs synchronous code
    without switching), so whatever holds for every [step] sequence holds
    for the real schedules too.

    The theorems:
    - every interleaving terminates, whatever the requests and the relay;
    - from any configuration, some run finishes every request;
    - under any interleaving, the messages of each request reach the relay
      in its own program order: its notification to the administrator,
      then its confirmation;
    - a lone request, run step by step, ends exactly where
      [contact_handler] / [submit_paper_handler] ends.
    [step_at] and [run_schedule] form an executable scheduler.  Every
    run of theirs is a run of [step]. *)

From Stdlib Require Import String List ZArith Bool Lia Arith.
From S2P Require Import Prelude JsValue Validate Mail Runtime Handlers Resume.
Import ListNotations.
Open Scope icset_scope.

Record thread : Type := {
  tid : nat;
  t_log : list (string * js_error);
  t_res : option response;
  t_proc : proc unit
}.

Record config (R : Type) : Type := {
  c_relay : R;
  c_sent : list (nat * mail);
  c_threads : list thread
}.
Arguments c_relay {R}.
Arguments c_sent {R}.
Arguments c_threads {R}.

Section Steps.
Context {R : Type} `{MailRelay R}.

(** One event of one request in flight. *)
Inductive step : config R -> config R -> Prop :=
| step_send r s pre post id lg res m k r' d :
    relay_send r m = (r', d) ->
    step {| c_relay := r; c_sent := s;
            c_threads := pre ++ {| tid := id; t_log := lg; t_res := res;
                                   t_proc := PSend m k |} :: post |}
         {| c_relay := r'; c_sent := s ++ [(id, m)];
            c_threads := pre ++ {| tid := id; t_log := lg; t_res := res;
                                   t_proc := k d |} :: post |}
| step_log r s pre post id lg res l err k :
    step {| c_relay := r; c_sent := s;
            c_threads := pre ++ {| tid := id; t_log := lg; t_res := res;
                                   t_proc := PLog l err k |} :: post |}
         {| c_relay := r; c_sent := s;
            c_threads := pre ++ {| tid := id; t_log := lg ++ [(l, err)]; t_res := res;
                                   t_proc := k |} :: post |}
| step_respond r s pre post id lg res c b k :
    step {| c_relay := r; c_sent := s;
            c_threads := pre ++ {| tid := id; t_log := lg; t_res := res;
                                   t_proc := PRespond c b k |} :: post |}
         {| c_relay := r; c_sent := s;
            c_threads := pre ++ {| tid := id; t_log := lg;
                                   t_res := match res with
                                            | Some _ => res
                                            | None => Some {| status := c; body := b |}
                                            end;
                                   t_proc := k (match res with Some _ => false | None => true end) |}
                         :: post |}.

(** A request has finished when its handler has returned or thrown. *)
Definition finished (t : thread) : bool :=
  match t_proc t with PRet _ | PThrow _ => true | _ => false end.

(** The messages request [id] has handed to the relay, in order. *)
Definition proj (id : nat) (s : list (nat * mail)) : list mail :=
  map snd (filter (fun p => Nat.eqb (fst p) id) s).
End Steps.

(** ** Termination *)

(** The immediate sub-trees of a [proc]: what is left after one event. *)
Inductive psub {A} : proc A -> proc A -> Prop :=
| psub_send m k d : psub (k d) (PSend m k)
| psub_log l err k : psub k (PLog l err k)
| psub_respond c b k ok : psub (k ok) (PRespond c b k).

Lemma psub_wf {A} : well_founded (@psub A).
Proof.
  intros p. induction p as [a|err|m k IH|l err k IH|c b k IH];
    constructor; intros q Hq; inversion Hq; subst; auto.
Qed.

(** One request of the list advanced, the others unchanged. *)
Inductive one_lt {A} : list (proc A) -> list (proc A) -> Prop :=
| one_lt_here q p ps : psub q p -> one_lt (q :: ps) (p :: ps)
| one_lt_there p qs ps : one_lt qs ps -> one_lt (p :: qs) (p :: ps).

Lemma one_lt_app {A} (pre post : list (proc A)) q p :
  psub q p -> one_lt (pre ++ q :: post) (pre ++ p :: post).
Proof. intros Hq. induction pre; simpl; constructor; assumption. Qed.

Lemma one_lt_acc_cons {A} (p : proc A) ps :
  Acc psub p -> Acc one_lt ps -> Acc one_lt (p :: ps).
Proof.
  intros Hp. revert ps. induction Hp as [p Hp IHp]. intros ps Hps.
  induction Hps as [ps Hps IHps]. constructor. intros qs Hlt.
  inversion Hlt; subst.
  - apply IHp; [assumption | constructor; exact Hps].
  - apply IHps. assumption.
Qed.

Lemma one_lt_wf {A} : well_founded (@one_lt A).
Proof.
  intros ps. induction ps as [|p ps IH].
  - constructor. intros qs Hlt. inversion Hlt.
  - apply one_lt_acc_cons; [apply psub_wf | exact IH].
Qed.

Section Theorems.
Context {R : Type} `{MailRelay R}.

Lemma step_one_lt (c c' : config R) :
  step c c' -> one_lt (map t_proc (c_threads c')) (map t_proc (c_threads c)).
Proof.
  intros Hs. inversion Hs; subst; simpl; rewrite !map_app; simpl;
    apply one_lt_app; constructor.
Qed.

(** Every interleaving of any requests in flight is finite: there is
    no infinite sequence of steps, whatever the relay answers. *)
Theorem interleaving_terminates (c : config R) : Acc (fun c2 c1 => step c1 c2) c.
Proof.
  remember (map t_proc (c_threads c)) as ps eqn:E. revert c E.
  induction (one_lt_wf ps) as [ps _ IH]. intros c E. constructor. intros c' Hs.
  apply (IH (map t_proc (c_threads c'))); [subst; apply step_one_lt, Hs | reflexivity].
Qed.

Lemma forallb_false_existsb {A} (f : A -> bool) l :
  forallb f l = false -> existsb (fun x => negb (f x)) l = true.
Proof.
  induction l as [|x l IH]; simpl; [discriminate|].
  destruct (f x); simpl; auto.
Qed.

(** A request that has not finished can always take a step. *)
Lemma step_progress (c : config R) :
  existsb (fun t => negb (finished t)) (c_threads c) = true -> exists c', step c c'.
Proof.
  destruct c as [r s ts]. simpl. intros Hex.
  apply existsb_exists in Hex as (t & Hin & Hf).
  apply in_split in Hin as (pre & post & ->).
  destruct t as [id lg res [a|err|m k|l err k|c b k]]; simpl in Hf; try discriminate.
  - destruct (relay_send r m) as [r' d] eqn:E. eexists. eapply step_send. exact E.
  - eexists. apply step_log.
  - eexists. apply step_respond.
Qed.

(** From any configuration, some schedule finishes every request in
    flight: together with termination, no request is left suspended. *)
Theorem interleaving_completes (c : config R) :
  exists c', star step c c' /\ forallb finished (c_threads c') = true.
Proof.
  induction (interleaving_terminates c) as [c _ IH].
  destruct (forallb finished (c_threads c)) eqn:E.
  - exists c. split; [apply star_refl | exact E].
  - destruct (step_progress c (forallb_false_existsb _ _ E)) as [c' Hs].
    destruct (IH c' Hs) as (c'' & Hstar & Hfin).
    exists c''. split; [eapply star_step; eauto | exact Hfin].
Qed.
End Theorems.

(** ** The order of each request's messages *)

(** [sends_prefix p exp]: on every path of [p], the messages [p] hands to
    the relay are, in order, a prefix of [exp]. *)
Fixpoint sends_prefix {A} (p : proc A) (exp : list mail) : Prop :=
  match p with
  | PRet _ | PThrow _ => True
  | PSend m k =>
      match exp with
      | [] => False
      | m' :: exp' => m = m' /\ forall d, sends_prefix (k d) exp'
      end
  | PLog _ _ k => sends_prefix k exp
  | PRespond _ _ k => forall ok, sends_prefix (k ok) exp
  end.

Lemma sends_prefix_nil_any {A} (p : proc A) exp :
  sends_prefix p [] -> sends_prefix p exp.
Proof.
  induction p as [a|err|m k IH|l err k IH|c b k IH]; simpl; auto; tauto.
Qed.

Lemma sends_prefix_catch {A} (p : proc A) h exp :
  sends_prefix p exp -> (forall err, sends_prefix (h err) []) ->
  sends_prefix (p_catch p h) exp.
Proof.
  intros Hp Hh. revert exp Hp.
  induction p as [a|err|m k IH|l err k IH|c b k IH]; intros exp Hp; simpl in *; auto.
  - apply sends_prefix_nil_any, Hh.
  - destruct exp as [|m' exp]; [contradiction|]. destruct Hp as [-> Hk]. auto.
Qed.

(** Discharge [sends_prefix] of a concrete tree. *)
Ltac proc_solve :=
  simpl; repeat (match goal with
                 | |- True => exact I
                 | |- _ /\ _ => split
                 | |- ?x = ?x => reflexivity
                 | |- forall _ : bool, _ => intros []
                 | |- forall _ : delivery, _ => intros [|?]
                 | |- js_error -> _ => intros ?
                 end; simpl).

(** A request as it reaches a handler: the parsed body, and for the paper
    endpoint the multer file. *)
Inductive incoming : Type :=
| Contact (reqbody : jsval)
| Paper (reqbody : jsval) (file : option upload).

Section Expected.
Variable e : env.

Definition incoming_proc (i : incoming) : proc unit :=
  match i with
  | Contact b => contact_proc e b
  | Paper b f => paper_proc e b f
  end.

(** The two messages the request would send if nothing failed: the
    notification to the administrator, then the confirmation. *)
Definition incoming_expected (i : incoming) : list mail :=
  match i with
  | Contact b =>
      match get_prop b "firstName", get_prop b "email", get_prop b "number",
            get_prop b "message" with
      | Some fn, Some em, Some nb, Some msg =>
          match contact_compose e fn em nb msg with
          | Some (a, c) => [a; c]
          | None => []
          end
      | _, _, _, _ => []
      end
  | Paper b f =>
      match get_prop b "title", get_prop b "email", get_prop b "fullName",
            get_prop b "institution", get_prop b "category", get_prop b "abstract", f with
      | Some t, Some em, Some fnm, Some ins, Some cat, Some abs, Some up =>
          match paper_compose e t em fnm ins cat abs up with
          | Some (a, c) => [a; c]
          | None => []
          end
      | _, _, _, _, _, _, _ => []
      end
  end.
End Expected.

(** Reading the body: either a destructuring throws [TypeError], or the
    handler goes on with the values read. *)
Lemma contact_proc_read e b :
  (contact_proc e b = PThrow TypeError /\ incoming_expected e (Contact b) = []) \/
  exists fn em nb msg,
    contact_proc e b = contact_proc_after_read e fn em nb msg /\
    incoming_expected e (Contact b) =
      match contact_compose e fn em nb msg with Some (a, c) => [a; c] | None => [] end.
Proof.
  unfold contact_proc, incoming_expected.
  destruct (get_prop b "firstName") as [fn|]; [|now left].
  destruct (get_prop b "email") as [em|]; [|now left].
  destruct (get_prop b "number") as [nb|]; [|now left].
  destruct (get_prop b "message") as [msg|]; [|now left].
  right. now exists fn, em, nb, msg.
Qed.

Lemma paper_proc_read e b f :
  (paper_proc e b f = PThrow TypeError /\ incoming_expected e (Paper b f) = []) \/
  exists t em fnm ins cat abs,
    paper_proc e b f = paper_proc_after_read e t em fnm ins cat abs f /\
    incoming_expected e (Paper b f) =
      match f with
      | Some up =>
          match paper_compose e t em fnm ins cat abs up with Some (a, c) => [a; c] | None => [] end
      | None => []
      end.
Proof.
  unfold paper_proc, incoming_expected.
  destruct (get_prop b "title") as [t|]; [|now left].
  destruct (get_prop b "email") as [em|]; [|now left].
  destruct (get_prop b "fullName") as [fnm|]; [|now left].
  destruct (get_prop b "institution") as [ins|]; [|now left].
  destruct (get_prop b "category") as [cat|]; [|now left].
  destruct (get_prop b "abstract") as [abs|]; [|now left].
  right. exists t, em, fnm, ins, cat, abs. split; [reflexivity|]. now destruct f.
Qed.

(** Prove a property of every path of [incoming_proc e i] that holds
    of a [PThrow] and can be checked on each concrete tree by
    [proc_solve]. *)
Ltac incoming_solve :=
  match goal with
  | |- context [incoming_proc ?e ?i] =>
      let b := fresh "b" in let f := fresh "f" in
      destruct i as [b|b f]; simpl;
      [ let fn := fresh "fn" in let em := fresh "em" in
        let nb := fresh "nb" in let msg := fresh "msg" in
        destruct (contact_proc_read e b) as [[-> _] | (fn & em & nb & msg & -> & _)]; [exact I|];
        unfold contact_proc_after_read;
        destruct (contact_missing fn em nb msg); [proc_solve|];
        destruct (contact_admin_mail e fn em nb msg); [|proc_solve];
        destruct (contact_confirm_mail e fn em msg); proc_solve
      | let t := fresh "t" in let em := fresh "em" in let fnm := fresh "fnm" in
        let ins := fresh "ins" in let cat := fresh "cat" in let abs := fresh "abs" in
        let up := fresh "up" in
        destruct (paper_proc_read e b f)
          as [[-> _] | (t & em & fnm & ins & cat & abs & -> & _)]; [exact I|];
        unfold paper_proc_after_read; destruct f as [up|]; [|proc_solve];
        destruct (paper_admin_mail e t em fnm ins cat abs up); [|proc_solve];
        destruct (paper_confirm_mail e t em fnm); proc_solve ]
  end.

Lemma contact_proc_sends_prefix e b :
  sends_prefix (contact_proc e b) (incoming_expected e (Contact b)).
Proof.
  destruct (contact_proc_read e b) as [[-> _] | (fn & em & nb & msg & -> & ->)]; [exact I|].
  unfold contact_proc_after_read, contact_compose.
  destruct (contact_missing fn em nb msg); [proc_solve|].
  apply sends_prefix_catch; [|proc_solve].
  destruct (contact_admin_mail e fn em nb msg) eqn:Ha; [|exact I].
  rewrite (contact_confirm_of_admin _ _ _ _ _ _ Ha). proc_solve.
Qed.

Lemma paper_proc_sends_prefix e b f :
  sends_prefix (paper_proc e b f) (incoming_expected e (Paper b f)).
Proof.
  destruct (paper_proc_read e b f)
    as [[-> _] | (t & em & fnm & ins & cat & abs & -> & ->)]; [exact I|].
  unfold paper_proc_after_read, paper_compose.
  destruct f as [up|]; [|proc_solve].
  apply sends_prefix_catch; [|proc_solve].
  destruct (paper_admin_mail e t em fnm ins cat abs up) eqn:Ha; [|exact I].
  rewrite (paper_confirm_of_admin _ _ _ _ _ _ _ _ _ Ha). proc_solve.
Qed.

Lemma incoming_sends_prefix e i : sends_prefix (incoming_proc e i) (incoming_expected e i).
Proof. destruct i; [apply contact_proc_sends_prefix | apply paper_proc_sends_prefix]. Qed.

Section Order.
Context {R : Type} `{MailRelay R}.

(** Every request in flight, with its own expected list [exp id], has so
    far sent a prefix of it, and what it will still send continues it. *)
Definition ordered (exp : nat -> list mail) (c : config R) : Prop :=
  NoDup (map tid (c_threads c)) /\
  forall t, In t (c_threads c) ->
    exists rest, proj (tid t) (c_sent c) ++ rest = exp (tid t) /\
                 sends_prefix (t_proc t) rest.

Lemma proj_snoc_same id s m : proj id (s ++ [(id, m)]) = proj id s ++ [m].
Proof. unfold proj. rewrite filter_app, map_app. simpl. now rewrite Nat.eqb_refl. Qed.

Lemma proj_snoc_other id id' s m : id <> id' -> proj id (s ++ [(id', m)]) = proj id s.
Proof.
  intros Hne. unfold proj. rewrite filter_app, map_app. simpl.
  destruct (Nat.eqb_spec id' id); [congruence|]. apply app_nil_r.
Qed.

Lemma in_mid_inv {A} (x y : A) pre post :
  In x (pre ++ y :: post) -> x = y \/ In x (pre ++ post).
Proof.
  rewrite !in_app_iff. simpl. intuition.
Qed.

Lemma in_mid_other {A} (x z : A) pre post :
  In x (pre ++ post) -> In x (pre ++ z :: post).
Proof. rewrite !in_app_iff. simpl. intuition. Qed.

Lemma nodup_mid_other (t t0 : thread) pre post :
  NoDup (map tid (pre ++ t :: post)) -> In t0 (pre ++ post) -> tid t0 <> tid t.
Proof.
  rewrite map_app. simpl. intros Hnd Hin Heq.
  apply NoDup_remove_2 in Hnd. apply Hnd. rewrite <- map_app, <- Heq.
  now apply in_map.
Qed.

(** Every step keeps the order of every request. *)
Lemma ordered_step exp (c c' : config R) : step c c' -> ordered exp c -> ordered exp c'.
Proof.
  intros Hs [Hnd Hall]. unfold ordered.
  inversion Hs; subst; clear Hs; simpl in *;
    (split; [rewrite !map_app in *; exact Hnd|]);
    intros t0 Hin; apply in_mid_inv in Hin as [-> | Hin]; simpl;
    first [ destruct (Hall _ (in_mid_other _ _ _ _ Hin)) as (rest & Heq & Hsp)
          | destruct (Hall _ (in_elt _ _ _)) as (rest & Heq & Hsp) ];
    simpl in Heq, Hsp.
  - destruct rest as [|m' rest]; [contradiction|]. destruct Hsp as [<- Hk].
    exists rest. split; [rewrite proj_snoc_same, <- app_assoc; exact Heq | apply Hk].
  - exists rest. split; [|exact Hsp].
    rewrite proj_snoc_other; [exact Heq|]. exact (nodup_mid_other _ t0 _ _ Hnd Hin).
  - exists rest. auto.
  - exists rest. auto.
  - exists rest. auto.
  - exists rest. auto.
Qed.

Lemma ordered_star exp (c c' : config R) : star step c c' -> ordered exp c -> ordered exp c'.
Proof. apply star_invariant, ordered_step. Qed.
End Order.

(** ** Requests started together *)

Section Requests.
Context {R : Type} `{MailRelay R}.
Variable e : env.

Fixpoint lookup_req (id : nat) (reqs : list (nat * incoming)) : option incoming :=
  match reqs with
  | [] => None
  | (id', i) :: rs => if Nat.eqb id' id then Some i else lookup_req id rs
  end.

(** A request accepted by the server, before its handler has run. *)
Definition spawn (req : nat * incoming) : thread :=
  {| tid := fst req; t_log := []; t_res := None; t_proc := incoming_proc e (snd req) |}.

(** The requests [reqs] all accepted, none of them resumed yet. *)
Definition initial (r0 : R) (reqs : list (nat * incoming)) : config R :=
  {| c_relay := r0; c_sent := []; c_threads := map spawn reqs |}.

Definition req_expected (reqs : list (nat * incoming)) (id : nat) : list mail :=
  match lookup_req id reqs with Some i => incoming_expected e i | None => [] end.

Lemma lookup_req_In id i reqs :
  NoDup (map fst reqs) -> In (id, i) reqs -> lookup_req id reqs = Some i.
Proof.
  induction reqs as [|[id' i'] rs IH]; simpl; [contradiction|].
  intros Hnd [Heq | Hin]; inversion Hnd as [|x l Hnotin Hnd' Hx]; subst.
  - injection Heq as -> ->. now rewrite Nat.eqb_refl.
  - destruct (Nat.eqb_spec id' id); auto. subst.
    exfalso. apply Hnotin. exact (in_map fst _ _ Hin).
Qed.

Lemma initial_ordered r0 reqs :
  NoDup (map fst reqs) -> ordered (req_expected reqs) (initial r0 reqs).
Proof.
  intros Hnd. split; simpl.
  - now rewrite map_map.
  - intros t Hin. apply in_map_iff in Hin as ([id i] & <- & Hin).
    exists (incoming_expected e i). unfold req_expected. simpl.
    rewrite (lookup_req_In _ _ _ Hnd Hin). split; [reflexivity | apply incoming_sends_prefix].
Qed.

Lemma step_tids (c c' : config R) : step c c' -> map tid (c_threads c') = map tid (c_threads c).
Proof. intros Hs. inversion Hs; subst; simpl; now rewrite !map_app. Qed.

Lemma star_tids (c c' : config R) : star step c c' -> map tid (c_threads c') = map tid (c_threads c).
Proof.
  intros Hs.
  refine (star_invariant step (fun x => map tid (c_threads x) = map tid (c_threads c))
            _ c c' Hs eq_refl).
  intros a b Hab Ha. now rewrite (step_tids _ _ Hab).
Qed.

(** Every request of a reachable configuration has sent a prefix of its
    expected list. *)
Lemma reachable_prefix r0 reqs c :
  NoDup (map fst reqs) -> star step (initial r0 reqs) c ->
  forall id i, In (id, i) reqs -> exists rest, proj id (c_sent c) ++ rest = incoming_expected e i.
Proof.
  intros Hnd Hstar id i Hin.
  destruct (ordered_star _ _ _ Hstar (initial_ordered r0 reqs Hnd)) as [_ Hall].
  assert (Hid : In id (map tid (c_threads c))).
  { rewrite (star_tids _ _ Hstar). simpl. rewrite map_map. exact (in_map fst _ _ Hin). }
  apply in_map_iff in Hid as (t & <- & Ht).
  destruct (Hall t Ht) as (rest & Heq & _). exists rest.
  rewrite Heq. unfold req_expected. now rewrite (lookup_req_In _ _ _ Hnd Hin).
Qed.
End Requests.

Lemma incoming_expected_shape e i :
  incoming_expected e i = [] \/
  exists a c, incoming_expected e i = [a; c] /\ to a = JStr admin_address.
Proof.
  destruct i as [b|b f].
  - destruct (contact_proc_read e b) as [[_ ->] | (fn & em & nb & msg & _ & ->)]; auto.
    unfold contact_compose.
    destruct (contact_admin_mail e fn em nb msg) eqn:Ha; simpl; auto.
    destruct (contact_confirm_mail e fn em msg); simpl; auto. right. do 2 eexists. split; [reflexivity|].
    apply contact_admin_mail_Some in Ha as (? & ? & ? & ? & _ & _ & _ & _ & ->). reflexivity.
  - destruct (paper_proc_read e b f)
      as [[_ ->] | (t & em & fnm & ins & cat & abs & _ & ->)]; auto.
    destruct f as [up|]; auto. unfold paper_compose.
    destruct (paper_admin_mail e t em fnm ins cat abs up) eqn:Ha; simpl; auto.
    destruct (paper_confirm_mail e t em fnm); simpl; auto. right. do 2 eexists. split; [reflexivity|].
    apply paper_admin_mail_Some in Ha as (? & ? & ? & ? & ? & ? & _ & _ & _ & _ & _ & _ & ->).
    reflexivity.
Qed.

Section Claims.
Context {R : Type} `{MailRelay R}.

(** C28. Requests with distinct ids start together and are interleaved
    in any way at their [await]s.  In every reachable configuration, each
    request has handed the relay a prefix of its own
    [[admin notification; confirmation]], in that order: at most two
    messages, and the first of them addressed to the administrator. *)
Theorem requests_sent_in_order e (r0 : R) reqs c :
  NoDup (map fst reqs) -> star step (initial e r0 reqs) c ->
  forall id i, In (id, i) reqs ->
    (exists rest, proj id (c_sent c) ++ rest = incoming_expected e i) /\
    length (proj id (c_sent c)) <= 2 /\
    (forall m, hd_error (proj id (c_sent c)) = Some m -> to m = JStr admin_address).
Proof.
  intros Hnd Hstar id i Hin.
  destruct (reachable_prefix e r0 reqs c Hnd Hstar id i Hin) as [rest Heq].
  split; [eauto|].
  destruct (incoming_expected_shape e i) as [He | (a & b & He & Ha)]; rewrite He in Heq.
  - apply app_eq_nil in Heq as [-> _]. split; [simpl; lia | discriminate].
  - split.
    + apply (f_equal (@length mail)) in Heq. rewrite length_app in Heq. simpl in Heq. lia.
    + destruct (proj id (c_sent c)) as [|m' ms]; simpl; [discriminate|].
      injection Heq as <- _. now intros m [= <-].
Qed.
End Claims.

(** ** A lone request *)

Section Lone.
Context {R : Type} `{MailRelay R}.

(** The configuration of a single request [id] whose handler has reached
    [p] in world [w]. *)
Definition lone (id : nat) (p : proc unit) (w : world R) : config R :=
  {| c_relay := w_relay w; c_sent := map (fun m => (id, m)) (w_sent w);
     c_threads := [{| tid := id; t_log := w_log w; t_res := w_res w; t_proc := p |}] |}.

Definition halted (o : outcome js_error unit) : proc unit :=
  match o with Normal a => PRet a | Thrown err => PThrow err end.

Definition lone_end (id : nat) (run : outcome js_error unit * world R) : config R :=
  lone id (halted (fst run)) (snd run).

Lemma lone_runs id (p : proc unit) (w : world R) :
  star step (lone id p w) (lone_end id (interp p w)).
Proof.
  revert w. induction p as [a|err|m k IH|l err k IH|c b k IH]; intros w;
    try apply star_refl; simpl.
  - destruct (relay_send (w_relay w) m) as [r' d] eqn:E.
    eapply star_step; [|apply IH]. unfold lone; simpl. rewrite map_app.
    exact (step_send _ _ [] [] _ _ _ _ _ _ _ E).
  - eapply star_step; [|apply IH]. exact (step_log _ _ [] [] _ _ _ _ _ _).
  - destruct (w_res w) as [r|] eqn:E; (eapply star_step; [|apply IH]);
      unfold lone; rewrite E; exact (step_respond _ _ [] [] _ _ _ _ _ _).
Qed.
End Lone.

Definition incoming_handler {R} `{MailRelay R} (e : env) (i : incoming) : M unit :=
  match i with
  | Contact b => contact_handler e b
  | Paper b f => submit_paper_handler e b f
  end.

(** Each request's tree, run in the state monad, is its handler. *)
Lemma incoming_interp {R} `{MailRelay R} e i : interp (incoming_proc e i) ≈ incoming_handler e i.
Proof. destruct i; simpl; handler_equiv. Qed.

(** Run alone, one event at a time, a request's tree reaches
    exactly the final world of its handler in the state monad: the same
    relay state, messages, log lines, response and outcome. *)
Theorem lone_request_refines {R} `{MailRelay R} e i id (w : world R) :
  star step (lone id (incoming_proc e i) w) (lone_end id (incoming_handler e i w)).
Proof. rewrite <- (incoming_interp e i w). apply lone_runs. Qed.

(** ** An executable scheduler *)

Section Schedule.
Context {R : Type} `{MailRelay R}.

(** One event of thread [t]: the new relay state, the message handed to
    the relay if any, and the thread after the event.  [None] when the
    handler has finished. *)
Definition advance (r : R) (t : thread) : option (R * list (nat * mail) * thread) :=
  let '{| tid := id; t_log := lg; t_res := res; t_proc := p |} := t in
  match p with
  | PSend m k =>
      let (r', d) := relay_send r m in
      Some (r', [(id, m)], {| tid := id; t_log := lg; t_res := res; t_proc := k d |})
  | PLog l err k =>
      Some (r, [], {| tid := id; t_log := lg ++ [(l, err)]; t_res := res; t_proc := k |})
  | PRespond c b k =>
      Some (r, [], {| tid := id; t_log := lg;
                      t_res := match res with
                               | Some _ => res
                               | None => Some {| status := c; body := b |}
                               end;
                      t_proc := k (match res with Some _ => false | None => true end) |})
  | PRet _ | PThrow _ => None
  end.

(** The event loop resumes the [n]-th request in flight; [None] when
    there is no such request or it has finished. *)
Definition step_at (n : nat) (c : config R) : option (config R) :=
  match nth_error (c_threads c) n with
  | Some t =>
      match advance (c_relay c) t with
      | Some (r', out, t') =>
          Some {| c_relay := r'; c_sent := c_sent c ++ out;
                  c_threads := firstn n (c_threads c) ++ t' :: skipn (S n) (c_threads c) |}
      | None => None
      end
  | None => None
  end.

(** A schedule: the requests the event loop tries to resume, in order.
    [run_schedule] also counts the events that took place. *)
Fixpoint run_schedule (ns : list nat) (c : config R) : nat * config R :=
  match ns with
  | [] => (0, c)
  | n :: ns =>
      match step_at n c with
      | Some c' => let (k, c'') := run_schedule ns c' in (S k, c'')
      | None => run_schedule ns c
      end
  end.

Definition schedule (ns : list nat) (c : config R) : config R := snd (run_schedule ns c).

Lemma firstn_skipn_mid {A} (pre post : list A) x :
  firstn (length pre) (pre ++ x :: post) = pre /\ skipn (S (length pre)) (pre ++ x :: post) = post.
Proof. induction pre as [|y pre IH]; simpl; auto. destruct IH as [H1 H2]. now rewrite H1. Qed.

Lemma advance_step r s pre post t r' out t' :
  advance r t = Some (r', out, t') ->
  step {| c_relay := r; c_sent := s; c_threads := pre ++ t :: post |}
       {| c_relay := r'; c_sent := s ++ out; c_threads := pre ++ t' :: post |}.
Proof.
  destruct t as [id lg res [a|err|m k|l err k|c b k]]; simpl; try discriminate.
  - destruct (relay_send r m) as [r2 d] eqn:E. intros [= <- <- <-]. now apply step_send.
  - intros [= <- <- <-]. rewrite app_nil_r. apply step_log.
  - intros [= <- <- <-]. rewrite app_nil_r. apply step_respond.
Qed.

Lemma step_at_step n (c c' : config R) : step_at n c = Some c' -> step c c'.
Proof.
  unfold step_at. destruct (nth_error (c_threads c) n) as [t|] eqn:E; [|discriminate].
  destruct (advance (c_relay c) t) as [[[r' out] t']|] eqn:A; [|discriminate].
  apply nth_error_split in E as (pre & post & Hts & <-).
  destruct c as [r s ts]; cbn [c_threads c_relay c_sent] in *; subst ts.
  destruct (firstn_skipn_mid pre post t) as [-> ->]. intros [= <-]. now apply advance_step.
Qed.

Lemma run_schedule_starn ns (c : config R) :
  starn step (fst (run_schedule ns c)) c (schedule ns c).
Proof.
  unfold schedule. revert c. induction ns as [|n ns IH]; intros c; simpl; [constructor|].
  destruct (step_at n c) as [c'|] eqn:E; [|apply IH].
  specialize (IH c'). destruct (run_schedule ns c') as [k c'']. simpl in *.
  econstructor; [eapply step_at_step; eauto | exact IH].
Qed.

Lemma schedule_star ns (c : config R) : star step c (schedule ns c).
Proof. eapply starn_star, run_schedule_starn. Qed.
End Schedule.

(** Every step is one [advance] of one request. *)
Lemma step_advance {R} `{MailRelay R} (c c' : config R) :
  step c c' ->
  exists pre post t t' out,
    c_threads c = pre ++ t :: post /\ c_threads c' = pre ++ t' :: post /\
    advance (c_relay c) t = Some (c_relay c', out, t') /\ c_sent c' = c_sent c ++ out.
Proof.
  intros Hs. inversion Hs as [r s pre post id lg res m k r' d E| |]; subst; simpl;
    do 5 eexists; (split; [reflexivity|]); (split; [reflexivity|]).
  - simpl. rewrite E. split; reflexivity.
  - split; [reflexivity | symmetry; apply app_nil_r].
  - split; [reflexivity | symmetry; apply app_nil_r].
Qed.

Lemma advance_tid {R} `{MailRelay R} (r r' : R) t t' out :
  advance r t = Some (r', out, t') -> tid t' = tid t.
Proof.
  destruct t as [id lg res [a|err|m k|l err k|c b k]]; simpl; try discriminate;
    try destruct (relay_send r m); intros [= <- <- <-]; reflexivity.
Qed.

(** A property of single requests that every event keeps holds of all
    the requests of every reachable configuration. *)
Lemma star_forall_threads {R} `{MailRelay R} (P : thread -> Prop) (c c' : config R) :
  (forall r r' t t' out, advance r t = Some (r', out, t') -> P t -> P t') ->
  star step c c' -> Forall P (c_threads c) -> Forall P (c_threads c').
Proof.
  intros Hadv Hstar.
  apply (star_invariant step (fun x => Forall P (c_threads x))); [|exact Hstar].
  intros a b Hs Ha.
  destruct (step_advance a b Hs) as (pre & post & t & t' & out & Ea & Eb & Adv & _).
  rewrite Eb. rewrite Ea in Ha. apply Forall_app in Ha as [Hpre Hpost].
  inversion Hpost; subst. apply Forall_app; split; [exact Hpre|]. constructor; eauto.
Qed.
