(* ===== verification/Replies.v ===== *)
(** * What a response may say

    Spec section 7: the caller only ever sees a fixed, static message, and
    never internal error text.  Each endpoint answers with one of three
    (status, body) pairs: 200 with its [message], 400 with its validation
    [error], or 500 with its generic [error] (lines 43, 81, 83 of
    [src/index.js] for the contact endpoint; 101, 147, 149 for the paper
    endpoint).  [responds_only ok p] says that every response on every
    path of [p] satisfies [ok].  [res_within ok w] says the same of the
    response already recorded in world [w].  Running a tree with [interp]
    keeps [res_within]. *)

From Stdlib Require Import String List ZArith Bool Lia.
From S2P Require Import Prelude JsValue Validate Mail Runtime Handlers Resume Interleave.
Import ListNotations.
Open Scope icset_scope.

Fixpoint responds_only {A} (ok : Z -> jsval -> Prop) (p : proc A) : Prop :=
  match p with
  | PRet _ | PThrow _ => True
  | PSend _ k => forall d, responds_only ok (k d)
  | PLog _ _ k => responds_only ok k
  | PRespond c b k => ok c b /\ forall sent, responds_only ok (k sent)
  end.

Definition res_within {R} (ok : Z -> jsval -> Prop) (w : world R) : Prop :=
  match w_res w with None => True | Some r => ok (status r) (body r) end.

(** The three replies of each endpoint, as the code writes them. *)
Definition contact_replies : list (Z * jsval) :=
  [(400%Z, error_body "All fields are required");
   (200%Z, message_body "Email sent successfully");
   (500%Z, error_body "Failed to send email")].

Definition paper_replies : list (Z * jsval) :=
  [(400%Z, error_body "No file uploaded");
   (200%Z, message_body "Paper submitted successfully");
   (500%Z, error_body "Failed to submit paper")].

Definition replies_of (i : incoming) : list (Z * jsval) :=
  match i with Contact _ => contact_replies | Paper _ _ => paper_replies end.

Definition allowed (l : list (Z * jsval)) (c : Z) (b : jsval) : Prop := In (c, b) l.

Lemma responds_only_bind {A B} ok (p : proc A) (f : A -> proc B) :
  responds_only ok p -> (forall a, responds_only ok (f a)) -> responds_only ok (p_bind p f).
Proof.
  intros Hp Hf. induction p as [a|err|m k IH|l err k IH|c b k IH]; simpl in *; firstorder.
Qed.

Lemma responds_only_catch {A} ok (p : proc A) h :
  responds_only ok p -> (forall err, responds_only ok (h err)) -> responds_only ok (p_catch p h).
Proof.
  intros Hp Hh. induction p as [a|err|m k IH|l err k IH|c b k IH]; simpl in *; firstorder.
Qed.

Lemma responds_only_respond ok c b : ok c b -> responds_only ok (p_respond c b).
Proof. intros Hok. split; [exact Hok | intros []; exact I]. Qed.

Lemma responds_only_send ok m : responds_only ok (p_send m).
Proof. intros [|r]; exact I. Qed.

Lemma responds_only_log ok l err : responds_only ok (p_log l err).
Proof. exact I. Qed.

Lemma responds_only_of_option {A} ok err (o : option A) : responds_only ok (p_of_option err o).
Proof. destruct o; exact I. Qed.

Ltac responds_solve :=
  repeat first
    [ apply responds_only_bind; [| intro]
    | apply responds_only_catch; [| intro]
    | apply responds_only_send | apply responds_only_log | apply responds_only_of_option
    | apply responds_only_respond; unfold allowed; simpl; tauto
    | match goal with |- responds_only _ (if ?b then _ else _) => destruct b end
    | match goal with |- responds_only _ (match ?o with Some _ => _ | None => _ end) =>
        destruct o end ].

Lemma incoming_responds_only e i : responds_only (allowed (replies_of i)) (incoming_proc e i).
Proof.
  destruct i; simpl;
    unfold contact_proc, contact_proc_after_read, paper_proc, paper_proc_after_read;
    responds_solve.
Qed.

Section Run.
Context {R : Type} `{MailRelay R}.

Lemma interp_res_within {A} ok (p : proc A) (w : world R) :
  responds_only ok p -> res_within ok w -> res_within ok (snd (interp p w)).
Proof.
  revert w. induction p as [a|err|m k IH|l err k IH|c b k IH]; intros w Hp Hw; simpl in *.
  - exact Hw.
  - exact Hw.
  - destruct (relay_send (w_relay w) m). apply IH; auto.
  - apply IH; auto.
  - destruct Hp as [Hok Hk]. destruct (w_res w) eqn:E; apply IH; auto.
Qed.
End Run.

(** C29. Whatever the request, the relay and the interleaving of
    failures, a handler leaves in the world only one of its endpoint's
    three fixed replies.  No error text reaches the caller.  This holds
    whenever the world held such a reply before, or none. *)
Theorem handler_replies_static {R} `{MailRelay R} e i (w : world R) :
  res_within (allowed (replies_of i)) w ->
  res_within (allowed (replies_of i)) (snd (incoming_handler e i w)).
Proof.
  intros Hw. rewrite <- (incoming_interp e i w). apply interp_res_within; [apply incoming_responds_only | exact Hw].
Qed.

(** ** Replies under any interleaving *)

(** Every path of [p] answers before it returns normally.  Paths that
    throw are left to the framework, which answers 500 itself. *)
Fixpoint answers_before_return {A} (p : proc A) : Prop :=
  match p with
  | PRet _ => False
  | PThrow _ => True
  | PSend _ k => forall d, answers_before_return (k d)
  | PLog _ _ k => answers_before_return k
  | PRespond _ _ _ => True
  end.

Lemma incoming_answers e i : answers_before_return (incoming_proc e i).
Proof. incoming_solve. Qed.

Section Concurrent.
Context {R : Type} `{MailRelay R}.
Variable reqs : list (nat * incoming).

Definition req_replies (id : nat) : list (Z * jsval) :=
  match lookup_req id reqs with Some i => replies_of i | None => [] end.

(** What stays true of each request in flight. *)
Definition thread_ok (t : thread) : Prop :=
  responds_only (allowed (req_replies (tid t))) (t_proc t) /\
  (forall r, t_res t = Some r -> allowed (req_replies (tid t)) (status r) (body r)) /\
  (t_res t <> None \/ answers_before_return (t_proc t)).

Lemma advance_thread_ok (r r' : R) t t' out :
  advance r t = Some (r', out, t') -> thread_ok t -> thread_ok t'.
Proof.
  unfold thread_ok.
  destruct t as [id lg res [a|err|m k|l err k|c b k]]; simpl; try discriminate.
  - destruct (relay_send r m) as [r2 d]. intros [= <- <- <-]. simpl.
    intros (Hp & Hr & [Ha | Ha]); auto.
  - intros [= <- <- <-]. simpl. intros (Hp & Hr & [Ha | Ha]); auto.
  - intros [= <- <- <-]. simpl. intros ([Hok Hk] & Hr & _).
    destruct res as [r0|]; (split; [apply Hk|]); (split; [|left; discriminate]); auto.
    now intros r1 [= <-].
Qed.

Lemma lookup_req_Some_In id i : lookup_req id reqs = Some i -> In (id, i) reqs.
Proof.
  induction reqs as [|[id' i'] rs IH]; simpl; [discriminate|].
  destruct (Nat.eqb_spec id' id); [intros [= <-]; subst; auto | auto].
Qed.
End Concurrent.

Lemma initial_thread_ok {R} `{MailRelay R} e (r0 : R) reqs :
  NoDup (map fst reqs) -> Forall (thread_ok reqs) (c_threads (initial e r0 reqs)).
Proof.
  intros Hnd. simpl. apply Forall_forall. intros t Hin.
  apply in_map_iff in Hin as ([id i] & <- & Hin).
  unfold thread_ok, req_replies. simpl. rewrite (lookup_req_In _ _ _ Hnd Hin).
  split; [apply incoming_responds_only|]. split; [discriminate|].
  right. apply incoming_answers.
Qed.

(** C31. Requests with distinct ids started together and interleaved in
    any way: in every reachable configuration, each request's recorded
    reply is one of its own endpoint's three fixed replies, and a request
    whose handler has returned normally has answered. *)
Theorem requests_reply_statically {R} `{MailRelay R} e (r0 : R) reqs c :
  NoDup (map fst reqs) -> star step (initial e r0 reqs) c ->
  forall t, In t (c_threads c) ->
    exists i, In (tid t, i) reqs /\
      (forall r, t_res t = Some r -> In (status r, body r) (replies_of i)) /\
      (forall a, t_proc t = PRet a -> t_res t <> None).
Proof.
  intros Hnd Hstar t Hin.
  pose proof (star_forall_threads _ _ _ (advance_thread_ok reqs) Hstar
                (initial_thread_ok e r0 reqs Hnd)) as Hall.
  rewrite Forall_forall in Hall. destruct (Hall t Hin) as (_ & Hr & Ha).
  assert (Hid : In (tid t) (map fst reqs)).
  { pose proof (in_map tid _ _ Hin) as Ht. rewrite (star_tids _ _ Hstar) in Ht.
    simpl in Ht. rewrite map_map in Ht. exact Ht. }
  apply in_map_iff in Hid as ([id i] & Heq & Hi). simpl in Heq. subst id.
  exists i. split; [exact Hi|]. unfold req_replies in Hr.
  rewrite (lookup_req_In _ _ _ Hnd Hi) in Hr. split; [exact Hr|].
  intros a Hp. rewrite Hp in Ha. destruct Ha as [Ha | []]. exact Ha.
Qed.
