(* ===== verification/Budget.v ===== *)
(** * How many events a request takes

    Each request of [src/index.js] reaches the event loop a bounded number
    of times.  Its events are:
    - two [await transporter.sendMail] (lines 50, 64 and 108, 129);
    - a [console.error] (lines 82, 148);
    - a [res.status(..).json(..)].
    [events_within n fresh p] says that every path of [p] takes at most
    [n] events.  [fresh] records whether the request has not answered
    yet, because that decides which way [res.json] goes.  Under any
    interleaving, [k] requests started together take at most [4 * k]
    events in all.  The bound is reached: a contact request whose
    confirmation is rejected sends twice, logs, and answers. *)

From Stdlib Require Import String List ZArith Bool Lia Arith.
From S2P Require Import Prelude JsValue Validate Mail Runtime Handlers Resume Interleave.
Import ListNotations.
Open Scope icset_scope.

Fixpoint events_within {A} (n : nat) (fresh : bool) (p : proc A) : Prop :=
  match p with
  | PRet _ | PThrow _ => True
  | PSend _ k => match n with 0 => False | S n' => forall d, events_within n' fresh (k d) end
  | PLog _ _ k => match n with 0 => False | S n' => events_within n' fresh k end
  | PRespond _ _ k => match n with 0 => False | S n' => events_within n' false (k fresh) end
  end.

Definition fresh_res (t : thread) : bool :=
  match t_res t with None => true | Some _ => false end.

Lemma incoming_events_within e i : events_within 4 true (incoming_proc e i).
Proof. incoming_solve. Qed.

Section Budget.
Context {R : Type} `{MailRelay R}.

(** Thread by thread, the events each request may still take. *)
Definition budget (ns : list nat) (c : config R) : Prop :=
  Forall2 (fun n t => events_within n (fresh_res t) (t_proc t)) ns (c_threads c).

Lemma budget_step ns (c c' : config R) :
  step c c' -> budget ns c -> exists ns', budget ns' c' /\ S (list_sum ns') <= list_sum ns.
Proof.
  unfold budget. intros Hs Hb. inversion Hs; subst; clear Hs; simpl in *;
    apply Forall2_app_inv_r in Hb as (ns1 & ns2 & Hpre & Hpost & ->);
    inversion Hpost as [|n ? ns3 ? Ht Hrest]; subst; clear Hpost;
    unfold fresh_res in Ht; simpl in Ht; (destruct n as [|n]; [contradiction|]);
    exists (ns1 ++ n :: ns3); rewrite !list_sum_app; simpl;
    (split; [apply Forall2_app; [exact Hpre | constructor; [|exact Hrest]] | lia]);
    unfold fresh_res; simpl; auto.
  destruct res; exact Ht.
Qed.

Lemma starn_budget k ns (c c' : config R) :
  starn step k c c' -> budget ns c -> k <= list_sum ns.
Proof.
  intros Hk. revert ns. induction Hk as [c|k c1 c2 c3 Hs _ IH]; intros ns Hb; [lia|].
  destruct (budget_step ns _ _ Hs Hb) as (ns' & Hb' & Hlt).
  specialize (IH ns' Hb'). lia.
Qed.

Lemma initial_budget e r0 reqs : budget (repeat 4 (length reqs)) (initial e r0 reqs).
Proof.
  unfold budget, initial. simpl. induction reqs as [|[id i] reqs IH]; simpl; constructor; auto.
  apply incoming_events_within.
Qed.

Lemma list_sum_repeat n k : list_sum (repeat n k) = k * n.
Proof. induction k; simpl; lia. Qed.

(** C30. Requests started together, interleaved in any way, take at
    most four events each: [k] of them reach the event loop at most
    [4 * k] times before all have finished. *)
Theorem requests_events_bounded e (r0 : R) reqs k c :
  starn step k (initial e r0 reqs) c -> k <= 4 * length reqs.
Proof.
  intros Hk. pose proof (starn_budget _ _ _ _ Hk (initial_budget e r0 reqs)) as Hle.
  rewrite list_sum_repeat in Hle. lia.
Qed.
End Budget.
