(* ===== verification/App.v ===== *)
(** * The Express application of [src/index.js]

    Configuration and the path of a request through the application:
    - [corsOptions] (lines 16-20), the transporter options (lines 26-32)
      and the listening port [process.env.PORT || 5000] (line 153);
    - the middleware stack in registration order: [cors(corsOptions)]
      (line 22), which ends an [OPTIONS] preflight with 204;
      [express.json()] (line 23), which parses JSON bodies, refuses
      malformed or non-object JSON with 400 and otherwise leaves
      [req.body = {}] (body-parser 1.x, Express 4);
    - the two routes (lines 34 and 89), matched as Express does by
      default: case-insensitively, with an optional trailing slash;
    - [upload.single('file')] (line 89) on the paper route, which
      replaces [req.body] by the multipart fields and sets [req.file].  It
      forwards an error for a file under another field name or for a second
      file, so the handler never runs;
    - Express's fall-backs: 404 for an unmatched request, and the status of
      a forwarded error (500 when it has none).

    The libraries' own code is not part of the repository; their behaviour
    is written here as far as these routes observe it. *)

From Stdlib Require Import String Ascii List ZArith Bool Lia.
From S2P Require Import Prelude JsValue Validate Mail Runtime Handlers.
Import ListNotations.
Open Scope icset_scope.

(** ** Configuration *)

Record cors_options : Type := {
  origin : string;
  methods : list string;
  credentials : bool
}.

(** Lines 16-20. *)
Definition corsOptions : cors_options :=
  {| origin := "http://localhost:5173"; methods := ["GET"%string; "POST"%string];
     credentials := true |}.

Record transport_options : Type := {
  service : string;
  auth_user : option string;
  auth_pass : option string
}.

(** Lines 26-32. *)
Definition transporter_options (e : env) : transport_options :=
  {| service := "gmail"; auth_user := EMAIL_USER e; auth_pass := EMAIL_PASS e |}.

(** JavaScript's [a || b]: [a] when truthy, else [b]. *)
Definition js_or (a b : jsval) : jsval := if truthy a then a else b.

(** Line 153. *)
Definition listen_port (e : env) : jsval := js_or (env_value (PORT e)) (JNum 5000).

(** ** Requests *)

(** The body of a request as the parsers see it. *)
Inductive payload : Type :=
| NoBody
| JsonBody (v : jsval)
| MalformedJson
| Multipart (fields : list (string * jsval)) (files : list upload)
| OtherBody.

Record request : Type := {
  method : string;
  path : string;
  payload_of : payload
}.

(** What the client receives. *)
Inductive reply : Type :=
| HandlerReply (r : response)
| FrameworkReply (code : Z)
| NoReply.

(** ** Middleware *)

(** [express.json()] (line 23): the parsed body, or the status of the
    error it forwards.  Strict mode accepts only objects and arrays. *)
Definition json_parser (p : payload) : Z + jsval :=
  match p with
  | JsonBody (JObj _ as v) | JsonBody (JArr _ as v) => inr v
  | JsonBody _ | MalformedJson => inl 400%Z
  | NoBody | Multipart _ _ | OtherBody => inr (JObj [])
  end.

(** [upload.single('file')] (line 89): the new [req.body] and [req.file],
    or the status of the error it forwards (a [MulterError] carries none,
    so Express answers 500). *)
Definition multer_single (name : string) (body : jsval) (p : payload)
  : Z + (jsval * option upload) :=
  match p with
  | Multipart fields files =>
      if existsb (fun f => negb (String.eqb (fieldname f) name)) files then inl 500%Z
      else match files with
           | [] => inr (JObj fields, None)
           | [f] => inr (JObj fields, Some f)
           | _ => inl 500%Z
           end
  | _ => inr (body, None)
  end.

(** ** Routing *)

Definition lower (c : ascii) : ascii :=
  let n := nat_of_ascii c in
  if (65 <=? n) && (n <=? 90) then ascii_of_nat (n + 32) else c.

Fixpoint lowercase (s : string) : string :=
  match s with
  | EmptyString => EmptyString
  | String c s' => String (lower c) (lowercase s')
  end.

(** Express's default matching of a literal route: case-insensitive,
    with an optional trailing slash. *)
Definition route_matches (route p : string) : bool :=
  String.eqb (lowercase p) route || String.eqb (lowercase p) (route ++ "/").

Section Application.
Context {R : Type} `{MailRelay R}.
Variable e : env.

(** The client's view of a handler run: the response it wrote, if any. *)
Definition finish (run : outcome js_error unit * world R) : reply * world R :=
  match w_res (snd run) with
  | Some r => (HandlerReply r, snd run)
  | None => (NoReply, snd run)
  end.

(** The whole application on one request. *)
Definition app_handle (rq : request) (w : world R) : reply * world R :=
  if String.eqb (method rq) "OPTIONS" then (FrameworkReply 204, w)
  else
    match json_parser (payload_of rq) with
    | inl code => (FrameworkReply code, w)
    | inr body =>
        if String.eqb (method rq) "POST" && route_matches "/api/contact" (path rq)
        then finish (contact_handler e body w)
        else if String.eqb (method rq) "POST"
                && route_matches "/api/submit-paper" (path rq)
        then match multer_single "file" body (payload_of rq) with
             | inl code => (FrameworkReply code, w)
             | inr (body', file) => finish (submit_paper_handler e body' file w)
             end
        else (FrameworkReply 404, w)
    end.
End Application.

(** ** Lemmas *)

Lemma json_parser_defined p b :
  json_parser p = inr b -> b <> JUndefined /\ b <> JNull.
Proof.
  destruct p as [|v| | |]; simpl; try (intros H; injection H as <-; split; discriminate).
  - destruct v; simpl; intros H; try discriminate; injection H as <-; split; discriminate.
  - discriminate.
Qed.

Lemma multer_single_defined name body p body' file :
  body <> JUndefined -> body <> JNull ->
  multer_single name body p = inr (body', file) -> body' <> JUndefined /\ body' <> JNull.
Proof.
  intros Hu Hn. destruct p as [| | |fields files|]; simpl;
    try (intros H; injection H as <- <-; auto).
  destruct existsb; [discriminate|].
  destruct files as [|f [|f' fs]]; try discriminate;
    intros H; injection H as <- <-; split; discriminate.
Qed.

Lemma lowercase_route_contact_not_paper p :
  route_matches "/api/submit-paper" p = true -> route_matches "/api/contact" p = false.
Proof.
  unfold route_matches. rewrite orb_true_iff, !String.eqb_eq.
  intros [-> | ->]; reflexivity.
Qed.

Section AppTheorems.
Context {R : Type} `{MailRelay R}.
Variable e : env.

(** C14. Every request gets a reply: the handlers never leave a promise
    rejected without a response, because under Express 4 the body is
    always an object. *)
Theorem app_always_replies rq (w : world R) :
  w_res w = None -> fst (app_handle e rq w) <> NoReply.
Proof.
  intros Hres. unfold app_handle.
  destruct (String.eqb (method rq) "OPTIONS"); [discriminate|].
  destruct (json_parser (payload_of rq)) as [code|body] eqn:Hj; [discriminate|].
  destruct (json_parser_defined _ _ Hj) as [Hu Hn].
  destruct (String.eqb (method rq) "POST" && route_matches "/api/contact" (path rq)).
  - destruct (handlers_always_respond e body None w Hu Hn Hres)
      as [(w' & code & b & Hrun & Hw' & _) _].
    unfold finish. rewrite Hrun. simpl. rewrite Hw'. discriminate.
  - destruct (String.eqb (method rq) "POST" && route_matches "/api/submit-paper" (path rq));
      [|discriminate].
    destruct (multer_single "file" body (payload_of rq)) as [code|[body' file]] eqn:Hm;
      [discriminate|].
    destruct (multer_single_defined _ _ _ _ _ Hu Hn Hm) as [Hu' Hn'].
    destruct (handlers_always_respond e body' file w Hu' Hn' Hres)
      as [_ (w' & code & b & Hrun & Hw' & _)].
    unfold finish. rewrite Hrun. simpl. rewrite Hw'. discriminate.
Qed.

(** C15. Express matches the routes case-insensitively and with an
    optional trailing slash: a POST whose path is [/api/contact] or
    [/api/contact/] up to letter case runs the contact handler on the
    parsed body, and a POST whose path is none of the four spellings of
    the two routes gets Express's 404 without running any handler. *)
Theorem app_routes_contact p pl body (w : world R) :
  json_parser pl = inr body ->
  (In (lowercase p) ["/api/contact"; "/api/contact/"]%string ->
     app_handle e {| method := "POST"; path := p; payload_of := pl |} w =
     finish (contact_handler e body w)) /\
  (~ In (lowercase p) ["/api/contact"; "/api/contact/"; "/api/submit-paper";
                       "/api/submit-paper/"]%string ->
     app_handle e {| method := "POST"; path := p; payload_of := pl |} w = (FrameworkReply 404, w)).
Proof.
  intros Hj. unfold app_handle, route_matches. simpl. rewrite Hj. split.
  - intros [Hl|[Hl|[]]]; rewrite <- Hl; reflexivity.
  - intros Hn.
    assert (Hne : forall r, In r ["/api/contact"; "/api/contact/"; "/api/submit-paper";
                                 "/api/submit-paper/"]%string -> String.eqb (lowercase p) r = false)
      by (intros r Hr; apply String.eqb_neq; intros Heq; apply Hn; now rewrite Heq).
    simpl in Hne. rewrite !Hne by tauto. reflexivity.
Qed.

(** C16. On the paper route, a multipart request with two or more files
    is stopped by multer whatever their field names: Express's default
    error handler answers 500, the handler never runs and nothing is
    sent. *)
Theorem app_paper_two_files_500 p fields f1 f2 fs (w : world R) :
  route_matches "/api/submit-paper" p = true ->
  app_handle e {| method := "POST"; path := p;
                  payload_of := Multipart fields (f1 :: f2 :: fs) |} w =
  (FrameworkReply 500, w).
Proof.
  intros Hr. unfold app_handle. simpl.
  rewrite (lowercase_route_contact_not_paper _ Hr), Hr. simpl.
  destruct (_ || _); reflexivity.
Qed.

(** A request that is neither a preflight nor a POST to one of the
    two routes is answered 404 by Express, and nothing else happens. *)
Theorem app_unmatched_404 rq body (w : world R) :
  String.eqb (method rq) "OPTIONS" = false ->
  json_parser (payload_of rq) = inr body ->
  String.eqb (method rq) "POST" = false \/
  (route_matches "/api/contact" (path rq) = false /\
   route_matches "/api/submit-paper" (path rq) = false) ->
  app_handle e rq w = (FrameworkReply 404, w).
Proof.
  intros Ho Hj Hroute. unfold app_handle. rewrite Ho, Hj.
  destruct Hroute as [-> | [-> ->]]; simpl; [reflexivity|].
  now rewrite !andb_false_r.
Qed.
End AppTheorems.

(** The server listens on [PORT] unless it is unset or empty, in
    which case it listens on 5000. *)
Theorem listen_port_default e :
  listen_port e = JNum 5000 <-> PORT e = None \/ PORT e = Some ""%string.
Proof.
  unfold listen_port, js_or, env_value.
  destruct (PORT e) as [s|]; simpl; [|tauto].
  destruct (String.eqb_spec s ""); simpl.
  - subst. tauto.
  - split; [discriminate | intros [H|H]; [discriminate | congruence]].
Qed.
