(* ===== verification/Wire.v ===== *)
(** * JSON on the wire: from the request text to the reply text

    [App] takes a request body already parsed ([payload]).  This file
    puts the text back in front of it and behind it:
    - [express_json] is what [app.use(express.json())] (line 23 of
      [src/index.js]) does with the text of an [application/json] body
      (body-parser 1.x, strict mode): an empty body is left to the
      default [{}]; a first non-white character other than [{] or [[] is
      a 400; otherwise the text goes to [JSON.parse] of [Json];
    - [reply_text] is what [res.status(c).json(b)] (lines 43, 76, 81,
      101, 144, 147) sends: [JSON.stringify(b)].

    The lemmas compose [Json] with [App] and [Replies]: the object a
    client posts as JSON text reaches the contact handler as it was
    sent, and every reply the handler leaves is sent as text that the
    client's [JSON.parse] reads back to the reply's body. *)

From Stdlib Require Import String Ascii List ZArith Bool.
From S2P Require Import Prelude JsValue Json Validate Mail Runtime Handlers Resume Interleave Replies App.
Import ListNotations.
Local Open Scope string_scope.

(** [express.json()] on the text of the body; [None] when [JSON.parse]
    would produce a value outside [jsval] ([PBeyond]). *)
Definition express_json (text : string) : option payload :=
  if String.eqb text "" then Some NoBody
  else match skip_json_ws text with
       | String c _ =>
           if is_code 123 c || is_code 91 c then
             match json_parse text with
             | PParsed v => Some (JsonBody v)
             | PError => Some MalformedJson
             | PBeyond => None
             end
           else Some MalformedJson
       | EmptyString => Some MalformedJson
       end.

(** The status and the text [res.json] sends for a handler's reply. *)
Definition reply_text (r : response) : option (Z * string) :=
  option_map (fun t => (status r, t)) (json_stringify (body r)).

(** What the client reads from a reply text with [JSON.parse]. *)
Definition client_reads (t : Z * string) : Z * parsed := (fst t, json_parse (snd t)).

(** A reply whose text reads back, in the client, to its own status and
    body. *)
Definition reads_back (c : Z) (b : jsval) : Prop :=
  option_map client_reads (reply_text {| status := c; body := b |}) = Some (c, PParsed b).

(** ** Lemmas *)

Lemma res_within_weaken {R} (ok ok' : Z -> jsval -> Prop) (w : world R) :
  (forall c b, ok c b -> ok' c b) -> res_within ok w -> res_within ok' w.
Proof. unfold res_within. destruct (w_res w); auto. Qed.

Lemma reads_back_wire c b : json_wire b = true -> reads_back c b.
Proof.
  intros Hw. unfold reads_back, reply_text, json_stringify. simpl.
  rewrite (wire_defined b Hw). simpl. unfold client_reads. simpl. now rewrite stringify_parse.
Qed.

(** The six fixed bodies are [json_wire], so their texts read back. *)
Lemma replies_read_back i c b : allowed (replies_of i) c b -> reads_back c b.
Proof.
  intros Hin. apply reads_back_wire.
  destruct i; simpl in Hin; repeat destruct Hin as [Hin|Hin]; try contradiction;
    injection Hin as <- <-; reflexivity.
Qed.

(** An object posted as JSON text reaches [express.json] as itself. *)
Lemma express_json_object ps :
  json_wire (JObj ps) = true -> express_json (stringify (JObj ps)) = Some (JsonBody (JObj ps)).
Proof.
  intros Hw. unfold express_json. rewrite (stringify_parse _ Hw). reflexivity.
Qed.

Section Exchange.
Context {R : Type} `{MailRelay R}.
Variable e : env.

(** C27. A client that posts [JSON.stringify(obj)] to [/api/contact],
    for an object [JSON.parse] can produce, gets [obj] itself to the
    contact handler through [express.json()], and whatever the relay
    answers, the reply the handler leaves is one of the three fixed
    replies, sent as text that the client's [JSON.parse] reads back to
    the same status and body. *)
Theorem contact_json_exchange ps (w : world R) :
  json_wire (JObj ps) = true -> res_within (allowed contact_replies) w ->
  exists pl, express_json (stringify (JObj ps)) = Some pl /\
    app_handle e {| method := "POST"; path := "/api/contact"; payload_of := pl |} w =
      finish (contact_handler e (JObj ps) w) /\
    res_within (fun c b => allowed contact_replies c b /\ reads_back c b)
      (snd (contact_handler e (JObj ps) w)).
Proof.
  intros Hw Hres. exists (JsonBody (JObj ps)).
  split; [now apply express_json_object|]. split; [reflexivity|].
  apply res_within_weaken with (ok := allowed (replies_of (Contact (JObj ps)))).
  { intros c b Hc. split; [exact Hc | exact (replies_read_back _ _ _ Hc)]. }
  change (contact_handler e (JObj ps) w) with (incoming_handler e (Contact (JObj ps)) w).
  rewrite <- (incoming_interp e (Contact (JObj ps)) w).
  apply interp_res_within; [apply incoming_responds_only | exact Hres].
Qed.

(** C34. The spec maps errors while parsing a request to the generic
    500 of the endpoint layer.  In the code, a body that is not JSON
    text never reaches a handler, whatever its path: [express.json()]
    (line 23, before the routes) forwards a 400 error, which Express
    answers itself, and the world is left as it was. *)
Theorem malformed_body_400 text p (w : world R) :
  text <> EmptyString -> json_parse text = PError ->
  exists pl, express_json text = Some pl /\
    app_handle e {| method := "POST"; path := p; payload_of := pl |} w = (FrameworkReply 400, w).
Proof.
  intros Hne Hp. exists MalformedJson. split; [|reflexivity].
  unfold express_json. destruct text as [|c t]; [contradiction|]. simpl String.eqb.
  destruct (skip_json_ws (String c t)) as [|c' t']; [reflexivity|].
  destruct (is_code 123 c' || is_code 91 c'); [now rewrite Hp | reflexivity].
Qed.
End Exchange.
