(* ===== verification/Startup.v ===== *)
(** * Process start-up: [dotenv.config()] and [app.listen]

    Line 7 of [src/index.js] calls [dotenv.config()] before anything
    reads [process.env].  With its defaults ([override: false]), dotenv
    sets each variable of the [.env] file that the process does not
    already have; a variable set in the environment wins.  The parsing
    of the file's text into lines is not modelled: the file is given as
    its list of (name, value) pairs, in order.  [dotenv_parse] collects
    them into an object, so a name given twice keeps its last value.
    [populate] then copies each name that [process.env] lacks.

    Lines 153-156: the server listens on [process.env.PORT || 5000] and
    logs [Server running on port ${PORT}].  [startup] gives the port and
    the log line; the transporter (lines 26-32) reads the same
    environment, after dotenv. *)

From Stdlib Require Import String List ZArith Bool.
From S2P Require Import Prelude JsValue Validate Mail Runtime Handlers App.
Import ListNotations.
Local Open Scope string_scope.

(** [process.env[name] = value] unless [name] is already set. *)
Definition dotenv_set (name value : string) (e : env) : env :=
  let keep o := match o with Some v => Some v | None => Some value end in
  if String.eqb name "EMAIL_USER" then
    {| EMAIL_USER := keep (EMAIL_USER e); EMAIL_PASS := EMAIL_PASS e; PORT := PORT e |}
  else if String.eqb name "EMAIL_PASS" then
    {| EMAIL_USER := EMAIL_USER e; EMAIL_PASS := keep (EMAIL_PASS e); PORT := PORT e |}
  else if String.eqb name "PORT" then
    {| EMAIL_USER := EMAIL_USER e; EMAIL_PASS := EMAIL_PASS e; PORT := keep (PORT e) |}
  else e.

(** [obj[key] = value] on the object the parser builds. *)
Fixpoint put_var (k v : string) (obj : list (string * string)) : list (string * string) :=
  match obj with
  | [] => [(k, v)]
  | (k', x) :: rest => if String.eqb k' k then (k', v) :: rest else (k', x) :: put_var k v rest
  end.

(** [dotenv.parse(src)]: the object of the file's variables. *)
Definition dotenv_parse (file : list (string * string)) : list (string * string) :=
  fold_left (fun o p => put_var (fst p) (snd p) o) file [].

(** Line 7: [dotenv.config()]: parse, then [populate(process.env,
    parsed)]. *)
Definition dotenv_config (file : list (string * string)) (e : env) : env :=
  fold_left (fun e p => dotenv_set (fst p) (snd p) e) (dotenv_parse file) e.

(** Lines 153-156: the port [app.listen] is given and the line logged. *)
Definition startup (file : list (string * string)) (e : env) : jsval * option string :=
  let e' := dotenv_config file e in
  let port := listen_port e' in
  (port, option_map (fun s => "Server running on port " ++ s) (to_str port)).

(** ** Lemmas *)

Fixpoint var_lookup (name : string) (obj : list (string * string)) : option string :=
  match obj with
  | [] => None
  | (n, v) :: rest => if String.eqb n name then Some v else var_lookup name rest
  end.

(** The last value a file gives for a name. *)
Definition last_value (name : string) (file : list (string * string)) : option string :=
  fold_left (fun acc p => if String.eqb (fst p) name then Some (snd p) else acc) file None.

Definition env_or (o o' : option string) : option string :=
  match o with Some v => Some v | None => o' end.

Lemma var_lookup_put k n v obj :
  var_lookup k (put_var n v obj) = if String.eqb n k then Some v else var_lookup k obj.
Proof.
  induction obj as [|[n' x] rest IH]; simpl; [now destruct (String.eqb n k)|].
  destruct (String.eqb_spec n' n) as [->|Hne]; simpl; [now destruct (String.eqb n k)|].
  rewrite IH. destruct (String.eqb_spec n' k) as [->|]; [|reflexivity].
  apply String.eqb_neq in Hne. rewrite String.eqb_sym in Hne. now rewrite Hne.
Qed.

(** The parsed object holds each name's last value. *)
Lemma var_lookup_parse k file : var_lookup k (dotenv_parse file) = last_value k file.
Proof.
  unfold dotenv_parse, last_value.
  assert (Hgen : forall obj acc, var_lookup k obj = acc ->
            var_lookup k (fold_left (fun o p => put_var (fst p) (snd p) o) file obj) =
            fold_left (fun acc p => if String.eqb (fst p) k then Some (snd p) else acc) file acc).
  { induction file as [|[n v] file IH]; intros obj acc Hacc; simpl; [exact Hacc|].
    apply IH. rewrite var_lookup_put, Hacc. reflexivity. }
  now apply Hgen.
Qed.

Lemma dotenv_set_spec n v e :
  dotenv_set n v e =
  {| EMAIL_USER := if String.eqb n "EMAIL_USER" then env_or (EMAIL_USER e) (Some v) else EMAIL_USER e;
     EMAIL_PASS := if String.eqb n "EMAIL_PASS" then env_or (EMAIL_PASS e) (Some v) else EMAIL_PASS e;
     PORT := if String.eqb n "PORT" then env_or (PORT e) (Some v) else PORT e |}.
Proof.
  destruct e as [u p port]. unfold dotenv_set. simpl.
  destruct (String.eqb_spec n "EMAIL_USER") as [->|Hu]; [now destruct u|].
  destruct (String.eqb_spec n "EMAIL_PASS") as [->|Hp]; [now destruct p|].
  destruct (String.eqb_spec n "PORT") as [->|Hpo]; [now destruct port|].
  reflexivity.
Qed.

Lemma env_or_some_l o v o' : env_or (env_or o (Some v)) o' = env_or o (Some v).
Proof. now destruct o. Qed.

(** [populate]: a variable already set stays; a missing one takes the
    parsed value. *)
Lemma populate_spec obj e :
  fold_left (fun e p => dotenv_set (fst p) (snd p) e) obj e =
  {| EMAIL_USER := env_or (EMAIL_USER e) (var_lookup "EMAIL_USER" obj);
     EMAIL_PASS := env_or (EMAIL_PASS e) (var_lookup "EMAIL_PASS" obj);
     PORT := env_or (PORT e) (var_lookup "PORT" obj) |}.
Proof.
  revert e. induction obj as [|[n v] obj IH]; intros e; simpl.
  - destruct e as [[] [] []]; reflexivity.
  - rewrite IH, dotenv_set_spec. simpl.
    destruct (String.eqb n "EMAIL_USER"), (String.eqb n "EMAIL_PASS"), (String.eqb n "PORT");
      rewrite ?env_or_some_l; reflexivity.
Qed.

(** After line 7, a variable is the environment's own when set, and
    otherwise the last value the [.env] file gives. *)
Lemma dotenv_config_spec file e :
  dotenv_config file e =
  {| EMAIL_USER := env_or (EMAIL_USER e) (last_value "EMAIL_USER" file);
     EMAIL_PASS := env_or (EMAIL_PASS e) (last_value "EMAIL_PASS" file);
     PORT := env_or (PORT e) (last_value "PORT" file) |}.
Proof. unfold dotenv_config. now rewrite populate_spec, !var_lookup_parse. Qed.

(** C35. Start-up (line 7, then lines 153-156): the server listens on
    the process's own [PORT] when it is set, even to the empty string,
    which dotenv does not override; otherwise on the last [PORT] the
    [.env] file gives.  A non-empty value is used as the port and
    logged; an empty or missing one gives 5000. *)
Lemma startup_spec file e :
  startup file e =
  match env_or (PORT e) (last_value "PORT" file) with
  | Some p => if String.eqb p "" then (JNum 5000, Some "Server running on port 5000")
              else (JStr p, Some ("Server running on port " ++ p))
  | None => (JNum 5000, Some "Server running on port 5000")
  end.
Proof.
  unfold startup, listen_port, js_or. rewrite dotenv_config_spec. simpl.
  destruct (env_or (PORT e) (last_value "PORT" file)) as [p|]; simpl; [|reflexivity].
  now destruct (String.eqb p "").
Qed.
