(* ===== verification/Cors.v ===== *)
(** * The CORS middleware: [app.use(cors(corsOptions))]

    Line 22 of [src/index.js] installs the cors package (2.8) with the
    options of lines 16-20, before every other middleware.  On each
    request it sets response headers with [res.setHeader], or with
    [vary(res, ..)] for [Vary].  On an [OPTIONS] preflight it also ends the
    response with [optionsSuccessStatus] (204) and [Content-Length: 0].
    The headers stay on whatever response follows: a handler's
    [res.json], [express.json]'s 400, multer's 500 or Express's 404.

    The model follows the package's functions:
    - [configure_origin], [configure_credentials], [configure_methods]
      and [configure_allowed_headers] give the header list of each step;
    - [apply_headers] applies them to the response;
    - [vary_append] is the [append] of the vary package.
    Options the code leaves unset take the package defaults:
    [allowedHeaders] (the request's [Access-Control-Request-Headers] are
    reflected), [exposedHeaders], [maxAge], [preflightContinue = false]
    and [optionsSuccessStatus = 204].

    [http_handle] is a request through the whole server: the CORS headers
    and [app_handle].  Request header names are lower case, as Node
    delivers them.  A repeated request header is not modelled: the first
    one is read. *)

From Stdlib Require Import String Ascii List ZArith Bool.
From S2P Require Import Prelude Text JsValue Validate Mail Runtime Handlers App.
Import ListNotations.
Open Scope icset_scope.
Local Open Scope string_scope.

(** ** Header stores *)

(** The headers of a request, as [req.headers]. *)
Definition header_list : Type := list (string * string).

Fixpoint req_header (name : string) (hs : header_list) : option string :=
  match hs with
  | [] => None
  | (n, v) :: hs' => if String.eqb n name then Some v else req_header name hs'
  end.

(** [res.setHeader(name, v)]: names are case-insensitive; a header set
    again keeps its place. *)
Fixpoint set_header (name v : string) (hs : header_list) : header_list :=
  match hs with
  | [] => [(lowercase name, v)]
  | (n, x) :: hs' =>
      if String.eqb n (lowercase name) then (n, v) :: hs' else (n, x) :: set_header name v hs'
  end.

(** [res.getHeader(name)]. *)
Definition get_header (name : string) (hs : header_list) : option string :=
  req_header (lowercase name) hs.

(** ** The vary package *)

(** [append(header, field)] for one field name. *)
Definition vary_append (header field : string) : string :=
  if String.eqb header "*" then "*"
  else
    let vals := vary_parse (lowercase header) in
    if String.eqb field "*" || existsb (String.eqb "*") vals then "*"
    else if existsb (String.eqb (lowercase field)) vals then header
    else if String.eqb header "" then field
    else header ++ ", " ++ field.

(** [vary(res, field)]. *)
Definition vary (field : string) (hs : header_list) : header_list :=
  let header := match get_header "Vary" hs with Some v => v | None => "" end in
  let v := vary_append header field in
  if String.eqb v "" then hs else set_header "Vary" v hs.

(** ** The cors package *)

Inductive cors_header : Type :=
| HSet (key value : string)
| HVary (value : string).

(** [configureOrigin] for an origin given as a string. *)
Definition configure_origin (o : cors_options) : list cors_header :=
  if String.eqb (origin o) "" || String.eqb (origin o) "*" then
    [HSet "Access-Control-Allow-Origin" "*"]
  else [HSet "Access-Control-Allow-Origin" (origin o); HVary "Origin"].

(** [configureCredentials]. *)
Definition configure_credentials (o : cors_options) : list cors_header :=
  if credentials o then [HSet "Access-Control-Allow-Credentials" "true"] else [].

(** [configureMethods]: the array joined with commas. *)
Definition configure_methods (o : cors_options) : list cors_header :=
  [HSet "Access-Control-Allow-Methods" (join "," (methods o))].

(** [configureAllowedHeaders] without [allowedHeaders]: reflect the
    request's [Access-Control-Request-Headers]. *)
Definition configure_allowed_headers (rq_hs : header_list) : list cors_header :=
  HVary "Access-Control-Request-Headers" ::
  match req_header "access-control-request-headers" rq_hs with
  | Some v => if String.eqb v "" then [] else [HSet "Access-Control-Allow-Headers" v]
  | None => []
  end.

(** [applyHeaders]: empty values are skipped. *)
Fixpoint apply_headers (l : list cors_header) (hs : header_list) : header_list :=
  match l with
  | [] => hs
  | HSet k v :: l' => apply_headers l' (if String.eqb v "" then hs else set_header k v hs)
  | HVary v :: l' => apply_headers l' (if String.eqb v "" then hs else vary v hs)
  end.

(** The headers [cors(o)] leaves on the response of a request with
    method [meth] and headers [rq_hs]. *)
Definition cors_headers (o : cors_options) (meth : string) (rq_hs : header_list)
  : header_list :=
  if String.eqb meth "OPTIONS" then
    set_header "Content-Length" "0"
      (apply_headers (configure_origin o ++ configure_credentials o ++ configure_methods o
                      ++ configure_allowed_headers rq_hs)%list [])
  else apply_headers (configure_origin o ++ configure_credentials o)%list [].

(** ** The server on one HTTP request *)

Section Http.
Context {R : Type} `{MailRelay R}.
Variable e : env.

(** The reply with the CORS headers, and the world after the request. *)
Definition http_handle (rq : request) (rq_hs : header_list) (w : world R)
  : (reply * header_list) * world R :=
  let hs := cors_headers corsOptions (method rq) rq_hs in
  let (rep, w') := app_handle e rq w in ((rep, hs), w').
End Http.

(** ** What every reply carries *)

Lemma http_handle_split {R} `{MailRelay R} e rq rq_hs (w : world R) :
  http_handle e rq rq_hs w =
  ((fst (app_handle e rq w), cors_headers corsOptions (method rq) rq_hs), snd (app_handle e rq w)).
Proof. unfold http_handle. now destruct (app_handle e rq w). Qed.

(** The headers of a request that is not a preflight. *)
Lemma cors_headers_simple meth rq_hs :
  meth <> "OPTIONS" ->
  cors_headers corsOptions meth rq_hs =
  [("access-control-allow-origin", "http://localhost:5173"); ("vary", "Origin");
   ("access-control-allow-credentials", "true")].
Proof. intros Hm. apply String.eqb_neq in Hm. unfold cors_headers. now rewrite Hm. Qed.

(** The headers of a preflight. *)
Lemma cors_headers_preflight rq_hs :
  cors_headers corsOptions "OPTIONS" rq_hs =
  ([("access-control-allow-origin", "http://localhost:5173");
    ("vary", "Origin, Access-Control-Request-Headers");
    ("access-control-allow-credentials", "true");
    ("access-control-allow-methods", "GET,POST")] ++
   match req_header "access-control-request-headers" rq_hs with
   | Some v => if String.eqb v "" then [] else [("access-control-allow-headers", v)]
   | None => []
   end ++ [("content-length", "0")])%list.
Proof.
  unfold cors_headers, configure_allowed_headers. simpl.
  destruct (req_header "access-control-request-headers" rq_hs) as [v|];
    [destruct (String.eqb v "") eqn:Ev|]; simpl; try rewrite Ev; vm_compute; reflexivity.
Qed.

(** A multipart POST to the paper route with its one file under [file]
    reaches the paper handler with the form fields as [req.body]. *)
Lemma app_routes_paper_multipart {R} `{MailRelay R} e p fields f (w : world R) :
  route_matches "/api/submit-paper" p = true -> fieldname f = "file" ->
  app_handle e {| method := "POST"; path := p; payload_of := Multipart fields [f] |} w =
  finish (submit_paper_handler e (JObj fields) (Some f) w).
Proof.
  intros Hr Hf. unfold app_handle. simpl.
  rewrite (lowercase_route_contact_not_paper p Hr), Hr. simpl. now rewrite Hf.
Qed.

Section CorsTheorems.
Context {R : Type} `{MailRelay R}.
Variable e : env.

(** C18. Every reply of the server carries the CORS headers of the
    configured origin, with credentials allowed.  A request that is not a
    preflight gets exactly [Access-Control-Allow-Origin:
    http://localhost:5173], [Vary: Origin] and
    [Access-Control-Allow-Credentials: true].  A preflight, for any path,
    is answered 204 without reaching a handler, with the methods
    [GET,POST], the request's [Access-Control-Request-Headers] reflected
    when present and non-empty, and [Content-Length: 0]. *)
Theorem cors_headers_every_reply rq rq_hs (w : world R) :
  (method rq <> "OPTIONS" ->
   snd (fst (http_handle e rq rq_hs w)) =
     [("access-control-allow-origin", "http://localhost:5173"); ("vary", "Origin");
      ("access-control-allow-credentials", "true")]) /\
  (method rq = "OPTIONS" ->
   http_handle e rq rq_hs w =
     ((FrameworkReply 204,
       [("access-control-allow-origin", "http://localhost:5173");
        ("vary", "Origin, Access-Control-Request-Headers");
        ("access-control-allow-credentials", "true");
        ("access-control-allow-methods", "GET,POST")] ++
       match req_header "access-control-request-headers" rq_hs with
       | Some v => if String.eqb v "" then [] else [("access-control-allow-headers", v)]
       | None => []
       end ++ [("content-length", "0")])%list, w)).
Proof.
  rewrite http_handle_split. split; intros Hm; simpl.
  - now apply cors_headers_simple.
  - rewrite Hm, cors_headers_preflight. unfold app_handle. now rewrite Hm.
Qed.
(** C17. The configured origin does not restrict who may submit.  A
    multipart paper submission (a form post, which browsers send across
    origins without a preflight) coming from any other origin [o] is
    processed like any other: with a relay that delivers, both messages
    are handed over and the answer is 200.  Only the
    [Access-Control-Allow-Origin] header, which names the configured
    origin and not [o], tells the browser to hide the answer from the
    page. *)
Theorem cross_origin_paper_processed p fields f rq_hs o (w : world R)
    title email fullName institution category abstract ma mc r1 r2 :
  req_header "origin" rq_hs = Some o -> o <> "http://localhost:5173" ->
  route_matches "/api/submit-paper" p = true -> fieldname f = "file" ->
  get_prop (JObj fields) "title" = Some title ->
  get_prop (JObj fields) "email" = Some email ->
  get_prop (JObj fields) "fullName" = Some fullName ->
  get_prop (JObj fields) "institution" = Some institution ->
  get_prop (JObj fields) "category" = Some category ->
  get_prop (JObj fields) "abstract" = Some abstract ->
  paper_admin_mail e title email fullName institution category abstract f = Some ma ->
  paper_confirm_mail e title email fullName = Some mc ->
  relay_send (w_relay w) ma = (r1, Delivered) -> relay_send r1 mc = (r2, Delivered) ->
  w_res w = None ->
  w_sent (snd (http_handle e {| method := "POST"; path := p; payload_of := Multipart fields [f] |}
                            rq_hs w)) = (w_sent w ++ [ma; mc])%list /\
  fst (fst (http_handle e {| method := "POST"; path := p; payload_of := Multipart fields [f] |}
                        rq_hs w)) =
    HandlerReply {| status := 200; body := message_body "Paper submitted successfully" |} /\
  get_header "Access-Control-Allow-Origin"
    (snd (fst (http_handle e {| method := "POST"; path := p; payload_of := Multipart fields [f] |}
                           rq_hs w))) <> Some o.
Proof.
  intros Horig Ho Hr Hf Hti Hem Hfn Hin Hca Hab Ha Hc H1 H2 Hres.
  assert (Hrun : submit_paper_handler e (JObj fields) (Some f) w =
                 (Normal tt, answered {| w_relay := r2; w_sent := (w_sent w ++ [ma; mc])%list;
                                         w_log := w_log w; w_res := None |}
                                      200 (message_body "Paper submitted successfully"))).
  { rewrite (paper_handler_read e (JObj fields) title email fullName institution category abstract
               Hti Hem Hfn Hin Hca Hab). unfold paper_after_read.
    run_world. now rewrite <- app_assoc. }
  rewrite !http_handle_split, (app_routes_paper_multipart e p fields f w Hr Hf), Hrun.
  simpl. rewrite cors_headers_simple by discriminate.
  split; [reflexivity|]. split; [reflexivity|]. simpl. intros [= Heq]. now apply Ho.
Qed.
End CorsTheorems.
