(* ===== verification/Server.v ===== *)
(** * The server: routing composed with the event trees

    [app_handle] of [App] routes a request (lines 22-23, 34, 89), then runs
    a handler in the state monad.  Here the routing is taken out as
    [app_route].  A request either gets a reply from the framework (the
    CORS preflight, a parse error, a multer error, or 404), or it reaches
    a handler as an [incoming] of [Interleave].  [app_handle_routes_events]
    shows that the application is exactly this routing followed by the
    request's event tree, run by [interp].  So the concurrent model of
    [Interleave], which starts from [incoming] requests, covers every
    request the application hands to a handler.

    [accept] is the server of [app.listen] (line 153) taking several
    requests at once: the framework answers some at once, and the others
    start as requests in flight ([server_start]).  [server_sends_in_order]
    carries the ordering invariant of [Interleave] to raw requests: one
    the framework answers never reaches the relay. *)

From Stdlib Require Import String List ZArith Bool.
From S2P Require Import Prelude JsValue Validate Mail Runtime Handlers Resume Interleave App.
Import ListNotations.
Open Scope icset_scope.

Inductive routed : Type :=
| Framework (code : Z)
| Routed (i : incoming).

(** Lines 22-23, 34 and 89: the middleware and the route that a request
    reaches, in the order [app_handle] applies them. *)
Definition app_route (rq : request) : routed :=
  if String.eqb (method rq) "OPTIONS" then Framework 204
  else
    match json_parser (payload_of rq) with
    | inl code => Framework code
    | inr body =>
        if String.eqb (method rq) "POST" && route_matches "/api/contact" (path rq)
        then Routed (Contact body)
        else if String.eqb (method rq) "POST"
                && route_matches "/api/submit-paper" (path rq)
        then match multer_single "file" body (payload_of rq) with
             | inl code => Framework code
             | inr (body', file) => Routed (Paper body' file)
             end
        else Framework 404
    end.

Section Server.
Context {R : Type} `{MailRelay R}.
Variable e : env.

(** The application as routing, then the event tree of the handler. *)
Definition serve (rq : request) (w : world R) : reply * world R :=
  match app_route rq with
  | Framework code => (FrameworkReply code, w)
  | Routed i => finish (interp (incoming_proc e i) w)
  end.

(** On every request and world, the application's reply and final
    world are those of its routing followed by the request's event tree:
    the framework's own reply, or the tree of [contact_proc] /
    [paper_proc] run on the body the middleware produced. *)
Theorem app_handle_routes_events rq (w : world R) : app_handle e rq w = serve rq w.
Proof.
  unfold app_handle, serve, app_route.
  destruct (String.eqb (method rq) "OPTIONS"); [reflexivity|].
  destruct (json_parser (payload_of rq)) as [code|body]; [reflexivity|].
  destruct (String.eqb (method rq) "POST" && route_matches "/api/contact" (path rq)).
  - now rewrite (incoming_interp e (Contact body) w).
  - destruct (String.eqb (method rq) "POST" && route_matches "/api/submit-paper" (path rq));
      [|reflexivity].
    destruct (multer_single "file" body (payload_of rq)) as [code|[body' file]]; [reflexivity|].
    now rewrite (incoming_interp e (Paper body' file) w).
Qed.
End Server.

(** ** Requests accepted together *)

(** The server accepting the requests [rqs] at once: each gets a reply
    from the framework immediately, or becomes a request in flight for
    the interleaving of [Interleave]. *)
Fixpoint accept (rqs : list (nat * request)) : list (nat * Z) * list (nat * incoming) :=
  match rqs with
  | [] => ([], [])
  | (id, rq) :: rest =>
      let (fw, ins) := accept rest in
      match app_route rq with
      | Framework code => ((id, code) :: fw, ins)
      | Routed i => (fw, (id, i) :: ins)
      end
  end.

Section Accept.
Context {R : Type} `{MailRelay R}.
Variable e : env.

(** The configuration the event loop starts from. *)
Definition server_start (r0 : R) (rqs : list (nat * request)) : config R :=
  initial e r0 (snd (accept rqs)).

Lemma accept_routed rqs id rq i :
  In (id, rq) rqs -> app_route rq = Routed i -> In (id, i) (snd (accept rqs)).
Proof.
  induction rqs as [|[id' rq'] rqs IH]; simpl; [tauto|]. intros [Heq|Hin] Hr.
  - injection Heq as -> ->. destruct (accept rqs). rewrite Hr. now left.
  - specialize (IH Hin Hr). destruct (accept rqs).
    destruct (app_route rq'); simpl in *; auto.
Qed.

Lemma accept_ids rqs id : In id (map fst (snd (accept rqs))) -> In id (map fst rqs).
Proof.
  induction rqs as [|[id' rq'] rqs IH]; simpl; [tauto|].
  destruct (accept rqs) as [fw ins]. destruct (app_route rq'); simpl in *; intuition.
Qed.

Lemma accept_nodup rqs : NoDup (map fst rqs) -> NoDup (map fst (snd (accept rqs))).
Proof.
  induction rqs as [|[id rq] rqs IH]; simpl; intros Hnd; [constructor|].
  inversion Hnd as [|? ? Hid Hnd']; subst. pose proof (accept_ids rqs) as Hids.
  destruct (accept rqs) as [fw ins]. simpl in *.
  destruct (app_route rq); simpl; [now apply IH|].
  constructor; [intros Hin; apply Hid, Hids, Hin | now apply IH].
Qed.

Lemma accept_framework rqs id rq code :
  NoDup (map fst rqs) -> In (id, rq) rqs -> app_route rq = Framework code ->
  ~ In id (map fst (snd (accept rqs))).
Proof.
  induction rqs as [|[id' rq'] rqs IH]; simpl; [tauto|]. intros Hnd [Heq|Hin] Hr.
  - injection Heq as -> ->. inversion Hnd as [|? ? Hid _]; subst.
    pose proof (accept_ids rqs id) as Hids. destruct (accept rqs). rewrite Hr. simpl in *. tauto.
  - inversion Hnd as [|? ? Hid Hnd']; subst. specialize (IH Hnd' Hin Hr).
    assert (Hne : id' <> id) by (intros ->; apply Hid, (in_map fst _ _ Hin)).
    destruct (accept rqs). destruct (app_route rq'); simpl in *; tauto.
Qed.

(** Only requests in flight hand messages to the relay. *)
Lemma star_sent_tids (c c' : config R) :
  star step c c' ->
  (forall p, In p (c_sent c) -> In (fst p) (map tid (c_threads c))) ->
  forall p, In p (c_sent c') -> In (fst p) (map tid (c_threads c')).
Proof.
  intros Hs. apply (star_invariant step (fun x => forall p, In p (c_sent x) ->
                                         In (fst p) (map tid (c_threads x)))); [|exact Hs].
  intros a b Hab Ha p Hp. rewrite (step_tids _ _ Hab).
  inversion Hab; subst; simpl in *; try (apply Ha; exact Hp).
  apply in_app_iff in Hp as [Hp|[<-|[]]]; [apply Ha, Hp|].
  rewrite map_app, in_app_iff. simpl. tauto.
Qed.

Lemma proj_absent id (s : list (nat * mail)) :
  (forall p, In p s -> fst p <> id) -> proj id s = [].
Proof.
  intros Hs. unfold proj. induction s as [|[id' m] s IHs]; simpl; [reflexivity|].
  destruct (Nat.eqb_spec id' id) as [Heq|_].
  - exfalso. exact (Hs (id', m) (or_introl eq_refl) Heq).
  - apply IHs. intros p Hp. apply Hs. now right.
Qed.

(** Under every interleaving of requests accepted together, a request the
    framework answers (preflight, parse error, multer error, 404) never
    reaches the relay, and a routed request has handed it a prefix of its
    own [[notification; confirmation]]. *)
Theorem server_sends_in_order (r0 : R) rqs c :
  NoDup (map fst rqs) -> star step (server_start r0 rqs) c ->
  forall id rq, In (id, rq) rqs ->
    match app_route rq with
    | Framework _ => proj id (c_sent c) = []
    | Routed i => exists rest, proj id (c_sent c) ++ rest = incoming_expected e i
    end.
Proof.
  intros Hnd Hstar id rq Hin. destruct (app_route rq) as [code|i] eqn:Hr.
  - apply proj_absent. intros p Hp Heq.
    pose proof (star_sent_tids _ _ Hstar ltac:(intros ? [])) p Hp as Ht.
    rewrite (star_tids _ _ Hstar) in Ht. unfold server_start, initial in Ht. simpl in Ht.
    rewrite map_map in Ht. simpl in Ht. rewrite Heq in Ht.
    exact (accept_framework _ _ _ _ Hnd Hin Hr Ht).
  - apply (reachable_prefix e r0 _ c (accept_nodup _ Hnd) Hstar).
    exact (accept_routed _ _ _ _ Hin Hr).
Qed.
End Accept.
