(* ===== verification/Scenarios.v ===== *)
(** * Concrete runs of the ICSET back end

    Requests run against the scripted relay of [Runtime]: the witnesses that
    instantiate the general theorems at concrete inputs.  Every run is
    computed by the kernel. *)

From Stdlib Require Import String List ZArith Bool Lia.
From S2P Require Import Prelude Text JsValue Forms Json Validate Mail Runtime Handlers Recipients Resume Interleave Replies Budget App Wire Cors.
Import ListNotations.
Open Scope icset_scope.
Local Open Scope string_scope.

(** ** Fixtures *)

Definition cfg : env :=
  {| EMAIL_USER := Some "icset.bot@gmail.com"; EMAIL_PASS := Some "app-password";
     PORT := None |}.

Definition ada_body : jsval :=
  JObj [("firstName", JStr "Ada"); ("email", JStr "ada@example.org");
        ("number", JStr "5551234"); ("message", JStr "Hello")].

Definition paper_body : jsval :=
  JObj [("title", JStr "Proofs"); ("email", JStr "ada@example.org");
        ("fullName", JStr "Ada L"); ("institution", JStr "BIT");
        ("category", JStr "Student"); ("abstract", JStr "Short")].

Definition pdf : upload :=
  {| fieldname := "file"; originalname := "paper.pdf"; mimetype := "application/pdf";
     buffer := [Byte.x25; Byte.x50; Byte.x44; Byte.x46] |}.

(** A relay that delivers everything, one that rejects the first call, and
    one that rejects the second. *)
Definition relay_ok : scripted := {| script := []; delivered := [] |}.
Definition relay_down : scripted := {| script := [Failed "535 auth"]; delivered := [] |}.
Definition relay_second_fails : scripted :=
  {| script := [Delivered; Failed "550 mailbox"]; delivered := [] |}.

Definition w0 : world scripted := fresh_world relay_ok.

(** ** Witnesses of the contact theorems *)

Lemma contact_missing_field_400_witness :
  contact_handler cfg (JObj [("firstName", JStr "Ada")]) w0 =
  (Normal tt, answered w0 400 (error_body "All fields are required")).
Proof.
  apply (contact_missing_field_400 cfg _ (JStr "Ada") JUndefined JUndefined JUndefined);
    reflexivity.
Defined.

Lemma contact_success_witness :
  exists ma mc (r2 : scripted),
    contact_handler cfg ada_body w0 =
      (Normal tt, answered {| w_relay := r2; w_sent := (w_sent w0 ++ [ma; mc])%list;
                              w_log := w_log w0; w_res := None |}
                           200 (message_body "Email sent successfully"))
    /\ to ma = JStr admin_address /\ to mc = JStr "ada@example.org"
    /\ (forall s, to_str (JStr "Ada") = Some s -> infix s (subject ma) /\ infix s (subject mc)).
Proof.
  do 3 eexists.
  eapply (contact_success cfg ada_body (JStr "Ada") (JStr "ada@example.org")
           (JStr "5551234") (JStr "Hello")); reflexivity.
Defined.

Lemma contact_admin_send_fails_witness :
  exists ma (r1 : scripted),
    contact_handler cfg ada_body (fresh_world relay_down) =
      (Normal tt, answered {| w_relay := r1; w_sent := ([] ++ [ma])%list;
                              w_log := ([] ++ [("Error sending email:", SendError "535 auth")])%list;
                              w_res := None |}
                           500 (error_body "Failed to send email")).
Proof.
  do 2 eexists.
  apply (contact_admin_send_fails cfg ada_body (JStr "Ada") (JStr "ada@example.org")
           (JStr "5551234") (JStr "Hello")); reflexivity.
Defined.

Lemma contact_confirm_send_fails_witness :
  exists ma mc (r2 : scripted),
    contact_handler cfg ada_body (fresh_world relay_second_fails) =
      (Normal tt, answered {| w_relay := r2; w_sent := ([] ++ [ma; mc])%list;
                              w_log := ([] ++ [("Error sending email:", SendError "550 mailbox")])%list;
                              w_res := None |}
                           500 (error_body "Failed to send email")).
Proof.
  do 3 eexists.
  eapply (contact_confirm_send_fails cfg ada_body (JStr "Ada") (JStr "ada@example.org")
           (JStr "5551234") (JStr "Hello")); reflexivity.
Defined.

(** A name sent as [{"toString": 1}]. *)
Definition toString_body : jsval :=
  JObj [("firstName", JObj [("toString", JNum 1)]); ("email", JStr "ada@example.org");
        ("number", JStr "5551234"); ("message", JStr "Hello")].

Lemma contact_toString_throws_500_witness :
  contact_handler cfg toString_body w0 =
    (Normal tt, answered {| w_relay := relay_ok; w_sent := [];
                            w_log := ([] ++ [("Error sending email:", TypeError)])%list;
                            w_res := None |}
                         500 (error_body "Failed to send email")).
Proof.
  apply (contact_toString_throws_500 cfg toString_body (JObj [("toString", JNum 1)])
           (JStr "ada@example.org") (JStr "5551234") (JStr "Hello")); reflexivity.
Defined.

(** ** Witnesses of the paper theorems *)

Lemma paper_no_file_400_witness :
  submit_paper_handler cfg paper_body None w0 =
  (Normal tt, answered w0 400 (error_body "No file uploaded")).
Proof. apply paper_no_file_400; [discriminate | discriminate | reflexivity]. Defined.

Lemma paper_success_witness :
  exists ma mc (r2 : scripted),
    submit_paper_handler cfg paper_body (Some pdf) w0 =
      (Normal tt, answered {| w_relay := r2; w_sent := (w_sent w0 ++ [ma; mc])%list;
                              w_log := w_log w0; w_res := None |}
                           200 (message_body "Paper submitted successfully"))
    /\ to ma = JStr admin_address /\ to mc = JStr "ada@example.org"
    /\ attachments ma = [{| filename := originalname pdf; content := buffer pdf;
                            contentType := "application/pdf" |}]
    /\ attachments mc = [].
Proof.
  do 3 eexists.
  eapply (paper_success cfg paper_body (JStr "Proofs") (JStr "ada@example.org")
            (JStr "Ada L") (JStr "BIT") (JStr "Student") (JStr "Short")); reflexivity.
Defined.

Lemma paper_admin_send_fails_witness :
  exists ma (r1 : scripted),
    submit_paper_handler cfg paper_body (Some pdf) (fresh_world relay_down) =
      (Normal tt, answered {| w_relay := r1; w_sent := ([] ++ [ma])%list;
                              w_log := ([] ++ [("Error submitting paper:", SendError "535 auth")])%list;
                              w_res := None |}
                           500 (error_body "Failed to submit paper")).
Proof.
  do 2 eexists.
  eapply (paper_admin_send_fails cfg paper_body (JStr "Proofs") (JStr "ada@example.org")
            (JStr "Ada L") (JStr "BIT") (JStr "Student") (JStr "Short")); reflexivity.
Defined.

Lemma paper_confirm_send_fails_witness :
  exists ma mc (r2 : scripted),
    submit_paper_handler cfg paper_body (Some pdf) (fresh_world relay_second_fails) =
      (Normal tt, answered {| w_relay := r2; w_sent := ([] ++ [ma; mc])%list;
                              w_log := ([] ++ [("Error submitting paper:", SendError "550 mailbox")])%list;
                              w_res := None |}
                           500 (error_body "Failed to submit paper")).
Proof.
  do 3 eexists.
  eapply (paper_confirm_send_fails cfg paper_body (JStr "Proofs") (JStr "ada@example.org")
            (JStr "Ada L") (JStr "BIT") (JStr "Student") (JStr "Short")); reflexivity.
Defined.

(** ** Witnesses of the global and application theorems *)

Lemma handlers_always_respond_witness :
  (exists w' code b, contact_handler cfg ada_body w0 = (Normal tt, w') /\
     w_res w' = Some {| status := code; body := b |} /\
     (code = 200 \/ code = 400 \/ code = 500)%Z) /\
  (exists w' code b, submit_paper_handler cfg ada_body (Some pdf) w0 = (Normal tt, w') /\
     w_res w' = Some {| status := code; body := b |} /\
     (code = 200 \/ code = 400 \/ code = 500)%Z).
Proof. apply handlers_always_respond; [discriminate | discriminate | reflexivity]. Defined.

Definition contact_request : request :=
  {| method := "POST"; path := "/API/Contact/"; payload_of := JsonBody ada_body |}.

Lemma app_always_replies_witness : fst (app_handle cfg contact_request w0) <> NoReply.
Proof. apply app_always_replies. reflexivity. Defined.

Lemma app_routes_contact_witness :
  app_handle cfg {| method := "POST"; path := "/API/Contact/"; payload_of := JsonBody ada_body |} w0
    = finish (contact_handler cfg ada_body w0) /\
  app_handle cfg {| method := "POST"; path := "/api/contacts"; payload_of := JsonBody ada_body |} w0
    = (FrameworkReply 404, w0).
Proof.
  split.
  - apply (proj1 (app_routes_contact cfg "/API/Contact/" (JsonBody ada_body) ada_body w0 eq_refl)).
    right; left; reflexivity.
  - apply (proj2 (app_routes_contact cfg "/api/contacts" (JsonBody ada_body) ada_body w0 eq_refl)).
    simpl. intros H. repeat destruct H as [H|H]; discriminate H || exact H.
Defined.

Lemma app_paper_two_files_500_witness :
  app_handle cfg {| method := "POST"; path := "/api/submit-paper";
                    payload_of := Multipart [] [pdf; pdf] |} w0 = (FrameworkReply 500, w0).
Proof. apply app_paper_two_files_500. reflexivity. Defined.

Lemma app_unmatched_404_witness :
  app_handle cfg {| method := "GET"; path := "/api/contact"; payload_of := NoBody |} w0 =
  (FrameworkReply 404, w0).
Proof.
  apply (app_unmatched_404 cfg _ (JObj [])); [reflexivity | reflexivity | left; reflexivity].
Defined.

(** ** Where the code departs from the spec's validation *)

Lemma contact_zero_number_rejected_witness :
  contact_handler cfg (JObj [("firstName", JStr "Ada"); ("email", JStr "ada@example.org");
                             ("number", JNum 0); ("message", JStr "Hello")]) w0 =
  (Normal tt, answered w0 400 (error_body "All fields are required")).
Proof. apply (contact_zero_number_rejected cfg). reflexivity. Defined.

(** ** The guard and the unchecked fields *)

Definition empty_name_body : jsval :=
  JObj [("firstName", JStr EmptyString); ("email", JStr "ada@example.org");
        ("number", JStr "5551234"); ("message", JStr "Hello")].

Lemma contact_guard_exact_witness :
  option_map status (w_res (snd (contact_handler cfg empty_name_body w0))) = Some 400%Z <->
  Exists (fun v => v = JUndefined \/ v = JNull \/ v = JBool false \/ v = JNum 0 \/
                   v = JStr EmptyString)
         [JStr EmptyString; JStr "ada@example.org"; JStr "5551234"; JStr "Hello"].
Proof.
  apply (contact_guard_exact cfg empty_name_body (JStr EmptyString) (JStr "ada@example.org")
           (JStr "5551234") (JStr "Hello") w0); reflexivity.
Defined.

Definition empty_array_body : jsval :=
  JObj [("firstName", JArr []); ("email", JStr "ada@example.org");
        ("number", JStr "5551234"); ("message", JStr "Hello")].

Lemma contact_empty_array_name_sent_witness :
  exists ma (l : list mail),
    to ma = JStr admin_address /\ subject ma = "Contact Form Submission from " /\
    w_sent (snd (contact_handler cfg empty_array_body w0)) = (w_sent w0 ++ ma :: l)%list /\
    (forall r1, relay_send (w_relay w0) ma = (r1, Delivered) ->
       exists mc (l' : list mail), l = mc :: l' /\ to mc = JStr "ada@example.org" /\
                                   subject mc = "Thank You for Contacting Us, ").
Proof.
  apply (contact_empty_array_name_sent cfg empty_array_body (JStr "ada@example.org")
           (JStr "5551234") (JStr "Hello") "ada@example.org" "5551234" "Hello" w0);
    reflexivity.
Defined.

Lemma paper_fields_unchecked_witness :
  exists ma (l : list mail),
    to ma = JStr admin_address /\ subject ma = "Paper Submission: undefined" /\
    w_sent (snd (submit_paper_handler cfg (JObj [("fullName", JStr "Ada L")]) (Some pdf) w0)) =
      (w_sent w0 ++ ma :: l)%list /\
    (forall r1, relay_send (w_relay w0) ma = (r1, Delivered) ->
       exists mc (l' : list mail), l = mc :: l' /\ to mc = JUndefined /\
                                   subject mc = "Thank You for Your Paper Submission: undefined").
Proof.
  apply (paper_fields_unchecked cfg (JObj [("fullName", JStr "Ada L")]) (JStr "Ada L")
           JUndefined JUndefined JUndefined "Ada L" "undefined" "undefined" "undefined" pdf w0);
    reflexivity.
Defined.

(** ** Two requests in flight *)

(** A contact request (id 1) and a paper submission (id 2) accepted
    together; the event loop resumes them alternately. *)
Definition two_requests : list (nat * incoming) :=
  [(1, Contact ada_body); (2, Paper paper_body (Some pdf))].

Definition interleaved : config scripted :=
  schedule [1; 0; 1; 0; 0; 1] (initial cfg relay_ok two_requests).

Lemma requests_sent_in_order_witness :
  NoDup (map fst two_requests) /\
  star step (initial cfg relay_ok two_requests) interleaved /\
  map fst (c_sent interleaved) = [2; 1; 2; 1] /\
  length (proj 2 (c_sent interleaved)) <= 2 /\
  (forall m, hd_error (proj 2 (c_sent interleaved)) = Some m -> to m = JStr admin_address).
Proof.
  assert (Hnd : NoDup (map fst two_requests)) by (repeat constructor; simpl; intuition lia).
  assert (Hstar : star step (initial cfg relay_ok two_requests) interleaved)
    by apply schedule_star.
  split; [exact Hnd|]. split; [exact Hstar|]. split; [vm_compute; reflexivity|].
  exact (proj2 (requests_sent_in_order cfg relay_ok two_requests interleaved Hnd Hstar 2 _
                  (or_intror (or_introl eq_refl)))).
Defined.

(** A body whose [firstName] throws inside [try]: the caller still gets
    only the static 500 reply. *)
Lemma handler_replies_static_witness :
  res_within (allowed (replies_of (Contact toString_body))) w0 /\
  res_within (allowed (replies_of (Contact toString_body)))
             (snd (incoming_handler cfg (Contact toString_body) w0)) /\
  w_res (snd (incoming_handler cfg (Contact toString_body) w0)) =
    Some {| status := 500; body := error_body "Failed to send email" |}.
Proof.
  split; [exact I|]. split; [apply handler_replies_static; exact I | vm_compute; reflexivity].
Defined.

(** A contact request whose confirmation the relay rejects, resumed
    until it finishes: it takes four events, the most [requests_events_bounded]
    allows. *)
Definition confirm_rejected_run : nat * config scripted :=
  run_schedule [0; 0; 0; 0; 0] (initial cfg relay_second_fails [(1, Contact ada_body)]).

Lemma requests_events_bounded_witness :
  fst confirm_rejected_run = 4 /\
  starn step (fst confirm_rejected_run)
        (initial cfg relay_second_fails [(1, Contact ada_body)]) (snd confirm_rejected_run) /\
  fst confirm_rejected_run <= 4 * length [(1, Contact ada_body)].
Proof.
  assert (Hk : starn step (fst confirm_rejected_run)
                 (initial cfg relay_second_fails [(1, Contact ada_body)])
                 (snd confirm_rejected_run)) by apply run_schedule_starn.
  split; [vm_compute; reflexivity|]. split; [exact Hk|].
  exact (requests_events_bounded cfg relay_second_fails _ _ _ Hk).
Defined.

(** The paper submission of [interleaved] has answered 200, one of its
    endpoint's replies. *)
Definition idle_thread : thread :=
  {| tid := 0; t_log := []; t_res := None; t_proc := PRet tt |}.

Definition paper_thread : thread := nth 1 (c_threads interleaved) idle_thread.

Lemma requests_reply_statically_witness :
  NoDup (map fst two_requests) /\
  star step (initial cfg relay_ok two_requests) interleaved /\
  In paper_thread (c_threads interleaved) /\
  t_res paper_thread =
    Some {| status := 200; body := message_body "Paper submitted successfully" |} /\
  exists i, In (tid paper_thread, i) two_requests /\
    (forall r, t_res paper_thread = Some r -> In (status r, body r) (replies_of i)) /\
    (forall a, t_proc paper_thread = PRet a -> t_res paper_thread <> None).
Proof.
  assert (Hnd : NoDup (map fst two_requests)) by (repeat constructor; simpl; intuition lia).
  assert (Hstar : star step (initial cfg relay_ok two_requests) interleaved)
    by apply schedule_star.
  assert (Hin : In paper_thread (c_threads interleaved))
    by (apply nth_In; vm_compute; lia).
  split; [exact Hnd|]. split; [exact Hstar|]. split; [exact Hin|].
  split; [vm_compute; reflexivity|].
  exact (requests_reply_statically cfg relay_ok two_requests interleaved Hnd Hstar
           paper_thread Hin).
Defined.

(** ** CORS *)

(** A preflight that asks to send [Content-Type]. *)
Definition preflight : request :=
  {| method := "OPTIONS"; path := "/api/contact"; payload_of := NoBody |}.

Lemma cors_headers_every_reply_witness :
  http_handle cfg preflight [("origin", "http://localhost:5173");
                             ("access-control-request-headers", "content-type")] w0 =
  ((FrameworkReply 204,
    [("access-control-allow-origin", "http://localhost:5173");
     ("vary", "Origin, Access-Control-Request-Headers");
     ("access-control-allow-credentials", "true");
     ("access-control-allow-methods", "GET,POST");
     ("access-control-allow-headers", "content-type");
     ("content-length", "0")]), w0).
Proof.
  exact (proj2 (cors_headers_every_reply cfg preflight
                  [("origin", "http://localhost:5173");
                   ("access-control-request-headers", "content-type")] w0) eq_refl).
Defined.

(** The paper form of [paper_body], posted from another site. *)
Definition paper_fields : list (string * jsval) :=
  [("title", JStr "Proofs"); ("email", JStr "ada@example.org");
   ("fullName", JStr "Ada L"); ("institution", JStr "BIT");
   ("category", JStr "Student"); ("abstract", JStr "Short")].

Definition foreign_headers : list (string * string) :=
  [("origin", "https://elsewhere.example"); ("content-type", "multipart/form-data")].

Lemma cross_origin_paper_processed_witness :
  exists ma mc,
    w_sent (snd (http_handle cfg {| method := "POST"; path := "/api/submit-paper";
                                    payload_of := Multipart paper_fields [pdf] |}
                             foreign_headers w0)) = (w_sent w0 ++ [ma; mc])%list /\
    fst (fst (http_handle cfg {| method := "POST"; path := "/api/submit-paper";
                                 payload_of := Multipart paper_fields [pdf] |}
                          foreign_headers w0)) =
      HandlerReply {| status := 200; body := message_body "Paper submitted successfully" |} /\
    get_header "Access-Control-Allow-Origin"
      (snd (fst (http_handle cfg {| method := "POST"; path := "/api/submit-paper";
                                    payload_of := Multipart paper_fields [pdf] |}
                             foreign_headers w0))) <> Some "https://elsewhere.example".
Proof.
  do 2 eexists.
  eapply (cross_origin_paper_processed cfg "/api/submit-paper" paper_fields pdf foreign_headers
            "https://elsewhere.example" w0); try reflexivity. discriminate.
Defined.

(** ** Many recipients *)

(** A relay that accepts every message, recording them. *)
#[export] Instance accepting_relay : MailRelay (list mail) :=
  fun r m => ((r ++ [m])%list, Delivered).

Lemma accepting_delivers : delivers_all (R := list mail).
Proof. intros r m. reflexivity. Qed.

(** A form with the [email] field filled in twice. *)
Definition two_email_form : list (string * string) :=
  [("title", "Proofs"); ("email", "ada@example.org"); ("email", "bob@example.org");
   ("fullName", "Ada L")].

Definition two_email_fields : list (string * jsval) :=
  match multer_fields two_email_form with Some f => f | None => [] end.

Lemma confirmation_reaches_every_address_witness :
  (exists mc,
     In mc (w_sent (snd (contact_handler cfg
                           (JObj [("firstName", JStr "Ada");
                                  ("email", JStr "ada@example.org, bob@example.org");
                                  ("number", JStr "5551234"); ("message", JStr "Hello")])
                           (fresh_world ([] : list mail))))) /\
     recipients (to mc) = Some ["ada@example.org"; "bob@example.org"]) /\
  (exists mc,
     In mc (w_sent (snd (submit_paper_handler cfg (JObj two_email_fields) (Some pdf)
                           (fresh_world ([] : list mail))))) /\
     recipients (to mc) = Some (field_values "email" two_email_form)).
Proof.
  destruct (confirmation_reaches_every_address cfg (fresh_world ([] : list mail))
              accepting_delivers eq_refl) as [Hc Hp].
  split.
  - apply (Hc "Ada" "5551234" "Hello" "ada@example.org" ["bob@example.org"]);
      try discriminate; [repeat (constructor; try reflexivity) | right; reflexivity].
  - apply (Hp two_email_form two_email_fields pdf);
      [reflexivity | discriminate | repeat (constructor; try reflexivity)].
Defined.

(** ** JSON text *)

Lemma contact_json_exchange_witness :
  json_wire ada_body = true /\ res_within (allowed contact_replies) w0 /\
  exists pl, express_json (stringify ada_body) = Some pl /\
    app_handle cfg {| method := "POST"; path := "/api/contact"; payload_of := pl |} w0 =
      finish (contact_handler cfg ada_body w0) /\
    res_within (fun c b => allowed contact_replies c b /\ reads_back c b)
      (snd (contact_handler cfg ada_body w0)).
Proof.
  split; [vm_compute; reflexivity|]. split; [exact I|].
  apply (contact_json_exchange cfg [("firstName", JStr "Ada"); ("email", JStr "ada@example.org");
                                    ("number", JStr "5551234"); ("message", JStr "Hello")] w0);
    [vm_compute; reflexivity | exact I].
Defined.

(** A truncated object: [{"firstName":]. *)
Definition truncated_text : string := "{" ++ dq ++ "firstName" ++ dq ++ ":".

Lemma malformed_body_400_witness :
  exists pl, express_json truncated_text = Some pl /\
    app_handle cfg {| method := "POST"; path := "/api/contact"; payload_of := pl |} w0 =
      (FrameworkReply 400, w0).
Proof. apply (malformed_body_400 cfg truncated_text "/api/contact" w0); [discriminate | vm_compute; reflexivity]. Defined.
